(** * A write-ahead journal over a fixed-layout disk image (project.c)

    Shallow embedding of the journaling tool: the image file is a byte
    medium addressed by offset, every C function of the tool becomes a
    computation over that medium, and the properties of the tool are
    stated and proved about those computations.

    Platform assumptions (Linux, x86-64): little-endian integers,
    [int] and [uint32_t] on 32 bits, [size_t] and [off_t] on 64 bits,
    no implicit padding in the structs (all fields are naturally
    aligned).  Positioning ([lseek] to a non-negative offset) and
    writing never fail on the modelled medium; a [read] fails exactly
    when it would cross the end of the file. *)

From Stdlib Require Import String ZArith List Lia Bool.
From coqutil Require Import Byte Word.LittleEndianList.
Import ListNotations.
Local Open Scope Z_scope.

(** ** Constants of the source *)

Definition BLOCK_SIZE : Z := 4096.
Definition INODE_SIZE : Z := 128.
Definition DIRECT_POINTERS : Z := 8.
Definition NAME_LEN : Z := 28.

Definition FS_MAGIC : Z := 0x56534653.
Definition JOURNAL_MAGIC : Z := 0x4A524E4C.

Definition REC_DATA : Z := 0xD0DA.
Definition REC_COMMIT : Z := 0xC0DE.

Definition JOURNAL_BLOCK_IDX : Z := 1.
Definition JOURNAL_BLOCKS : Z := 16.
Definition INODE_BLOCKS : Z := 2.
Definition DATA_BLOCKS : Z := 64.
Definition INODE_BMAP_IDX : Z := JOURNAL_BLOCK_IDX + JOURNAL_BLOCKS.
Definition DATA_BMAP_IDX : Z := INODE_BMAP_IDX + 1.
Definition INODE_START_IDX : Z := DATA_BMAP_IDX + 1.
Definition DATA_START_IDX : Z := INODE_START_IDX + INODE_BLOCKS.
Definition TOTAL_BLOCKS : Z := DATA_START_IDX + DATA_BLOCKS.

(** [sizeof] of the structs that travel to and from the image. *)
Definition SIZEOF_SUPERBLOCK : Z := 128.
Definition SIZEOF_DIRENT : Z := 32.
Definition SIZEOF_JOURNAL_HEADER : Z := 8.
Definition SIZEOF_REC_HEADER : Z := 4.
Definition SIZEOF_DATA_RECORD : Z := 4 + 4 + BLOCK_SIZE.
Definition SIZEOF_COMMIT_RECORD : Z := 4.

(** Capacity of the journal region, [JOURNAL_BLOCKS * BLOCK_SIZE]. *)
Definition JOURNAL_CAPACITY : Z := JOURNAL_BLOCKS * BLOCK_SIZE.

(** ** Machine integers *)

Definition u16 (z : Z) : Z := z mod 2 ^ 16.
Definition u32 (z : Z) : Z := z mod 2 ^ 32.
Definition u64 (z : Z) : Z := z mod 2 ^ 64.

(** ** In-memory buffers

    A C array of bytes is a list of bytes.  Reading a little-endian
    field takes a slice; storing ([memcpy], a field assignment through
    a cast pointer) replaces a slice.  A store that does not fit inside
    the array is undefined behaviour in C: [store] returns [None]. *)

Definition buffer := list byte.

Definition slice (buf : buffer) (off : Z) (n : nat) : buffer :=
  firstn n (skipn (Z.to_nat off) buf).

Definition get16 (buf : buffer) (off : Z) : Z := le_combine (slice buf off 2).
Definition get32 (buf : buffer) (off : Z) : Z := le_combine (slice buf off 4).

Definition store (buf : buffer) (off : Z) (src : buffer) : option buffer :=
  if (0 <=? off) && (off + Z.of_nat (length src) <=? Z.of_nat (length buf))
  then Some (firstn (Z.to_nat off) buf ++ src
               ++ skipn (Z.to_nat off + length src) buf)
  else None.

Definition zeros (n : nat) : buffer := repeat Byte.x00 n.

(** ** The image file *)

Record disk : Type := mkDisk { dlen : Z; dat : Z -> byte }.

(** [lseek(fd, off, SEEK_SET)] followed by [read(fd, buf, n)]: [None]
    when fewer than [n] bytes are left (the caller then dies).  A read
    of no bytes returns the count [0] that was asked for, wherever the
    file ends. *)
Fixpoint bytes_from (f : Z -> byte) (off : Z) (n : nat) : buffer :=
  match n with
  | O => []
  | S n' => f off :: bytes_from f (off + 1) n'
  end.

Definition pread (d : disk) (off : Z) (n : nat) : option buffer :=
  match n with
  | O => Some []
  | S _ =>
      if off + Z.of_nat n <=? dlen d
      then Some (bytes_from (dat d) off n)
      else None
  end.

(** [lseek(fd, off, SEEK_SET)] followed by [write(fd, src, len)].  A
    write past the end of the file extends it; the gap reads as zero.
    A write of no bytes leaves the file as it is, its length included,
    wherever the offset lies. *)
Definition pwrite (d : disk) (off : Z) (src : buffer) : disk :=
  match src with
  | [] => d
  | _ :: _ =>
      let stop := off + Z.of_nat (length src) in
      let len := dlen d in
      {| dlen := Z.max len stop;
         dat := fun o =>
           if (off <=? o) && (o <? stop)
           then nth (Z.to_nat (o - off)) src Byte.x00
           else if o <? len then dat d o else Byte.x00 |}
  end.

(** ** Computations over the image

    A computation transforms the image and either returns a value,
    terminates the process ([die], [exit(1)]), with the image as it was
    at that moment, or runs into undefined behaviour. *)

Inductive outcome (A : Type) : Type :=
| Ret (a : A)
| Exit (msg : string)
| Undef.
Arguments Ret {A} a.
Arguments Exit {A} msg.
Arguments Undef {A}.

Definition io (A : Type) : Type := disk -> disk * outcome A.

Definition ret {A} (a : A) : io A := fun d => (d, Ret a).

Definition bind {A B} (m : io A) (k : A -> io B) : io B :=
  fun d =>
    match m d with
    | (d', Ret a) => k a d'
    | (d', Exit msg) => (d', Exit msg)
    | (d', Undef) => (d', Undef)
    end.

Notation "x <- m ;; k" := (bind m (fun x => k))
  (at level 61, m at next level, right associativity).
Notation "m ;;; k" := (bind m (fun _ => k))
  (at level 61, right associativity).

(** [perror(msg); exit(1)] *)
Definition die {A} (msg : string) : io A := fun d => (d, Exit msg).

(** A buffer operation whose failure is undefined behaviour. *)
Definition defined {A} (o : option A) : io A :=
  fun d => match o with Some a => (d, Ret a) | None => (d, Undef) end.

Definition read_at (off : Z) (n : nat) (msg : string) : io buffer :=
  fun d => match pread d off n with
           | Some b => (d, Ret b)
           | None => (d, Exit msg)
           end.

Definition write_at (off : Z) (src : buffer) : io unit :=
  fun d => (pwrite d off src, Ret tt).

(** ** Block store *)

(** [blk * BLOCK_SIZE] is computed on 32 bits. *)
Definition block_off (blk : Z) : Z := u32 (blk * BLOCK_SIZE).

Definition read_block (blk : Z) : io buffer :=
  read_at (block_off blk) (Z.to_nat BLOCK_SIZE) "read_block".

Definition write_block (blk : Z) (buf : buffer) : io unit :=
  write_at (block_off blk) buf.

(** ** Bitmap allocator *)

(** [bmap[i/8] & (1 << (i%8))]; indices are never negative here, so the
    truncating division of C is [Z.div]. *)
Definition bitmap_byte (bmap : buffer) (i : Z) : Z :=
  byte.unsigned (nth (Z.to_nat (i / 8)) bmap Byte.x00).

Definition bitmap_test (bmap : buffer) (i : Z) : bool :=
  negb (Z.land (bitmap_byte bmap i) (Z.shiftl 1 (i mod 8)) =? 0).

(** The [for] loop of [bitmap_find_free], [n] iterations left, at [i]. *)
Fixpoint find_free_from (bmap : buffer) (n : nat) (i : Z) : Z :=
  match n with
  | O => -1
  | S n' => if negb (bitmap_test bmap i) then i
            else find_free_from bmap n' (i + 1)
  end.

Definition bitmap_find_free (bmap : buffer) (max : Z) : Z :=
  find_free_from bmap (Z.to_nat max) 0.

(** [bmap[idx/8] |= (1 << (idx%8))], the result converted to [uint8_t]. *)
Definition bitmap_set (bmap : buffer) (idx : Z) : option buffer :=
  store bmap (idx / 8)
    [byte.of_Z (Z.lor (bitmap_byte bmap idx) (Z.shiftl 1 (idx mod 8)))].

(** ** Superblock *)

Record superblock : Type := mkSuperblock {
  magic : Z;
  block_size : Z;
  total_blocks : Z;
  inode_count : Z;
  journal_block : Z;
  inode_bitmap : Z;
  data_bitmap : Z;
  inode_start : Z;
  data_start : Z
}.

Definition decode_superblock (b : buffer) : superblock :=
  {| magic := get32 b 0;
     block_size := get32 b 4;
     total_blocks := get32 b 8;
     inode_count := get32 b 12;
     journal_block := get32 b 16;
     inode_bitmap := get32 b 20;
     data_bitmap := get32 b 24;
     inode_start := get32 b 28;
     data_start := get32 b 32 |}.

Definition read_superblock : io superblock :=
  b <- read_at 0 (Z.to_nat SIZEOF_SUPERBLOCK) "read" ;;
  let sb := decode_superblock b in
  if negb (magic sb =? FS_MAGIC)
  then die "Invalid filesystem magic"
  else ret sb.

(** ** Journal manager *)

(** [struct journal_header], as its eight bytes. *)
Definition encode_journal_header (jh_magic nbytes_used : Z) : buffer :=
  le_split 4 jh_magic ++ le_split 4 nbytes_used.

Definition jh_magic (jh : buffer) : Z := get32 jh 0.
Definition nbytes_used (jh : buffer) : Z := get32 jh 4.

(** [sb->journal_block * BLOCK_SIZE + pos], on 32 bits. *)
Definition journal_off (sb : superblock) (pos : Z) : Z :=
  u32 (block_off (journal_block sb) + pos).

Definition read_journal_header (sb : superblock) : io buffer :=
  read_at (block_off (journal_block sb)) (Z.to_nat SIZEOF_JOURNAL_HEADER) "read".

Definition init_journal_if_needed (sb : superblock) : io unit :=
  jh <- read_journal_header sb ;;
  if negb (jh_magic jh =? JOURNAL_MAGIC)
  then write_at (block_off (journal_block sb))
         (encode_journal_header JOURNAL_MAGIC SIZEOF_JOURNAL_HEADER)
  else ret tt.

(** [append_to_journal(fd, sb, record, size)] with [size] the length of
    [record].  The capacity test adds on 64 bits ([size_t]); the new
    [nbytes_used] is stored back on 32 bits.  Returns [0] or [-1]. *)
Definition append_to_journal (sb : superblock) (record : buffer) : io Z :=
  jh <- read_journal_header sb ;;
  let size := Z.of_nat (length record) in
  if u64 (nbytes_used jh + size) >? JOURNAL_BLOCKS * BLOCK_SIZE
  then ret (-1)
  else
    write_at (journal_off sb (nbytes_used jh)) record ;;;
    write_at (block_off (journal_block sb))
      (encode_journal_header (jh_magic jh) (u32 (nbytes_used jh + size))) ;;;
    ret 0.

(** ** Records *)

Definition encode_data_record (block_no : Z) (data : buffer) : buffer :=
  le_split 2 REC_DATA ++ le_split 2 SIZEOF_DATA_RECORD
    ++ le_split 4 block_no ++ data.

Definition encode_commit_record : buffer :=
  le_split 2 REC_COMMIT ++ le_split 2 SIZEOF_COMMIT_RECORD.

(** ** Create *)

(** [struct inode new_inode = {0}] with [type], [links], [size],
    [ctime] and [mtime] assigned. *)
Definition encode_new_inode (ctime mtime : Z) : buffer :=
  le_split 2 1 ++ le_split 2 1 ++ le_split 4 0
    ++ zeros (Z.to_nat (DIRECT_POINTERS * 4))
    ++ le_split 4 ctime ++ le_split 4 mtime
    ++ zeros (128 - (2 + 2 + 4 + 8 * 4 + 4 + 4)).

(** [strncpy(dst, src, n)]: the [n] bytes it leaves in [dst].  [src] is
    the content of a C string; its terminator is the end of the list or
    the first zero byte, whichever comes first. *)
Fixpoint strncpy (src : buffer) (n : nat) {struct n} : buffer :=
  match n with
  | O => []
  | S n' =>
      match src with
      | [] => zeros n
      | c :: rest => if Byte.eqb c Byte.x00 then zeros n
                     else c :: strncpy rest n'
      end
  end.

Fixpoint strlen (s : buffer) : nat :=
  match s with
  | [] => O
  | c :: rest => if Byte.eqb c Byte.x00 then O else S (strlen rest)
  end.

(** The three readings of [time(NULL)] taken by one [cmd_create]. *)
Record stamps : Type := mkStamps {
  ctime_now : Z;
  mtime_now : Z;
  root_mtime_now : Z
}.

(** The four block images of a creation, with their target blocks. *)
Record create_images : Type := mkImages {
  new_inode_bmap : buffer;
  inode_block_num : Z;
  new_inode_block : buffer;
  root_direct0 : Z;
  new_dir_block : buffer;
  new_root_inode_block : buffer
}.

(** Byte offsets of [size], [direct[0]] and [mtime] in [struct inode]. *)
Definition INODE_SIZE_OFF : Z := 4.
Definition INODE_DIRECT_OFF : Z := 8.
Definition INODE_CTIME_OFF : Z := 40.
Definition INODE_MTIME_OFF : Z := 44.

(** Lines 154-201 of [cmd_create]: read the current blocks and build
    the new images in local arrays. *)
Definition create_build (sb : superblock) (filename : buffer) (now : stamps)
  : io create_images :=
  inode_bmap <- read_block (inode_bitmap sb) ;;
  data_bmap <- read_block (data_bitmap sb) ;;
  let new_ino := bitmap_find_free inode_bmap 64 in
  if new_ino <? 0 then die "no free inode" else
  new_inode_bmap <- defined (bitmap_set inode_bmap new_ino) ;;
  inode_block_buf <- read_block (inode_start sb) ;;
  let root_size := get32 inode_block_buf INODE_SIZE_OFF in
  let direct0 := get32 inode_block_buf INODE_DIRECT_OFF in
  dir_block <- read_block direct0 ;;
  let new_inode := encode_new_inode (ctime_now now) (mtime_now now) in
  let inode_block_num := u32 (inode_start sb + new_ino / 32) in
  let inode_offset := u32 ((new_ino mod 32) * INODE_SIZE) in
  inode_block <- read_block inode_block_num ;;
  new_inode_block <- defined (store inode_block inode_offset new_inode) ;;
  let entries := root_size / SIZEOF_DIRENT in
  let de := entries * SIZEOF_DIRENT in
  dir1 <- defined (store dir_block de (le_split 4 new_ino)) ;;
  dir2 <- defined (store dir1 (de + 4)
                     (strncpy filename (Z.to_nat (NAME_LEN - 1)))) ;;
  new_dir_block <- defined (store dir2 (de + 4 + (NAME_LEN - 1)) [Byte.x00]) ;;
  root1 <- defined (store inode_block_buf INODE_SIZE_OFF
                      (le_split 4 (root_size + SIZEOF_DIRENT))) ;;
  new_root <- defined (store root1 INODE_MTIME_OFF
                         (le_split 4 (root_mtime_now now))) ;;
  ret {| new_inode_bmap := new_inode_bmap;
         inode_block_num := inode_block_num;
         new_inode_block := new_inode_block;
         root_direct0 := direct0;
         new_dir_block := new_dir_block;
         new_root_inode_block := new_root |}.

(** What [cmd_create] tells its caller.  The C function returns [void];
    [Created] is the return after "Created journal entry for file",
    [JournalFull] the early return after an append printed
    "Journal full. Run 'install' first.". *)
Inductive create_report : Type := Created | JournalFull.

(** Lines 203-236 of [cmd_create]: four data records, then the commit. *)
Definition create_log (sb : superblock) (im : create_images)
  : io create_report :=
  r1 <- append_to_journal sb
          (encode_data_record (inode_bitmap sb) (new_inode_bmap im)) ;;
  if r1 <? 0 then ret JournalFull else
  r2 <- append_to_journal sb
          (encode_data_record (inode_block_num im) (new_inode_block im)) ;;
  if r2 <? 0 then ret JournalFull else
  r3 <- append_to_journal sb
          (encode_data_record (root_direct0 im) (new_dir_block im)) ;;
  if r3 <? 0 then ret JournalFull else
  r4 <- append_to_journal sb
          (encode_data_record (inode_start sb) (new_root_inode_block im)) ;;
  if r4 <? 0 then ret JournalFull else
  r5 <- append_to_journal sb encode_commit_record ;;
  if r5 <? 0 then ret JournalFull else
  ret Created.

Definition cmd_create (sb : superblock) (filename : buffer) (now : stamps)
  : io create_report :=
  init_journal_if_needed sb ;;;
  im <- create_build sb filename now ;;
  create_log sb im.

(** ** Install *)

(** One turn of the [while] loop ends in the next position and flag, or
    in the [break] on a record of unknown type. *)
Inductive scan_step : Type :=
| Continue (pos : Z) (in_transaction : bool)
| Break (rec_type : Z).

Definition install_step (sb : superblock) (pos : Z) (in_transaction : bool)
  : io scan_step :=
  rh <- read_at (journal_off sb pos) (Z.to_nat SIZEOF_REC_HEADER) "read" ;;
  let rh_type := get16 rh 0 in
  let rh_size := get16 rh 2 in
  if rh_type =? REC_DATA then
    dr <- read_at (journal_off sb pos) (Z.to_nat SIZEOF_DATA_RECORD) "read" ;;
    (if in_transaction
     then write_block (get32 dr 4) (slice dr 8 (Z.to_nat BLOCK_SIZE))
     else ret tt) ;;;
    ret (Continue (u32 (pos + rh_size)) in_transaction)
  else if rh_type =? REC_COMMIT then
    let in_transaction1 := true in
    cr <- read_at (journal_off sb pos) (Z.to_nat SIZEOF_COMMIT_RECORD) "read" ;;
    let in_transaction2 := false in
    ret (Continue (u32 (pos + rh_size)) in_transaction2)
  else
    ret (Break rh_type).

(** The [while (pos < jh.nbytes_used)] loop.  A record of size zero
    makes the C loop spin forever, so the model counts turns: [None]
    when [fuel] turns were not enough.  A loop that ends returns
    [Ret None] at the end of the journal and [Ret (Some t)] after the
    [break] on a record of type [t]. *)
Fixpoint install_loop (fuel : nat) (sb : superblock) (used pos : Z)
    (in_transaction : bool) (d : disk) : option (disk * outcome (option Z)) :=
  match fuel with
  | O => None
  | S fuel' =>
      if pos <? used then
        match install_step sb pos in_transaction d with
        | (d', Ret (Continue pos' flag')) =>
            install_loop fuel' sb used pos' flag' d'
        | (d', Ret (Break t)) => Some (d', Ret (Some t))
        | (d', Exit msg) => Some (d', Exit msg)
        | (d', Undef) => Some (d', Undef)
        end
      else Some (d, Ret None)
  end.

(** What [cmd_install] prints: "Journal is empty", or "Applied
    journaled changes", preceded by "Unknown record type: 0x...." when
    the scan stopped on such a record. *)
Inductive install_report : Type :=
| JournalEmpty
| Applied (unknown : option Z).

Definition cmd_install (fuel : nat) (sb : superblock) (d : disk)
  : option (disk * outcome install_report) :=
  match read_journal_header sb d with
  | (d1, Ret jh) =>
      if negb (jh_magic jh =? JOURNAL_MAGIC)
      then Some (d1, Exit "Journal not initialized or corrupted")
      else if nbytes_used jh =? SIZEOF_JOURNAL_HEADER
      then Some (d1, Ret JournalEmpty)
      else
        match install_loop fuel sb (nbytes_used jh) SIZEOF_JOURNAL_HEADER
                false d1 with
        | None => None
        | Some (d2, Ret stop) =>
            Some ((write_at (block_off (journal_block sb))
                     (encode_journal_header (jh_magic jh)
                        SIZEOF_JOURNAL_HEADER) ;;;
                   ret (Applied stop)) d2)
        | Some (d2, Exit msg) => Some (d2, Exit msg)
        | Some (d2, Undef) => Some (d2, Undef)
        end
  | (d1, Exit msg) => Some (d1, Exit msg)
  | (d1, Undef) => Some (d1, Undef)
  end.

(** ** Vocabulary of the statements *)

(** Every bit of [[lo, hi)] is set, by the bit test of the source. *)
Definition all_set (bmap : buffer) (lo hi : Z) : Prop :=
  forall j, lo <= j < hi -> bitmap_test bmap j = true.

(** [r] is the lowest clear bit of [[lo, hi)], by the same test. *)
Definition lowest_clear (bmap : buffer) (lo hi r : Z) : Prop :=
  lo <= r < hi /\ bitmap_test bmap r = false /\ all_set bmap lo r.

(** What a scan of [[lo, hi)] must answer: the lowest clear bit, or
    [-1] when there is none. *)
Definition scan_answer (bmap : buffer) (lo hi r : Z) : Prop :=
  (r = -1 /\ all_set bmap lo hi) \/ lowest_clear bmap lo hi r.

(** Bit [j] of a bitmap as the image stores it: bit [j mod 8], counted
    from the least significant bit, of byte [j / 8]. *)
Definition bit_at (bmap : buffer) (j : Z) : bool :=
  Z.testbit (byte.unsigned (nth (Z.to_nat (j / 8)) bmap Byte.x00)) (j mod 8).

(** Every stored bit of [[lo, hi)] is 1. *)
Definition bits_set (bmap : buffer) (lo hi : Z) : Prop :=
  forall j, lo <= j < hi -> bit_at bmap j = true.

(** [r] is the index of the lowest stored bit of [[lo, hi)] that is 0,
    or [-1] when every stored bit of the range is 1. *)
Definition lowest_free (bmap : buffer) (lo hi r : Z) : Prop :=
  (r = -1 /\ bits_set bmap lo hi)
  \/ (lo <= r < hi /\ bit_at bmap r = false /\ bits_set bmap lo r).

(** Byte offset of the journal region, and the offsets that lie in it. *)
Definition journal_base (sb : superblock) : Z := block_off (journal_block sb).

Definition in_journal (sb : superblock) (o : Z) : Prop :=
  journal_base sb <= o < journal_base sb + JOURNAL_CAPACITY.

(** [d'] has every byte of [d] that lies outside the journal region. *)
Definition live_preserved (sb : superblock) (d d' : disk) : Prop :=
  dlen d <= dlen d' /\
  forall o, o < dlen d -> ~ in_journal sb o -> dat d' o = dat d o.

(** A computation that never writes. *)
Definition readonly {A} (m : io A) : Prop := forall d, fst (m d) = d.

(** A computation that writes inside the journal region only. *)
Definition journal_only {A} (sb : superblock) (m : io A) : Prop :=
  forall d, live_preserved sb d (fst (m d)).

(** The journal header of [d] has magic [m] and [nbytes_used] [u]. *)
Definition header_is (sb : superblock) (d : disk) (m u : Z) : Prop :=
  exists jh, pread d (journal_base sb) 8 = Some jh /\
             jh_magic jh = m /\ nbytes_used jh = u.

(** [nbytes_used] as recorded in the image, when the header is there. *)
Definition journal_used (sb : superblock) (d : disk) : option Z :=
  match pread d (journal_base sb) 8 with
  | Some jh => Some (nbytes_used jh)
  | None => None
  end.

(** Bytes taken by one whole creation: four data records and a commit. *)
Definition TRANSACTION_SIZE : Z := 4 * SIZEOF_DATA_RECORD + SIZEOF_COMMIT_RECORD.

(** The position, flag and image with which the loop of [cmd_install]
    stands after [n] turns over records of known type. *)
Fixpoint scan_steps (n : nat) (sb : superblock) (used pos : Z)
    (in_transaction : bool) (d : disk) : option (Z * bool * disk) :=
  match n with
  | O => Some (pos, in_transaction, d)
  | S n' =>
      if pos <? used then
        match install_step sb pos in_transaction d with
        | (d', Ret (Continue pos' flag')) =>
            scan_steps n' sb used pos' flag' d'
        | _ => None
        end
      else None
  end.

(** The offset alone, for a scan that starts with the flag clear and
    therefore leaves the image as it is. *)
Fixpoint scan_to (n : nat) (sb : superblock) (used pos : Z) (d : disk)
  : option Z :=
  match n with
  | O => Some pos
  | S n' =>
      if pos <? used then
        match snd (install_step sb pos false d) with
        | Ret (Continue pos' _) => scan_to n' sb used pos' d
        | _ => None
        end
      else None
  end.

(** The header that [cmd_install] leaves behind. *)
Definition empty_journal_header : buffer :=
  encode_journal_header JOURNAL_MAGIC SIZEOF_JOURNAL_HEADER.

(** ** Sample images

    A well-formed image with the layout of the constants above: the
    superblock, an initialised empty journal, inode 0 allocated to the
    root directory, whose first direct pointer is the first data
    block. *)

Definition blank (n : Z) : disk := {| dlen := n; dat := fun _ => Byte.x00 |}.

Definition encode_superblock (sb : superblock) : buffer :=
  le_split 4 (magic sb) ++ le_split 4 (block_size sb)
    ++ le_split 4 (total_blocks sb) ++ le_split 4 (inode_count sb)
    ++ le_split 4 (journal_block sb) ++ le_split 4 (inode_bitmap sb)
    ++ le_split 4 (data_bitmap sb) ++ le_split 4 (inode_start sb)
    ++ le_split 4 (data_start sb) ++ zeros (128 - 9 * 4).

Definition sample_sb : superblock :=
  {| magic := FS_MAGIC;
     block_size := BLOCK_SIZE;
     total_blocks := TOTAL_BLOCKS;
     inode_count := 64;
     journal_block := JOURNAL_BLOCK_IDX;
     inode_bitmap := INODE_BMAP_IDX;
     data_bitmap := DATA_BMAP_IDX;
     inode_start := INODE_START_IDX;
     data_start := DATA_START_IDX |}.

(** The first forty bytes of a directory inode of [size] bytes whose
    first direct pointer is the first data block. *)
Definition root_inode_bytes (size : Z) : buffer :=
  le_split 2 2 ++ le_split 2 2 ++ le_split 4 size ++ le_split 4 DATA_START_IDX.

(** A formatted image whose root directory holds [size] bytes. *)
Definition formatted_image (size : Z) : disk :=
  pwrite
    (pwrite
       (pwrite
          (pwrite
             (pwrite (blank (TOTAL_BLOCKS * BLOCK_SIZE)) 0
                (encode_superblock sample_sb))
             (block_off JOURNAL_BLOCK_IDX) empty_journal_header)
          (block_off INODE_BMAP_IDX) [Byte.x01])
       (block_off DATA_BMAP_IDX) [Byte.x01])
    (block_off INODE_START_IDX) (root_inode_bytes size).

Definition sample_image : disk := formatted_image 64.

(** The file name "foo.txt". *)
Definition sample_name : buffer :=
  [Byte.x66; Byte.x6f; Byte.x6f; Byte.x2e; Byte.x74; Byte.x78; Byte.x74].

Definition sample_now : stamps :=
  {| ctime_now := 1700000000;
     mtime_now := 1700000000;
     root_mtime_now := 1700000000 |}.

Definition create_sample (d : disk) : disk * outcome create_report :=
  cmd_create sample_sb sample_name sample_now d.

(** The sample image after one, two and three creations. *)
Definition image_after_1 : disk := fst (create_sample sample_image).
Definition image_after_2 : disk := fst (create_sample image_after_1).
Definition image_after_3 : disk := fst (create_sample image_after_2).

(** Block [blk] of an image. *)
Definition image_block (d : disk) (blk : Z) : buffer :=
  bytes_from (dat d) (block_off blk) (Z.to_nat BLOCK_SIZE).

(** A journal holding one committed transaction of one data record,
    which sets bits 0 and 1 of the inode bitmap. *)
Definition committed_record : buffer :=
  encode_data_record INODE_BMAP_IDX (Byte.x03 :: zeros 4095).

Definition committed_image : disk :=
  pwrite
    (pwrite
       (pwrite sample_image
          (block_off JOURNAL_BLOCK_IDX + 8) committed_record)
       (block_off JOURNAL_BLOCK_IDX + 8 + SIZEOF_DATA_RECORD)
       encode_commit_record)
    (block_off JOURNAL_BLOCK_IDX)
    (encode_journal_header JOURNAL_MAGIC
       (8 + SIZEOF_DATA_RECORD + SIZEOF_COMMIT_RECORD)).

(** The header of a record of the unknown type [0xBAAD]. *)
Definition unknown_record : buffer := le_split 2 0xBAAD ++ le_split 2 4.

(** A journal holding a commit record followed by a record of the
    unknown type [0xBAAD]. *)
Definition corrupt_image : disk :=
  pwrite
    (pwrite
       (pwrite sample_image (block_off JOURNAL_BLOCK_IDX + 8)
          encode_commit_record)
       (block_off JOURNAL_BLOCK_IDX + 12) unknown_record)
    (block_off JOURNAL_BLOCK_IDX)
    (encode_journal_header JOURNAL_MAGIC 16).

(** A formatted image whose root directory block is full. *)
Definition full_directory_image : disk := formatted_image BLOCK_SIZE.

(** The size of the root directory, as its inode records it. *)
Definition root_size (sb : superblock) (d : disk) : Z :=
  get32 (image_block d (inode_start sb)) INODE_SIZE_OFF.

(** The 28-byte name field of the directory entry at index [entries]. *)
Definition dirent_name (dir_block : buffer) (entries : Z) : buffer :=
  slice dir_block (entries * SIZEOF_DIRENT + 4) (Z.to_nat NAME_LEN).

(** The content of a C string: no byte of it is the terminator. *)
Definition c_string (s : buffer) : Prop := Forall (fun c => c <> Byte.x00) s.

(** The block images that a creation of "foo.txt" builds on [d]. *)
Definition images_of (d : disk) : create_images :=
  match snd (create_build sample_sb sample_name sample_now d) with
  | Ret im => im
  | _ => mkImages [] 0 [] 0 [] []
  end.


(** ** Vocabulary of the further statements *)

(** Every field of the superblock is a 32-bit value. *)
Definition superblock_wf (sb : superblock) : Prop :=
  0 <= magic sb < 2 ^ 32 /\ 0 <= block_size sb < 2 ^ 32 /\
  0 <= total_blocks sb < 2 ^ 32 /\ 0 <= inode_count sb < 2 ^ 32 /\
  0 <= journal_block sb < 2 ^ 32 /\ 0 <= inode_bitmap sb < 2 ^ 32 /\
  0 <= data_bitmap sb < 2 ^ 32 /\ 0 <= inode_start sb < 2 ^ 32 /\
  0 <= data_start sb < 2 ^ 32.

(** The journal region of [d] holds the bytes [rec] at offset [pos]. *)
Definition journal_holds (sb : superblock) (d : disk) (pos : Z)
    (rec : buffer) : Prop :=
  pread d (journal_base sb + pos) (length rec) = Some rec.

(** [d'] has every record byte that [d] has in the journal region
    below offset [used]. *)
Definition records_kept (sb : superblock) (used : Z) (d d' : disk) : Prop :=
  forall o n b,
    journal_base sb + 8 <= o ->
    o + Z.of_nat n <= journal_base sb + used ->
    pread d o n = Some b -> pread d' o n = Some b.

(** Block [blk] does not meet the journal region. *)
Definition block_apart (sb : superblock) (blk : Z) : Prop :=
  block_off blk + BLOCK_SIZE <= journal_base sb
  \/ journal_base sb + JOURNAL_CAPACITY <= block_off blk.

(** [a] and [b] are equal outside the [len] bytes at [off]. *)
Definition same_outside (a b : buffer) (off len : Z) : Prop :=
  length a = length b /\
  forall i, ~ off <= Z.of_nat i < off + len ->
            nth i a Byte.x00 = nth i b Byte.x00.

(** The data records of a creation, in the order of their appends. *)
Definition data_records (sb : superblock) (im : create_images) : list buffer :=
  [encode_data_record (inode_bitmap sb) (new_inode_bmap im);
   encode_data_record (inode_block_num im) (new_inode_block im);
   encode_data_record (root_direct0 im) (new_dir_block im);
   encode_data_record (inode_start sb) (new_root_inode_block im)].

(** [d'] is at least as long as [d] and has every byte that [d] has at
    or after offset [used] of the journal region. *)
Definition tail_kept (sb : superblock) (used : Z) (d d' : disk) : Prop :=
  dlen d <= dlen d' /\
  forall o, journal_base sb + used <= o -> o < dlen d -> dat d' o = dat d o.

(** ** Main *)

Fixpoint buffer_eqb (a b : buffer) : bool :=
  match a, b with
  | [], [] => true
  | x :: a', y :: b' => Byte.eqb x y && buffer_eqb a' b'
  | _, _ => false
  end.

(** [strcmp(a, b) == 0]: the two strings are equal up to their
    terminators. *)
Definition strcmp_eq (a b : buffer) : bool :=
  buffer_eqb (firstn (strlen a) a) (firstn (strlen b) b).

(** The command names "create" and "install". *)
Definition CMD_CREATE : buffer :=
  [Byte.x63; Byte.x72; Byte.x65; Byte.x61; Byte.x74; Byte.x65].
Definition CMD_INSTALL : buffer :=
  [Byte.x69; Byte.x6e; Byte.x73; Byte.x74; Byte.x61; Byte.x6c; Byte.x6c].

(** [argv[i]] *)
Definition arg (argv : list buffer) (i : nat) : buffer := nth i argv [].

(** [main(argc, argv)], with [argc] the length of [argv] and [image]
    the file that [argv[1]] names, when [open] succeeds on it.  The
    result is that file after the run, and the exit status ([Exit] is
    [exit(1)]); [None] when the install loop was out of fuel. *)
Definition main (fuel : nat) (now : stamps) (argv : list buffer)
    (image : option disk) : option (option disk * outcome Z) :=
  if (length argv <? 3)%nat then Some (image, Ret 1)
  else
    match image with
    | None => Some (None, Exit "open")
    | Some d =>
        match read_superblock d with
        | (d1, Ret sb) =>
            if strcmp_eq (arg argv 2) CMD_CREATE then
              if (length argv <? 4)%nat then Some (Some d1, Ret 1)
              else
                match cmd_create sb (arg argv 3) now d1 with
                | (d2, Ret _) => Some (Some d2, Ret 0)
                | (d2, Exit msg) => Some (Some d2, Exit msg)
                | (d2, Undef) => Some (Some d2, Undef)
                end
            else if strcmp_eq (arg argv 2) CMD_INSTALL then
              match cmd_install fuel sb d1 with
              | None => None
              | Some (d2, Ret _) => Some (Some d2, Ret 0)
              | Some (d2, Exit msg) => Some (Some d2, Exit msg)
              | Some (d2, Undef) => Some (Some d2, Undef)
              end
            else Some (Some d1, Ret 1)
        | (d1, Exit msg) => Some (Some d1, Exit msg)
        | (d1, Undef) => Some (Some d1, Undef)
        end
    end.

(** Every creation can build its images on [d], whatever the name and
    the time, and the directory and inode-table blocks it targets do
    not meet the journal region. *)
Definition buildable (sb : superblock) (d : disk) : Prop :=
  forall filename now,
    exists im,
      snd (create_build sb filename now d) = Ret im /\
      block_apart sb (root_direct0 im) /\
      block_apart sb (inode_block_num im).

(** ** Further sample images *)

(** The sample image with the first 64 inodes allocated. *)
Definition inodes_full_image : disk :=
  pwrite sample_image (block_off INODE_BMAP_IDX) (repeat Byte.xff 8).

(** A commit record whose size field is zero, and the sample image
    with that record in the journal. *)
Definition empty_commit_record : buffer :=
  le_split 2 REC_COMMIT ++ le_split 2 0.

Definition empty_commit_image : disk :=
  pwrite
    (pwrite sample_image (block_off JOURNAL_BLOCK_IDX + 8)
       empty_commit_record)
    (block_off JOURNAL_BLOCK_IDX)
    (encode_journal_header JOURNAL_MAGIC 12).

(** The sample image before its journal was ever initialised. *)
Definition fresh_journal_image : disk :=
  pwrite sample_image (block_off JOURNAL_BLOCK_IDX) (zeros 8).

(** An image that ends with its journal header, which records
    [nbytes_used = 100]: the records would lie beyond the end of the
    file. *)
Definition header_only_image : disk :=
  pwrite (blank (block_off JOURNAL_BLOCK_IDX)) (block_off JOURNAL_BLOCK_IDX)
    (encode_journal_header JOURNAL_MAGIC 100).

(** A file name of the two bytes [0xDA 0xD0], which read as the type
    field of a data record, and the sample image after the creation of
    that file: the directory block journaled by it has those bytes,
    followed by zero bytes, inside its payload. *)
Definition record_like_name : buffer := [Byte.xda; Byte.xd0].

Definition record_like_image : disk :=
  fst (cmd_create sample_sb record_like_name sample_now sample_image).

(** The command line [tool img create foo.txt]. *)
Definition sample_argv : list buffer :=
  [[Byte.x74; Byte.x6f; Byte.x6f; Byte.x6c];
   [Byte.x69; Byte.x6d; Byte.x67];
   CMD_CREATE;
   sample_name].

(** * Properties *)

(** ** Buffers *)

Lemma length_store (buf src b : buffer) (off : Z) :
  store buf off src = Some b -> length b = length buf.
Proof.
  unfold store.
  destruct (0 <=? off) eqn:H0; [|discriminate].
  destruct (off + Z.of_nat (length src) <=? Z.of_nat (length buf)) eqn:H1;
    [|discriminate].
  intros [= <-]. apply Z.leb_le in H0, H1.
  rewrite !length_app, length_firstn, length_skipn. lia.
Qed.

Lemma store_defined (buf src : buffer) (off : Z) :
  0 <= off -> off + Z.of_nat (length src) <= Z.of_nat (length buf) ->
  exists b, store buf off src = Some b.
Proof.
  intros H0 H1. unfold store.
  apply Z.leb_le in H0, H1. rewrite H0, H1. simpl. eauto.
Qed.

Lemma store_undefined (buf src : buffer) (off : Z) :
  Z.of_nat (length buf) < off + Z.of_nat (length src) ->
  store buf off src = None.
Proof.
  intros H. unfold store.
  destruct (off + Z.of_nat (length src) <=? Z.of_nat (length buf)) eqn:H1.
  - apply Z.leb_le in H1. lia.
  - now rewrite andb_false_r.
Qed.

(** Byte [i] of a buffer after a store. *)
Lemma nth_store (buf src b : buffer) (off : Z) (i : nat) :
  store buf off src = Some b ->
  nth i b Byte.x00 =
    if (off <=? Z.of_nat i) && (Z.of_nat i <? off + Z.of_nat (length src))
    then nth (i - Z.to_nat off) src Byte.x00
    else nth i buf Byte.x00.
Proof.
  unfold store.
  destruct (0 <=? off) eqn:H0; [|discriminate].
  destruct (off + Z.of_nat (length src) <=? Z.of_nat (length buf)) eqn:H1;
    [|discriminate].
  intros [= <-]. apply Z.leb_le in H0, H1.
  assert (Hf : length (firstn (Z.to_nat off) buf) = Z.to_nat off)
    by (rewrite length_firstn; lia).
  destruct (off <=? Z.of_nat i) eqn:Hlo; simpl.
  - apply Z.leb_le in Hlo.
    rewrite app_nth2 by lia. rewrite Hf.
    destruct (Z.of_nat i <? off + Z.of_nat (length src)) eqn:Hhi.
    + apply Z.ltb_lt in Hhi. rewrite app_nth1 by lia. reflexivity.
    + apply Z.ltb_ge in Hhi. rewrite app_nth2 by lia.
      rewrite nth_skipn. f_equal. lia.
  - apply Z.leb_gt in Hlo.
    rewrite app_nth1 by lia. rewrite nth_firstn.
    destruct (Nat.ltb_spec i (Z.to_nat off)); [reflexivity | lia].
Qed.

(** The stored bytes are read back by a slice at the same place. *)
Lemma slice_store (buf src b : buffer) (off : Z) :
  store buf off src = Some b -> slice b off (length src) = src.
Proof.
  unfold store, slice.
  destruct (0 <=? off) eqn:H0; [|discriminate].
  destruct (off + Z.of_nat (length src) <=? Z.of_nat (length buf)) eqn:H1;
    [|discriminate].
  intros [= <-]. apply Z.leb_le in H0, H1.
  assert (Hf : length (firstn (Z.to_nat off) buf) = Z.to_nat off)
    by (rewrite length_firstn; lia).
  rewrite skipn_app, Hf, Nat.sub_diag. simpl skipn at 2.
  rewrite skipn_all2 by lia. simpl.
  rewrite firstn_app, Nat.sub_diag, firstn_all. simpl.
  apply app_nil_r.
Qed.

(** ** Bitmap allocator *)

Lemma land_bit_eqb (a k : Z) :
  0 <= k -> (Z.land a (Z.shiftl 1 k) =? 0) = negb (Z.testbit a k).
Proof.
  intros Hk. rewrite Z.shiftl_1_l.
  destruct (Z.testbit a k) eqn:Hb; simpl.
  - apply Z.eqb_neq. intros H0.
    assert (Ht : Z.testbit (Z.land a (2 ^ k)) k = true)
      by (rewrite Z.land_spec, Hb, Z.pow2_bits_true; auto).
    rewrite H0, Z.bits_0 in Ht. discriminate.
  - apply Z.eqb_eq. apply Z.bits_inj'. intros n Hn.
    rewrite Z.land_spec, Z.bits_0, Z.pow2_bits_eqb by assumption.
    destruct (Z.eqb_spec k n) as [->|]; [now rewrite Hb | apply andb_false_r].
Qed.

Lemma bitmap_test_testbit (bmap : buffer) (i : Z) :
  bitmap_test bmap i = Z.testbit (bitmap_byte bmap i) (i mod 8).
Proof.
  unfold bitmap_test. rewrite land_bit_eqb, negb_involutive; [reflexivity|].
  apply Z.mod_pos_bound. lia.
Qed.

Lemma find_free_from_answer (bmap : buffer) (n : nat) :
  forall i, scan_answer bmap i (i + Z.of_nat n) (find_free_from bmap n i).
Proof.
  induction n as [|n IH]; intros i.
  - left. split; [reflexivity|]. intros j Hj. lia.
  - cbn [find_free_from].
    destruct (bitmap_test bmap i) eqn:Hi; simpl.
    + destruct (IH (i + 1)) as [[Hr Hall] | (Hrange & Hclear & Hlow)].
      * left. split; [exact Hr|]. intros j Hj.
        destruct (Z.eq_dec j i) as [->|]; [exact Hi | apply Hall; lia].
      * right. repeat split; try lia; [exact Hclear|]. intros j Hj.
        destruct (Z.eq_dec j i) as [->|]; [exact Hi | apply Hlow; lia].
    + right. repeat split; try lia; [exact Hi|]. intros j Hj. lia.
Qed.

Lemma bitmap_find_free_answer (bmap : buffer) (max : Z) :
  scan_answer bmap 0 max (bitmap_find_free bmap max).
Proof.
  unfold bitmap_find_free.
  destruct (find_free_from_answer bmap (Z.to_nat max) 0)
    as [[Hr Hall] | (Hrange & Hclear & Hlow)].
  - left. split; [exact Hr|]. intros j Hj. apply Hall. lia.
  - right. repeat split; try lia; assumption.
Qed.

(** Marking bit [r] sets that bit and no other. *)
Lemma bitmap_test_set (bmap bmap' : buffer) (r j : Z) :
  0 <= r -> 0 <= j -> bitmap_set bmap r = Some bmap' ->
  bitmap_test bmap' j = (j =? r) || bitmap_test bmap j.
Proof.
  intros Hr Hj Hset. rewrite !bitmap_test_testbit.
  unfold bitmap_set in Hset. unfold bitmap_byte at 1.
  rewrite (nth_store _ _ _ _ _ Hset). cbn [length].
  rewrite Z2Nat.id by (apply Z.div_pos; lia).
  assert (Hm : 0 <= j mod 8 < 8) by (apply Z.mod_pos_bound; lia).
  assert (Hm' : 0 <= r mod 8 < 8) by (apply Z.mod_pos_bound; lia).
  destruct (Z.eq_dec (j / 8) (r / 8)) as [Hq | Hq].
  - replace ((r / 8 <=? j / 8) && (j / 8 <? r / 8 + Z.of_nat 1)) with true
      by (symmetry; apply andb_true_iff; split;
          [apply Z.leb_le | apply Z.ltb_lt]; lia).
    rewrite Hq, Nat.sub_diag. cbn [nth].
    rewrite byte.unsigned_of_Z. unfold byte.wrap.
    rewrite Z.mod_pow2_bits_low by lia.
    rewrite Z.lor_spec, Z.shiftl_1_l, Z.pow2_bits_eqb by lia.
    unfold bitmap_byte. rewrite Hq, orb_comm. f_equal.
    destruct (Z.eqb_spec (r mod 8) (j mod 8)) as [He | He];
      destruct (Z.eqb_spec j r) as [Hjr | Hjr]; try reflexivity.
    + exfalso. apply Hjr.
      rewrite (Z.div_mod j 8), (Z.div_mod r 8) by lia. lia.
    + subst j. congruence.
  - replace ((r / 8 <=? j / 8) && (j / 8 <? r / 8 + Z.of_nat 1)) with false
      by (symmetry; apply andb_false_iff;
          destruct (Z.lt_ge_cases (j / 8) (r / 8));
          [left; apply Z.leb_gt | right; apply Z.ltb_ge]; lia).
    destruct (Z.eqb_spec j r) as [-> | _]; [congruence | reflexivity].
Qed.

Lemma bitmap_set_defined (bmap : buffer) (r max : Z) :
  0 <= r < max -> max <= 8 * Z.of_nat (length bmap) ->
  exists bmap', bitmap_set bmap r = Some bmap'.
Proof.
  intros Hr Hmax. unfold bitmap_set. apply store_defined.
  - apply Z.div_pos; lia.
  - cbn [length]. assert (r / 8 < Z.of_nat (length bmap))
      by (apply Z.div_lt_upper_bound; lia). lia.
Qed.

(** The bit test of the source, [bmap[i/8] & (1 << (i%8))], reads the
    stored bit [i]. *)
Lemma bitmap_test_bit_at (bmap : buffer) (i : Z) :
  bitmap_test bmap i = bit_at bmap i.
Proof. apply bitmap_test_testbit. Qed.

Lemma scan_answer_lowest_free (bmap : buffer) (lo hi r : Z) :
  scan_answer bmap lo hi r -> lowest_free bmap lo hi r.
Proof.
  intros [[Hr Hall] | (Hrange & Hclear & Hlow)]; [left | right].
  - split; [exact Hr|]. intros j Hj.
    rewrite <- bitmap_test_bit_at. now apply Hall.
  - rewrite bitmap_test_bit_at in Hclear.
    repeat split; try lia; [exact Hclear|]. intros j Hj.
    rewrite <- bitmap_test_bit_at. now apply Hlow.
Qed.

(** C9.  For every bitmap and capacity [max] within the bitmap,
    [bitmap_find_free] answers the index of the lowest bit of
    [[0, max)] that is stored as 0 (bit [j mod 8] of byte [j / 8]), or
    [-1] when every bit of the range is 1; and when it answers a bit
    [r], marking [r] sets that stored bit and no other, and scanning
    again answers the lowest bit of the original bitmap above [r] that
    is 0, or [-1] when there is none. *)
Theorem find_free_lowest_then_next (bmap : buffer) (max : Z)
    (Hcap : max <= 8 * Z.of_nat (length bmap)) :
  let r := bitmap_find_free bmap max in
  lowest_free bmap 0 max r /\
  (0 <= r ->
   exists bmap',
     bitmap_set bmap r = Some bmap' /\
     length bmap' = length bmap /\
     (forall j, 0 <= j -> bit_at bmap' j = (j =? r) || bit_at bmap j) /\
     lowest_free bmap (r + 1) max (bitmap_find_free bmap' max)).
Proof.
  intros r. pose proof (bitmap_find_free_answer bmap max) as Hr.
  fold r in Hr. split; [now apply scan_answer_lowest_free|]. intros Hpos.
  destruct Hr as [[Hr _] | (Hrange & Hclear & Hlow)]; [lia|].
  destruct (bitmap_set_defined bmap r max Hrange Hcap) as [bmap' Hset].
  exists bmap'. split; [exact Hset|].
  assert (Hbit : forall j, 0 <= j ->
            bitmap_test bmap' j = (j =? r) || bitmap_test bmap j)
    by (intros j Hj; apply bitmap_test_set; [lia | exact Hj | exact Hset]).
  split; [exact (length_store _ _ _ _ Hset)|].
  split; [intros j Hj; rewrite <- !bitmap_test_bit_at; now apply Hbit|].
  apply scan_answer_lowest_free.
  destruct (bitmap_find_free_answer bmap' max)
    as [[Hr' Hall] | (Hrange' & Hclear' & Hlow')].
  - left. split; [exact Hr'|]. intros j Hj.
    specialize (Hall j ltac:(lia)). rewrite Hbit in Hall by lia.
    destruct (Z.eqb_spec j r); [lia | exact Hall].
  - right. set (r' := bitmap_find_free bmap' max) in *.
    rewrite Hbit in Hclear' by lia.
    apply orb_false_iff in Hclear'. destruct Hclear' as [Hne Hc].
    apply Z.eqb_neq in Hne.
    assert (r < r').
    { destruct (Z.lt_ge_cases r' r) as [Hlt|]; [|lia].
      specialize (Hlow r' ltac:(lia)). congruence. }
    repeat split; try lia; [exact Hc|]. intros j Hj.
    specialize (Hlow' j ltac:(lia)). rewrite Hbit in Hlow' by lia.
    destruct (Z.eqb_spec j r); [lia | exact Hlow'].
Qed.

(** ** The image file *)

Lemma length_bytes_from (f : Z -> byte) (n : nat) :
  forall off, length (bytes_from f off n) = n.
Proof. induction n; intros off; simpl; [reflexivity | now rewrite IHn]. Qed.

Lemma bytes_from_ext (f g : Z -> byte) (n : nat) :
  forall off,
    (forall o, off <= o < off + Z.of_nat n -> f o = g o) ->
    bytes_from f off n = bytes_from g off n.
Proof.
  induction n as [|n IH]; intros off H; [reflexivity|].
  cbn [bytes_from]. f_equal.
  - apply H. lia.
  - apply IH. intros o Ho. apply H. lia.
Qed.

Lemma nth_bytes_from (f : Z -> byte) (n : nat) :
  forall off i, (i < n)%nat ->
    nth i (bytes_from f off n) Byte.x00 = f (off + Z.of_nat i).
Proof.
  induction n as [|n IH]; intros off i Hi; [lia|].
  destruct i as [|i]; cbn [bytes_from nth].
  - f_equal. lia.
  - rewrite IH by lia. f_equal. lia.
Qed.

(** Reading a list back through its own indexing function. *)
Lemma bytes_from_nth (src : buffer) :
  forall off,
    bytes_from (fun o => nth (Z.to_nat (o - off)) src Byte.x00) off (length src)
    = src.
Proof.
  induction src as [|a src IH]; intros off; [reflexivity|].
  cbn [length bytes_from]. f_equal.
  - now rewrite Z.sub_diag.
  - etransitivity; [|apply (IH (off + 1))]. apply bytes_from_ext.
    intros o Ho. replace (Z.to_nat (o - off)) with (S (Z.to_nat (o - (off + 1))))
      by lia. reflexivity.
Qed.

Lemma pread_length (d : disk) (off : Z) (n : nat) (b : buffer) :
  pread d off n = Some b -> length b = n.
Proof.
  destruct n as [|n]; [now intros [= <-]|].
  unfold pread. destruct (off + Z.of_nat (S n) <=? dlen d); [|discriminate].
  intros [= <-]. apply (length_bytes_from (dat d) (S n)).
Qed.

(** A read that returned bytes lies inside the file. *)
Lemma pread_inside (d : disk) (off : Z) (n : nat) (b : buffer) :
  pread d off n = Some b -> n <> O -> off + Z.of_nat n <= dlen d.
Proof.
  destruct n as [|n]; [intros _ H; now contradiction H|].
  unfold pread.
  destruct (off + Z.of_nat (S n) <=? dlen d) eqn:H; [|discriminate].
  intros _ _. now apply Z.leb_le.
Qed.

Lemma pread_defined (d : disk) (off : Z) (n : nat) :
  off + Z.of_nat n <= dlen d -> pread d off n = Some (bytes_from (dat d) off n).
Proof.
  intros H. destruct n as [|n]; [reflexivity|].
  unfold pread. apply Z.leb_le in H. now rewrite H.
Qed.

(** A write of at least one byte extends the file to its end; no write
    shortens the file. *)
Lemma dlen_pwrite (d : disk) (off : Z) (src : buffer) :
  src <> [] ->
  dlen (pwrite d off src) = Z.max (dlen d) (off + Z.of_nat (length src)).
Proof. destruct src; [intros H; now contradiction H | reflexivity]. Qed.

Lemma dlen_pwrite_le (d : disk) (off : Z) (src : buffer) :
  dlen d <= dlen (pwrite d off src).
Proof.
  destruct src as [|c src]; [apply Z.le_refl|].
  rewrite dlen_pwrite by discriminate. lia.
Qed.

(** A write leaves every byte outside its range as it was. *)
Lemma dat_pwrite_outside (d : disk) (off : Z) (src : buffer) (o : Z) :
  o < off \/ off + Z.of_nat (length src) <= o -> o < dlen d ->
  dat (pwrite d off src) o = dat d o.
Proof.
  intros Hout Hin. destruct src as [|c src]; [reflexivity|].
  cbn [pwrite dat].
  replace ((off <=? o) && (o <? off + Z.of_nat (length (c :: src))))
    with false.
  - apply Z.ltb_lt in Hin. now rewrite Hin.
  - symmetry. apply andb_false_iff.
    destruct Hout; [left; apply Z.leb_gt | right; apply Z.ltb_ge]; lia.
Qed.

Lemma dat_pwrite_inside (d : disk) (off : Z) (src : buffer) (o : Z) :
  off <= o < off + Z.of_nat (length src) ->
  dat (pwrite d off src) o = nth (Z.to_nat (o - off)) src Byte.x00.
Proof.
  intros Hin. destruct src as [|c src]; [cbn [length] in Hin; lia|].
  cbn [pwrite dat].
  replace ((off <=? o) && (o <? off + Z.of_nat (length (c :: src))))
    with true; [reflexivity|].
  symmetry. apply andb_true_iff. split; [apply Z.leb_le | apply Z.ltb_lt]; lia.
Qed.

(** What was written is what is read back. *)
Lemma pread_pwrite_same (d : disk) (off : Z) (src : buffer) :
  pread (pwrite d off src) off (length src) = Some src.
Proof.
  destruct src as [|c src]; [reflexivity|].
  rewrite pread_defined by (rewrite dlen_pwrite by discriminate; lia).
  f_equal. etransitivity; [|apply (bytes_from_nth (c :: src) off)].
  apply bytes_from_ext. intros o Ho. now apply dat_pwrite_inside.
Qed.

(** A read that does not meet the written range is not affected. *)
Lemma pread_pwrite_apart (d : disk) (off : Z) (src : buffer)
    (o : Z) (n : nat) (b : buffer) :
  o + Z.of_nat n <= off \/ off + Z.of_nat (length src) <= o ->
  pread d o n = Some b ->
  pread (pwrite d off src) o n = Some b.
Proof.
  intros Hapart Hread.
  destruct n as [|n]; [exact Hread|].
  pose proof (pread_inside _ _ _ _ Hread ltac:(discriminate)) as Hin.
  pose proof (dlen_pwrite_le d off src) as Hle.
  rewrite pread_defined by lia.
  rewrite pread_defined in Hread by exact Hin.
  rewrite <- Hread. f_equal. apply bytes_from_ext.
  intros p Hp. apply dat_pwrite_outside; lia.
Qed.

Arguments pread : simpl never.
Arguments pwrite : simpl never.

(** ** Little-endian fields *)

Lemma slice_app_left (a b : buffer) :
  slice (a ++ b) 0 (length a) = a.
Proof.
  unfold slice. cbn [Z.to_nat skipn].
  rewrite firstn_app, Nat.sub_diag, firstn_all. cbn [firstn]. apply app_nil_r.
Qed.

Lemma slice_app_right (a b : buffer) (off : Z) (n : nat) :
  0 <= off ->
  slice (a ++ b) (Z.of_nat (length a) + off) n = slice b off n.
Proof.
  intros Hoff. unfold slice.
  rewrite skipn_app.
  rewrite skipn_all2 by lia.
  replace (Z.to_nat (Z.of_nat (length a) + off) - length a)%nat
    with (Z.to_nat off) by lia.
  reflexivity.
Qed.

Lemma get32_range (b : buffer) (off : Z) : 0 <= get32 b off < 2 ^ 32.
Proof.
  unfold get32, slice.
  pose proof (le_combine_bound
                (firstn 4 (skipn (Z.to_nat off) b))) as H.
  assert (Hl : (length (firstn 4 (skipn (Z.to_nat off) b)) <= 4)%nat)
    by (rewrite length_firstn; lia).
  assert (2 ^ (8 * Z.of_nat (length (firstn 4 (skipn (Z.to_nat off) b))))
          <= 2 ^ 32)
    by (apply Z.pow_le_mono_r; lia).
  lia.
Qed.

Lemma get16_range (b : buffer) (off : Z) : 0 <= get16 b off < 2 ^ 16.
Proof.
  unfold get16, slice.
  pose proof (le_combine_bound
                (firstn 2 (skipn (Z.to_nat off) b))) as H.
  assert (Hl : (length (firstn 2 (skipn (Z.to_nat off) b)) <= 2)%nat)
    by (rewrite length_firstn; lia).
  assert (2 ^ (8 * Z.of_nat (length (firstn 2 (skipn (Z.to_nat off) b))))
          <= 2 ^ 16)
    by (apply Z.pow_le_mono_r; lia).
  lia.
Qed.

(** ** Journal header *)

Lemma length_encode_journal_header (m u : Z) :
  length (encode_journal_header m u) = 8%nat.
Proof. reflexivity. Qed.

Lemma jh_magic_encode (m u : Z) :
  jh_magic (encode_journal_header m u) = u32 m.
Proof.
  unfold jh_magic, get32, encode_journal_header.
  rewrite (slice_app_left (le_split 4 m) (le_split 4 u)
           : slice (le_split 4 m ++ le_split 4 u) 0 4 = le_split 4 m).
  apply le_combine_split.
Qed.

Lemma nbytes_used_encode (m u : Z) :
  nbytes_used (encode_journal_header m u) = u32 u.
Proof.
  unfold nbytes_used, get32, encode_journal_header.
  rewrite (slice_app_right (le_split 4 m) (le_split 4 u) 0 4 (Z.le_refl 0)
           : slice (le_split 4 m ++ le_split 4 u) 4 4
             = slice (le_split 4 u) 0 4).
  rewrite (eq_trans (f_equal (fun l => slice l 0 4)
                       (eq_sym (app_nil_r (le_split 4 u))))
                    (slice_app_left (le_split 4 u) [])
           : slice (le_split 4 u) 0 4 = le_split 4 u).
  apply le_combine_split.
Qed.

Lemma nbytes_used_range (jh : buffer) : 0 <= nbytes_used jh < 2 ^ 32.
Proof. apply get32_range. Qed.

Lemma jh_magic_range (jh : buffer) : 0 <= jh_magic jh < 2 ^ 32.
Proof. apply get32_range. Qed.

Lemma u32_small (z : Z) : 0 <= z < 2 ^ 32 -> u32 z = z.
Proof. intros H. unfold u32. now apply Z.mod_small. Qed.

Lemma u64_small (z : Z) : 0 <= z < 2 ^ 64 -> u64 z = z.
Proof. intros H. unfold u64. now apply Z.mod_small. Qed.

Lemma block_off_range (blk : Z) : 0 <= block_off blk < 2 ^ 32.
Proof. unfold block_off, u32. apply Z.mod_pos_bound. lia. Qed.

Lemma read_journal_header_eq (sb : superblock) (d : disk) (jh : buffer) :
  pread d (block_off (journal_block sb)) 8 = Some jh ->
  read_journal_header sb d = (d, Ret jh).
Proof.
  intros H. unfold read_journal_header, read_at.
  change (Z.to_nat SIZEOF_JOURNAL_HEADER) with 8%nat. now rewrite H.
Qed.

(** After the header is written, it is the header that is read. *)
Lemma pread_header_written (d : disk) (base m u : Z) :
  pread (pwrite d base (encode_journal_header m u)) base 8
  = Some (encode_journal_header m u).
Proof. apply (pread_pwrite_same d base (encode_journal_header m u)). Qed.

(** The two ways out of [append_to_journal], once the header is read. *)
Lemma append_to_journal_full (sb : superblock) (record jh : buffer) (d : disk) :
  pread d (block_off (journal_block sb)) 8 = Some jh ->
  Z.of_nat (length record) + 2 ^ 32 <= 2 ^ 64 ->
  JOURNAL_CAPACITY < nbytes_used jh + Z.of_nat (length record) ->
  append_to_journal sb record d = (d, Ret (-1)).
Proof.
  intros Hjh Hlen Hfull. unfold append_to_journal, bind.
  rewrite (read_journal_header_eq _ _ _ Hjh).
  pose proof (nbytes_used_range jh) as Hu.
  rewrite u64_small by lia.
  replace (nbytes_used jh + Z.of_nat (length record)
           >? JOURNAL_BLOCKS * BLOCK_SIZE) with true; [reflexivity|].
  symmetry. apply Z.gtb_lt. exact Hfull.
Qed.

Lemma append_to_journal_fits (sb : superblock) (record jh : buffer) (d : disk) :
  pread d (block_off (journal_block sb)) 8 = Some jh ->
  Z.of_nat (length record) + 2 ^ 32 <= 2 ^ 64 ->
  nbytes_used jh + Z.of_nat (length record) <= JOURNAL_CAPACITY ->
  append_to_journal sb record d =
    (pwrite (pwrite d (journal_off sb (nbytes_used jh)) record)
       (block_off (journal_block sb))
       (encode_journal_header (jh_magic jh)
          (nbytes_used jh + Z.of_nat (length record))),
     Ret 0).
Proof.
  intros Hjh Hlen Hfits. unfold append_to_journal, bind.
  rewrite (read_journal_header_eq _ _ _ Hjh).
  pose proof (nbytes_used_range jh) as Hu.
  rewrite u64_small by lia.
  replace (nbytes_used jh + Z.of_nat (length record)
           >? JOURNAL_BLOCKS * BLOCK_SIZE) with false.
  - unfold write_at, ret. rewrite u32_small; [reflexivity|].
    unfold JOURNAL_CAPACITY, JOURNAL_BLOCKS, BLOCK_SIZE in Hfits. lia.
  - symmetry. rewrite Z.gtb_ltb. apply Z.ltb_ge. exact Hfits.
Qed.

(** C7.  One append, on a journal whose header [jh] is readable, whose
    region lies inside the 32-bit offsets and for a record of length
    [len]: when [nbytes_used + len] exceeds the capacity of 16 blocks of
    4096 bytes the append answers [-1] and the image is unchanged;
    otherwise it writes the record at offset [nbytes_used] of the
    journal region, then writes the header with [nbytes_used] increased
    by [len], and the new [nbytes_used] is within the capacity.  The
    record may be empty: the write of no bytes then leaves the file as
    it is, its length included, and the header is rewritten with the
    same [nbytes_used]. *)
Theorem append_to_journal_spec (sb : superblock) (record jh : buffer)
    (d : disk)
    (Hjh : pread d (block_off (journal_block sb)) 8 = Some jh)
    (Hregion : block_off (journal_block sb) + JOURNAL_CAPACITY < 2 ^ 32)
    (Hlen : Z.of_nat (length record) + 2 ^ 32 <= 2 ^ 64) :
  let base := block_off (journal_block sb) in
  let used := nbytes_used jh in
  let len := Z.of_nat (length record) in
  (JOURNAL_CAPACITY < used + len ->
   append_to_journal sb record d = (d, Ret (-1))) /\
  (used + len <= JOURNAL_CAPACITY ->
   let d1 := pwrite d (base + used) record in
   let d2 := pwrite d1 base (encode_journal_header (jh_magic jh) (used + len)) in
   append_to_journal sb record d = (d2, Ret 0) /\
   pread d1 (base + used) (length record) = Some record /\
   exists jh',
     pread d2 base 8 = Some jh' /\
     jh_magic jh' = jh_magic jh /\
     nbytes_used jh' = used + len /\
     nbytes_used jh' <= JOURNAL_CAPACITY).
Proof.
  intros base used len. split.
  - intros Hfull. now apply append_to_journal_full with (jh := jh).
  - intros Hfits d1 d2.
    pose proof (nbytes_used_range jh) as Hu.
    pose proof (jh_magic_range jh) as Hm.
    pose proof (block_off_range (journal_block sb)) as Hb.
    fold base in Hb, Hregion. fold used in Hu.
    assert (Hcap : JOURNAL_CAPACITY = 65536) by reflexivity.
    split; [|split].
    + rewrite (append_to_journal_fits _ _ _ _ Hjh Hlen Hfits).
      unfold journal_off. fold base used len.
      rewrite u32_small by lia. reflexivity.
    + apply pread_pwrite_same.
    + exists (encode_journal_header (jh_magic jh) (used + len)).
      split; [apply pread_header_written|].
      rewrite jh_magic_encode, nbytes_used_encode.
      rewrite !u32_small by lia. repeat split; lia.
Qed.

(** ** Computations that do not write, or write to the journal only *)

Lemma readonly_ret {A} (a : A) : readonly (ret a).
Proof. intros d. reflexivity. Qed.

Lemma readonly_die {A} (msg : string) : readonly (@die A msg).
Proof. intros d. reflexivity. Qed.

Lemma readonly_defined {A} (o : option A) : readonly (defined o).
Proof. intros d. unfold defined. now destruct o. Qed.

Lemma readonly_read_at (off : Z) (n : nat) (msg : string) :
  readonly (read_at off n msg).
Proof. intros d. unfold read_at. now destruct (pread d off n). Qed.

Lemma readonly_read_block (blk : Z) : readonly (read_block blk).
Proof. apply readonly_read_at. Qed.

Lemma readonly_bind {A B} (m : io A) (k : A -> io B) :
  readonly m -> (forall a, readonly (k a)) -> readonly (bind m k).
Proof.
  intros Hm Hk d. unfold bind. specialize (Hm d).
  destruct (m d) as [d1 [a | msg |]]; simpl in *; subst; auto.
  apply Hk.
Qed.

Ltac readonly_steps :=
  repeat first
    [ apply readonly_ret | apply readonly_die | apply readonly_defined
    | apply readonly_read_block | apply readonly_read_at
    | apply readonly_bind; [|intros ?]
    | match goal with
      | |- readonly (if ?c then _ else _) => destruct c
      end ].

Lemma create_build_readonly (sb : superblock) (filename : buffer)
    (now : stamps) :
  readonly (create_build sb filename now).
Proof. unfold create_build. readonly_steps. Qed.

Lemma live_preserved_refl (sb : superblock) (d : disk) : live_preserved sb d d.
Proof. split; [lia | reflexivity]. Qed.

Lemma live_preserved_trans (sb : superblock) (d1 d2 d3 : disk) :
  live_preserved sb d1 d2 -> live_preserved sb d2 d3 ->
  live_preserved sb d1 d3.
Proof.
  intros [L12 H12] [L23 H23]. split; [lia|].
  intros o Ho Hout. rewrite H23 by (auto; lia). now apply H12.
Qed.

Lemma live_preserved_pwrite (sb : superblock) (d : disk) (off : Z)
    (src : buffer) :
  journal_base sb <= off ->
  off + Z.of_nat (length src) <= journal_base sb + JOURNAL_CAPACITY ->
  live_preserved sb d (pwrite d off src).
Proof.
  intros Hlo Hhi. split; [apply dlen_pwrite_le|].
  intros o Ho Hout. apply dat_pwrite_outside; [|exact Ho].
  unfold in_journal in Hout. lia.
Qed.

Lemma journal_only_readonly {A} (sb : superblock) (m : io A) :
  readonly m -> journal_only sb m.
Proof. intros H d. rewrite H. apply live_preserved_refl. Qed.

Lemma journal_only_bind {A B} (sb : superblock) (m : io A) (k : A -> io B) :
  journal_only sb m -> (forall a, journal_only sb (k a)) ->
  journal_only sb (bind m k).
Proof.
  intros Hm Hk d. unfold bind. specialize (Hm d).
  destruct (m d) as [d1 [a | msg |]]; simpl in *; auto.
  eapply live_preserved_trans; [exact Hm | apply Hk].
Qed.

Lemma journal_only_header_write (sb : superblock) (m u : Z) :
  journal_only sb
    (write_at (block_off (journal_block sb)) (encode_journal_header m u)).
Proof.
  intros d. apply live_preserved_pwrite.
  - unfold journal_base. lia.
  - rewrite length_encode_journal_header. unfold journal_base.
    change JOURNAL_CAPACITY with 65536. lia.
Qed.

Lemma journal_only_init (sb : superblock) :
  journal_only sb (init_journal_if_needed sb).
Proof.
  unfold init_journal_if_needed. apply journal_only_bind.
  - apply journal_only_readonly. apply readonly_read_at.
  - intros jh. destruct (negb (jh_magic jh =? JOURNAL_MAGIC)).
    + apply journal_only_header_write.
    + apply journal_only_readonly, readonly_ret.
Qed.

(** An append stays inside the journal region, provided the region
    does not wrap around the 32-bit offsets. *)
Lemma journal_only_append (sb : superblock) (record : buffer) :
  journal_base sb + JOURNAL_CAPACITY < 2 ^ 32 ->
  Z.of_nat (length record) + 2 ^ 32 <= 2 ^ 64 ->
  journal_only sb (append_to_journal sb record).
Proof.
  intros Hregion Hlen d.
  destruct (pread d (block_off (journal_block sb)) 8) as [jh|] eqn:Hjh.
  - destruct (Z.lt_ge_cases JOURNAL_CAPACITY
                (nbytes_used jh + Z.of_nat (length record))) as [Hfull | Hfits].
    + rewrite (append_to_journal_full _ _ _ _ Hjh Hlen Hfull).
      apply live_preserved_refl.
    + rewrite (append_to_journal_fits _ _ _ _ Hjh Hlen Hfits). cbn [fst].
      pose proof (nbytes_used_range jh) as Hu.
      pose proof (block_off_range (journal_block sb)) as Hb.
      unfold journal_base in Hregion.
      change JOURNAL_CAPACITY with 65536 in *.
      apply live_preserved_trans
        with (d2 := pwrite d (journal_off sb (nbytes_used jh)) record).
      * apply live_preserved_pwrite;
          unfold journal_off, journal_base;
          change JOURNAL_CAPACITY with 65536; rewrite u32_small; lia.
      * apply (journal_only_header_write sb).
  - unfold append_to_journal, bind, read_journal_header, read_at.
    change (Z.to_nat SIZEOF_JOURNAL_HEADER) with 8%nat. rewrite Hjh.
    apply live_preserved_refl.
Qed.

(** ** Stepping through a computation that returned *)

Lemma snd_bind_readonly {A B} (m : io A) (k : A -> io B) (d : disk) (b : B) :
  readonly m -> snd (bind m k d) = Ret b ->
  exists a, snd (m d) = Ret a /\ snd (k a d) = Ret b.
Proof.
  intros Hm H. unfold bind in H. specialize (Hm d).
  destruct (m d) as [d1 [a | msg |]]; simpl in *; try discriminate.
  subst d1. eauto.
Qed.

Lemma snd_read_at_ret (off : Z) (n : nat) (msg : string) (d : disk)
    (b : buffer) :
  snd (read_at off n msg d) = Ret b <-> pread d off n = Some b.
Proof.
  unfold read_at. destruct (pread d off n); simpl; split; congruence.
Qed.

Lemma snd_defined_ret {A} (o : option A) (d : disk) (a : A) :
  snd (defined o d) = Ret a <-> o = Some a.
Proof. unfold defined. destruct o; simpl; split; congruence. Qed.

Lemma snd_bind_read_block {B} (blk : Z) (k : buffer -> io B) (d : disk)
    (b : B) :
  snd (bind (read_block blk) k d) = Ret b ->
  exists buf, pread d (block_off blk) 4096 = Some buf /\ snd (k buf d) = Ret b.
Proof.
  intros H. apply snd_bind_readonly in H; [|apply readonly_read_block].
  destruct H as (buf & Hr & Hk). exists buf. split; [|exact Hk].
  now apply snd_read_at_ret in Hr.
Qed.

Lemma snd_bind_defined {A B} (o : option A) (k : A -> io B) (d : disk)
    (b : B) :
  snd (bind (defined o) k d) = Ret b ->
  exists a, o = Some a /\ snd (k a d) = Ret b.
Proof.
  intros H. apply snd_bind_readonly in H; [|apply readonly_defined].
  destruct H as (a & Hr & Hk). exists a. split; [|exact Hk].
  now apply snd_defined_ret in Hr.
Qed.

(** Everything [create_build] did when it returned the images [im]. *)
Lemma create_build_inv (sb : superblock) (filename : buffer) (now : stamps)
    (d : disk) (im : create_images) :
  snd (create_build sb filename now d) = Ret im ->
  exists inode_bmap data_bmap inode_block_buf dir_block inode_block
         dir1 dir2 root1,
    let new_ino := bitmap_find_free inode_bmap 64 in
    let root_size := get32 inode_block_buf INODE_SIZE_OFF in
    let de := root_size / SIZEOF_DIRENT * SIZEOF_DIRENT in
    pread d (block_off (inode_bitmap sb)) 4096 = Some inode_bmap /\
    pread d (block_off (data_bitmap sb)) 4096 = Some data_bmap /\
    0 <= new_ino /\
    bitmap_set inode_bmap new_ino = Some (new_inode_bmap im) /\
    pread d (block_off (inode_start sb)) 4096 = Some inode_block_buf /\
    root_direct0 im = get32 inode_block_buf INODE_DIRECT_OFF /\
    pread d (block_off (root_direct0 im)) 4096 = Some dir_block /\
    inode_block_num im = u32 (inode_start sb + new_ino / 32) /\
    pread d (block_off (inode_block_num im)) 4096 = Some inode_block /\
    store inode_block (u32 (new_ino mod 32 * INODE_SIZE))
      (encode_new_inode (ctime_now now) (mtime_now now))
      = Some (new_inode_block im) /\
    store dir_block de (le_split 4 new_ino) = Some dir1 /\
    store dir1 (de + 4) (strncpy filename 27) = Some dir2 /\
    store dir2 (de + 4 + 27) [Byte.x00] = Some (new_dir_block im) /\
    store inode_block_buf INODE_SIZE_OFF
      (le_split 4 (root_size + SIZEOF_DIRENT)) = Some root1 /\
    store root1 INODE_MTIME_OFF (le_split 4 (root_mtime_now now))
      = Some (new_root_inode_block im).
Proof.
  intros H. unfold create_build in H.
  apply snd_bind_read_block in H. destruct H as (inode_bmap & R1 & H).
  apply snd_bind_read_block in H. destruct H as (data_bmap & R2 & H).
  cbv zeta in H.
  destruct (bitmap_find_free inode_bmap 64 <? 0) eqn:Hino;
    [discriminate H|]. apply Z.ltb_ge in Hino.
  apply snd_bind_defined in H. destruct H as (nbm & S1 & H).
  apply snd_bind_read_block in H. destruct H as (inode_block_buf & R3 & H).
  apply snd_bind_read_block in H. destruct H as (dir_block & R4 & H).
  apply snd_bind_read_block in H. destruct H as (inode_block & R5 & H).
  apply snd_bind_defined in H. destruct H as (nib & S2 & H).
  apply snd_bind_defined in H. destruct H as (dir1 & S3 & H).
  apply snd_bind_defined in H. destruct H as (dir2 & S4 & H).
  apply snd_bind_defined in H. destruct H as (ndb & S5 & H).
  apply snd_bind_defined in H. destruct H as (root1 & S6 & H).
  apply snd_bind_defined in H. destruct H as (nrb & S7 & H).
  cbn [ret snd] in H. injection H as <-. cbn [new_inode_bmap inode_block_num
    new_inode_block root_direct0 new_dir_block new_root_inode_block].
  exists inode_bmap, data_bmap, inode_block_buf, dir_block, inode_block,
    dir1, dir2, root1.
  cbv zeta. repeat split; assumption.
Qed.

Lemma length_encode_data_record (blk : Z) (data : buffer) :
  length (encode_data_record blk data) = (8 + length data)%nat.
Proof.
  unfold encode_data_record. rewrite !length_app, !length_le_split. lia.
Qed.

Lemma length_encode_commit_record : length encode_commit_record = 4%nat.
Proof. reflexivity. Qed.

(** The four images are whole blocks. *)
Lemma create_build_lengths (sb : superblock) (filename : buffer)
    (now : stamps) (d : disk) (im : create_images) :
  snd (create_build sb filename now d) = Ret im ->
  length (new_inode_bmap im) = 4096%nat /\
  length (new_inode_block im) = 4096%nat /\
  length (new_dir_block im) = 4096%nat /\
  length (new_root_inode_block im) = 4096%nat.
Proof.
  intros H. apply create_build_inv in H.
  destruct H as (inode_bmap & data_bmap & inode_block_buf & dir_block
                 & inode_block & dir1 & dir2 & root1 & H).
  cbv zeta in H.
  destruct H as (R1 & R2 & Hino & S1 & R3 & Hd0 & R4 & Hnum & R5 & S2
                 & S3 & S4 & S5 & S6 & S7).
  apply pread_length in R1, R3, R4, R5.
  apply length_store in S1, S2, S3, S4, S5, S6, S7.
  repeat split; congruence.
Qed.

(** ** Create *)

Lemma journal_only_create_log (sb : superblock) (im : create_images) :
  journal_base sb + JOURNAL_CAPACITY < 2 ^ 32 ->
  length (new_inode_bmap im) = 4096%nat ->
  length (new_inode_block im) = 4096%nat ->
  length (new_dir_block im) = 4096%nat ->
  length (new_root_inode_block im) = 4096%nat ->
  journal_only sb (create_log sb im).
Proof.
  intros Hregion L1 L2 L3 L4. unfold create_log.
  repeat (apply journal_only_bind;
          [ apply journal_only_append; [exact Hregion|];
            rewrite ?length_encode_data_record, ?L1, ?L2, ?L3, ?L4,
              ?length_encode_commit_record; lia
          | intros ?r; cbv beta;
            match goal with
            | |- journal_only _ (if ?c then _ else _) =>
                destruct c; [apply journal_only_readonly, readonly_ret|]
            end ]).
  apply journal_only_readonly, readonly_ret.
Qed.

Lemma journal_only_cmd_create (sb : superblock) (filename : buffer)
    (now : stamps) :
  journal_base sb + JOURNAL_CAPACITY < 2 ^ 32 ->
  journal_only sb (cmd_create sb filename now).
Proof.
  intros Hregion d. unfold cmd_create, bind.
  pose proof (journal_only_init sb d) as Hinit.
  destruct (init_journal_if_needed sb d) as [d1 [[] | msg |]];
    cbn [fst] in *; try exact Hinit.
  pose proof (create_build_readonly sb filename now d1) as Hro.
  pose proof (create_build_lengths sb filename now d1) as Hlen.
  destruct (create_build sb filename now d1) as [d2 [im | msg |]];
    cbn [fst snd] in *; subst d2; try exact Hinit.
  destruct (Hlen im eq_refl) as (L1 & L2 & L3 & L4).
  eapply live_preserved_trans; [exact Hinit|].
  now apply journal_only_create_log.
Qed.

(** A read outside the journal region sees the same bytes afterwards. *)
Lemma live_preserved_pread (sb : superblock) (d d' : disk) (off : Z)
    (n : nat) (b : buffer) :
  live_preserved sb d d' ->
  off + Z.of_nat n <= journal_base sb
  \/ journal_base sb + JOURNAL_CAPACITY <= off ->
  pread d off n = Some b -> pread d' off n = Some b.
Proof.
  intros [Hlen Hdat] Hapart Hread.
  destruct n as [|n]; [exact Hread|].
  pose proof (pread_inside _ _ _ _ Hread ltac:(discriminate)) as Hin.
  rewrite pread_defined by lia.
  rewrite pread_defined in Hread by exact Hin.
  rewrite <- Hread. f_equal. apply bytes_from_ext.
  intros o Ho. apply Hdat; [lia|]. unfold in_journal. lia.
Qed.

(** C5.  On an image whose journal region lies inside the 32-bit
    offsets, [cmd_create], whether it reports success, returns early on
    a full journal or dies, leaves every byte outside the journal
    region as it was; in particular every readable block that does not
    meet the journal region (inode bitmap, data bitmap, inode table,
    root directory block) reads the same before and after. *)
Theorem create_preserves_live_region (sb : superblock) (filename : buffer)
    (now : stamps) (d : disk)
    (Hregion : journal_base sb + JOURNAL_CAPACITY < 2 ^ 32)
    (Hdefined : snd (cmd_create sb filename now d) <> Undef) :
  let d' := fst (cmd_create sb filename now d) in
  (forall o, o < dlen d -> ~ in_journal sb o -> dat d' o = dat d o) /\
  (forall blk b,
      block_off blk + BLOCK_SIZE <= journal_base sb
      \/ journal_base sb + JOURNAL_CAPACITY <= block_off blk ->
      pread d (block_off blk) 4096 = Some b ->
      pread d' (block_off blk) 4096 = Some b).
Proof.
  intros d'. pose proof (journal_only_cmd_create sb filename now Hregion d)
    as Hlive. fold d' in Hlive. split.
  - apply Hlive.
  - intros blk b Hapart Hread.
    eapply live_preserved_pread; eauto.
Qed.

Lemma bind_eq {A B} (m : io A) (k : A -> io B) (d d1 : disk) (a : A) :
  m d = (d1, Ret a) -> bind m k d = k a d1.
Proof. intros H. unfold bind. now rewrite H. Qed.

Lemma append_full_header (sb : superblock) (record : buffer) (d : disk)
    (m u : Z) :
  header_is sb d m u ->
  Z.of_nat (length record) + 2 ^ 32 <= 2 ^ 64 ->
  JOURNAL_CAPACITY < u + Z.of_nat (length record) ->
  append_to_journal sb record d = (d, Ret (-1)).
Proof.
  intros (jh & Hjh & _ & <-) Hlen Hfull.
  now apply append_to_journal_full with (jh := jh).
Qed.

Lemma append_fits_header (sb : superblock) (record : buffer) (d : disk)
    (m u : Z) :
  header_is sb d m u ->
  Z.of_nat (length record) + 2 ^ 32 <= 2 ^ 64 ->
  u + Z.of_nat (length record) <= JOURNAL_CAPACITY ->
  exists d',
    append_to_journal sb record d = (d', Ret 0) /\
    header_is sb d' m (u + Z.of_nat (length record)).
Proof.
  intros (jh & Hjh & <- & <-) Hlen Hfits.
  eexists. split.
  - now apply append_to_journal_fits with (jh := jh).
  - exists (encode_journal_header (jh_magic jh)
              (nbytes_used jh + Z.of_nat (length record))).
    split; [apply pread_header_written|].
    rewrite jh_magic_encode, nbytes_used_encode.
    pose proof (jh_magic_range jh). pose proof (nbytes_used_range jh).
    change JOURNAL_CAPACITY with 65536 in Hfits.
    rewrite !u32_small by lia. split; reflexivity.
Qed.

Section CreateLog.
Variables (sb : superblock) (im : create_images).
Hypothesis L1 : length (new_inode_bmap im) = 4096%nat.
Hypothesis L2 : length (new_inode_block im) = 4096%nat.
Hypothesis L3 : length (new_dir_block im) = 4096%nat.
Hypothesis L4 : length (new_root_inode_block im) = 4096%nat.

Let rec1 := encode_data_record (inode_bitmap sb) (new_inode_bmap im).
Let rec2 := encode_data_record (inode_block_num im) (new_inode_block im).
Let rec3 := encode_data_record (root_direct0 im) (new_dir_block im).
Let rec4 := encode_data_record (inode_start sb) (new_root_inode_block im).

Lemma create_records_length :
  Z.of_nat (length rec1) = 4104 /\ Z.of_nat (length rec2) = 4104 /\
  Z.of_nat (length rec3) = 4104 /\ Z.of_nat (length rec4) = 4104 /\
  Z.of_nat (length encode_commit_record) = 4.
Proof.
  unfold rec1, rec2, rec3, rec4.
  rewrite !length_encode_data_record, L1, L2, L3, L4. repeat split.
Qed.

(** One append of [create_log], by the room that is left. *)
Lemma create_log_step (record : buffer) (len : Z)
    (k : Z -> io create_report) (d : disk) (m u : Z) :
  Z.of_nat (length record) = len -> 0 <= len <= 4104 ->
  header_is sb d m u ->
  (JOURNAL_CAPACITY < u + len /\
   bind (append_to_journal sb record) k d = k (-1) d)
  \/ (u + len <= JOURNAL_CAPACITY /\
      exists d', header_is sb d' m (u + len) /\
                 bind (append_to_journal sb record) k d = k 0 d').
Proof.
  intros Hrec Hlen Hh.
  destruct (Z.lt_ge_cases JOURNAL_CAPACITY (u + len)) as [Hfull | Hfits].
  - left. split; [exact Hfull|]. apply bind_eq.
    apply append_full_header with (m := m) (u := u); [exact Hh | lia | lia].
  - right. split; [exact Hfits|].
    destruct (append_fits_header sb record d m u Hh) as (d' & Ha & Hh');
      [lia | lia |].
    exists d'. rewrite Hrec in Hh'. split; [exact Hh'|].
    apply bind_eq. exact Ha.
Qed.

Ltac log_step record len E Hh :=
  match goal with
  | |- context [bind (append_to_journal _ record) ?k ?d] =>
      pose proof (create_log_step record len k d _ _ E ltac:(lia) Hh)
        as Hstep
  end.

(** A journal with room for the whole transaction takes it. *)
Lemma create_log_fits (d : disk) (m u : Z) :
  header_is sb d m u -> u + TRANSACTION_SIZE <= JOURNAL_CAPACITY ->
  exists d', create_log sb im d = (d', Ret Created) /\
             header_is sb d' m (u + TRANSACTION_SIZE).
Proof.
  intros Hh Hroom. change TRANSACTION_SIZE with 16420 in *.
  destruct create_records_length as (E1 & E2 & E3 & E4 & E5).
  unfold create_log. fold rec1 rec2 rec3 rec4.
  log_step rec1 4104 E1 Hh;
    destruct Hstep
    as [[Hf _] | (_ & d1 & Hh1 & ->)]; [lia|]. cbv beta iota.
  change (0 <? 0) with false. cbv iota.
  log_step rec2 4104 E2 Hh1;
    destruct Hstep
    as [[Hf _] | (_ & d2 & Hh2 & ->)]; [lia|].
  change (0 <? 0) with false. cbv iota.
  log_step rec3 4104 E3 Hh2;
    destruct Hstep
    as [[Hf _] | (_ & d3 & Hh3 & ->)]; [lia|].
  change (0 <? 0) with false. cbv iota.
  log_step rec4 4104 E4 Hh3;
    destruct Hstep
    as [[Hf _] | (_ & d4 & Hh4 & ->)]; [lia|].
  change (0 <? 0) with false. cbv iota.
  log_step encode_commit_record 4 E5 Hh4;
    destruct Hstep
    as [[Hf _] | (_ & d5 & Hh5 & ->)]; [lia|].
  change (0 <? 0) with false. cbv iota.
  exists d5. split; [reflexivity|].
  replace (u + 16420) with (u + 4104 + 4104 + 4104 + 4104 + 4) by lia.
  exact Hh5.
Qed.

(** A journal without room for the whole transaction takes the data
    records that fit, one after the other, and stops at the first
    record that does not. *)
Lemma create_log_full (d : disk) (m u : Z) :
  header_is sb d m u ->
  u <= JOURNAL_CAPACITY -> JOURNAL_CAPACITY < u + TRANSACTION_SIZE ->
  exists d', create_log sb im d = (d', Ret JournalFull) /\
             header_is sb d' m
               (u + SIZEOF_DATA_RECORD
                    * ((JOURNAL_CAPACITY - u) / SIZEOF_DATA_RECORD)).
Proof.
  intros Hh Hle Hroom. change TRANSACTION_SIZE with 16420 in *.
  change SIZEOF_DATA_RECORD with 4104.
  change JOURNAL_CAPACITY with 65536 in Hle, Hroom |- *.
  destruct create_records_length as (E1 & E2 & E3 & E4 & E5).
  unfold create_log. fold rec1 rec2 rec3 rec4.
  log_step rec1 4104 E1 Hh;
    destruct Hstep
    as [[Hf ->] | (Hf1 & d1 & Hh1 & ->)]; cbv beta.
  { exists d. split; [reflexivity|].
    change JOURNAL_CAPACITY with 65536 in Hf.
    replace ((65536 - u) / 4104) with 0
      by (Z.to_euclidean_division_equations; lia).
    now replace (u + 4104 * 0) with u by lia. }
  change (0 <? 0) with false. cbv iota.
  log_step rec2 4104 E2 Hh1;
    destruct Hstep
    as [[Hf ->] | (Hf2 & d2 & Hh2 & ->)]; cbv beta.
  { exists d1. split; [reflexivity|].
    change JOURNAL_CAPACITY with 65536 in Hf, Hf1.
    replace ((65536 - u) / 4104) with 1
      by (Z.to_euclidean_division_equations; lia).
    now replace (u + 4104 * 1) with (u + 4104) by lia. }
  change (0 <? 0) with false. cbv iota.
  log_step rec3 4104 E3 Hh2;
    destruct Hstep
    as [[Hf ->] | (Hf3 & d3 & Hh3 & ->)]; cbv beta.
  { exists d2. split; [reflexivity|].
    change JOURNAL_CAPACITY with 65536 in Hf, Hf2.
    replace ((65536 - u) / 4104) with 2
      by (Z.to_euclidean_division_equations; lia).
    now replace (u + 4104 * 2) with (u + 4104 + 4104) by lia. }
  change (0 <? 0) with false. cbv iota.
  log_step rec4 4104 E4 Hh3;
    destruct Hstep
    as [[Hf ->] | (Hf4 & d4 & Hh4 & ->)]; cbv beta.
  { exists d3. split; [reflexivity|].
    change JOURNAL_CAPACITY with 65536 in Hf, Hf3.
    replace ((65536 - u) / 4104) with 3
      by (Z.to_euclidean_division_equations; lia).
    now replace (u + 4104 * 3) with (u + 4104 + 4104 + 4104) by lia. }
  change (0 <? 0) with false. cbv iota.
  log_step encode_commit_record 4 E5 Hh4;
    destruct Hstep
    as [[Hf ->] | (Hf5 & _)]; cbv beta.
  { exists d4. split; [reflexivity|].
    change JOURNAL_CAPACITY with 65536 in Hf, Hf4.
    replace ((65536 - u) / 4104) with 4
      by (Z.to_euclidean_division_equations; lia).
    now replace (u + 4104 * 4) with (u + 4104 + 4104 + 4104 + 4104) by lia. }
  change JOURNAL_CAPACITY with 65536 in Hf5. lia.
Qed.
End CreateLog.

Lemma init_journal_initialized (sb : superblock) (d : disk) (u : Z) :
  header_is sb d JOURNAL_MAGIC u ->
  init_journal_if_needed sb d = (d, Ret tt).
Proof.
  intros (jh & Hjh & Hm & _). unfold init_journal_if_needed.
  rewrite (bind_eq _ _ _ _ _ (read_journal_header_eq sb d jh Hjh)).
  rewrite Hm, Z.eqb_refl. reflexivity.
Qed.

Lemma create_build_eq (sb : superblock) (filename : buffer) (now : stamps)
    (d : disk) (im : create_images) :
  snd (create_build sb filename now d) = Ret im ->
  create_build sb filename now d = (d, Ret im).
Proof.
  intros H. rewrite (surjective_pairing (create_build sb filename now d)).
  now rewrite H, create_build_readonly.
Qed.

(** With room for the whole transaction, [cmd_create] appends it. *)
Lemma create_on_roomy_journal (sb : superblock) (filename : buffer)
    (now : stamps) (d : disk) (im : create_images) (u : Z) :
  header_is sb d JOURNAL_MAGIC u ->
  snd (create_build sb filename now d) = Ret im ->
  u + TRANSACTION_SIZE <= JOURNAL_CAPACITY ->
  snd (cmd_create sb filename now d) = Ret Created /\
  header_is sb (fst (cmd_create sb filename now d)) JOURNAL_MAGIC
    (u + TRANSACTION_SIZE).
Proof.
  intros Hheader Hbuild Hroom.
  destruct (create_build_lengths _ _ _ _ _ Hbuild) as (L1 & L2 & L3 & L4).
  destruct (create_log_fits sb im L1 L2 L3 L4 d JOURNAL_MAGIC u
              Hheader Hroom) as (d' & Hlog & Hh').
  unfold cmd_create.
  rewrite (bind_eq _ _ _ _ _ (init_journal_initialized sb d u Hheader)).
  rewrite (bind_eq _ _ _ _ _ (create_build_eq _ _ _ _ _ Hbuild)).
  rewrite Hlog. split; [reflexivity | exact Hh'].
Qed.

(** ** Install *)

(** A turn of the loop that starts with the flag clear writes nothing
    and hands a clear flag to the next turn. *)
Lemma install_step_idle (sb : superblock) (pos : Z) (d : disk) :
  fst (install_step sb pos false d) = d /\
  snd (install_step sb pos false d) <> Undef /\
  forall pos' flag',
    snd (install_step sb pos false d) = Ret (Continue pos' flag') ->
    flag' = false.
Proof.
  unfold install_step, bind, read_at.
  destruct (pread d (journal_off sb pos) (Z.to_nat SIZEOF_REC_HEADER))
    as [rh|]; cbn [fst snd]; [|repeat split; congruence].
  destruct (get16 rh 0 =? REC_DATA).
  - destruct (pread d (journal_off sb pos) (Z.to_nat SIZEOF_DATA_RECORD))
      as [dr|]; cbn [fst snd ret]; repeat split; congruence.
  - destruct (get16 rh 0 =? REC_COMMIT).
    + destruct (pread d (journal_off sb pos) (Z.to_nat SIZEOF_COMMIT_RECORD))
        as [cr|]; cbn [fst snd ret]; repeat split; congruence.
    + cbn [fst snd ret]. repeat split; congruence.
Qed.

Lemma install_loop_idle (sb : superblock) (used : Z) (fuel : nat) :
  forall pos d d' r,
    install_loop fuel sb used pos false d = Some (d', r) ->
    d' = d /\ r <> Undef.
Proof.
  induction fuel as [|fuel IH]; intros pos d d' r H; [discriminate|].
  cbn [install_loop] in H.
  destruct (pos <? used); [|injection H as <- <-; split; congruence].
  destruct (install_step_idle sb pos d) as (Hd & Hu & Hf).
  destruct (install_step sb pos false d) as [d1 [[pos' flag' | t] | msg |]];
    cbn [fst snd] in *; subst d1.
  - rewrite (Hf pos' flag' eq_refl) in H. now apply IH in H.
  - injection H as <- <-. split; congruence.
  - injection H as <- <-. split; congruence.
  - congruence.
Qed.

(** The loop, after the [n] turns that [scan_steps] takes, goes on
    from the state that [scan_steps] gives. *)
Lemma install_loop_scan (sb : superblock) (used : Z) (n : nat) :
  forall pos flag d p flag' d' k,
    scan_steps n sb used pos flag d = Some (p, flag', d') ->
    install_loop (n + k) sb used pos flag d
    = install_loop k sb used p flag' d'.
Proof.
  induction n as [|n IH]; intros pos flag d p flag' d' k H.
  - injection H as <- <- <-. reflexivity.
  - cbn [scan_steps] in H. cbn [Nat.add install_loop].
    destruct (pos <? used); [|discriminate].
    destruct (install_step sb pos flag d) as [d1 [[pos1 flag1 | t] | msg |]];
      try discriminate.
    now apply IH.
Qed.

(** A scan that starts with the flag clear keeps it clear and keeps
    the image. *)
Lemma scan_steps_clear (sb : superblock) (used : Z) (d : disk) (n : nat) :
  forall pos p,
    scan_to n sb used pos d = Some p ->
    scan_steps n sb used pos false d = Some (p, false, d).
Proof.
  induction n as [|n IH]; intros pos p H.
  - injection H as <-. reflexivity.
  - cbn [scan_to] in H. cbn [scan_steps].
    destruct (pos <? used); [|discriminate].
    destruct (install_step_idle sb pos d) as (Hd & _ & Hf).
    destruct (install_step sb pos false d) as [d1 [[pos' flag' | t] | msg |]];
      cbn [fst snd] in *; try discriminate.
    subst d1. rewrite (Hf pos' flag' eq_refl). now apply IH.
Qed.

Lemma install_loop_break (sb : superblock) (used pos : Z) (flag : bool)
    (d : disk) (rh : buffer) (k : nat) :
  pos < used ->
  pread d (journal_off sb pos) 4 = Some rh ->
  get16 rh 0 <> REC_DATA -> get16 rh 0 <> REC_COMMIT ->
  install_loop (S k) sb used pos flag d = Some (d, Ret (Some (get16 rh 0))).
Proof.
  intros Hpos Hrh Hdata Hcommit. cbn [install_loop].
  apply Z.ltb_lt in Hpos. rewrite Hpos.
  unfold install_step, bind, read_at.
  change (Z.to_nat SIZEOF_REC_HEADER) with 4%nat. rewrite Hrh.
  apply Z.eqb_neq in Hdata, Hcommit. rewrite Hdata, Hcommit. reflexivity.
Qed.

(** More fuel does not change the result of a loop that completed. *)
Lemma install_loop_more_fuel (sb : superblock) (used : Z) (fuel : nat) :
  forall pos flag d x k,
    install_loop fuel sb used pos flag d = Some x ->
    install_loop (fuel + k) sb used pos flag d = Some x.
Proof.
  induction fuel as [|fuel IH]; intros pos flag d x k H; [discriminate|].
  cbn [Nat.add install_loop] in *.
  destruct (pos <? used); [|exact H].
  destruct (install_step sb pos flag d) as [d1 [[pos1 flag1 | t] | msg |]];
    try exact H.
  now apply IH.
Qed.

Lemma cmd_install_more_fuel (fuel k : nat) (sb : superblock) (d : disk)
    (x : disk * outcome install_report) :
  cmd_install fuel sb d = Some x -> cmd_install (fuel + k) sb d = Some x.
Proof.
  unfold cmd_install.
  destruct (read_journal_header sb d) as [d1 [jh | msg |]]; try (intros H; exact H).
  destruct (negb (jh_magic jh =? JOURNAL_MAGIC)); [intros H; exact H|].
  destruct (nbytes_used jh =? SIZEOF_JOURNAL_HEADER); [intros H; exact H|].
  destruct (install_loop fuel sb (nbytes_used jh) SIZEOF_JOURNAL_HEADER
              false d1) as [y|] eqn:Hloop; [|discriminate].
  rewrite (install_loop_more_fuel sb _ fuel _ _ _ y k Hloop).
  intros H; exact H.
Qed.

(** A commit record of size zero keeps the loop at its offset: no
    amount of fuel completes the scan. *)
Lemma install_loop_spins (sb : superblock) (used pos : Z) (d : disk)
    (rh : buffer) :
  0 <= pos < 2 ^ 32 -> pos < used ->
  pread d (journal_off sb pos) 4 = Some rh ->
  get16 rh 0 = REC_COMMIT -> get16 rh 2 = 0 ->
  forall fuel flag, install_loop fuel sb used pos flag d = None.
Proof.
  intros Hrange Hpos Hrh Htype Hsize fuel.
  induction fuel as [|fuel IH]; intros flag; [reflexivity|].
  cbn [install_loop]. apply Z.ltb_lt in Hpos. rewrite Hpos.
  unfold install_step, bind, read_at.
  change (Z.to_nat SIZEOF_REC_HEADER) with 4%nat.
  change (Z.to_nat SIZEOF_COMMIT_RECORD) with 4%nat.
  rewrite Hrh, Htype, Hsize. cbn [Z.eqb REC_COMMIT REC_DATA Pos.eqb].
  rewrite Hrh. cbn [ret]. rewrite Z.add_0_r, u32_small by exact Hrange.
  apply IH.
Qed.

Lemma header_is_empty_written (sb : superblock) (d : disk) :
  header_is sb (pwrite d (journal_base sb) empty_journal_header)
    JOURNAL_MAGIC SIZEOF_JOURNAL_HEADER.
Proof.
  exists empty_journal_header. split; [apply pread_header_written|].
  split; reflexivity.
Qed.

(** Rewriting the header changes the eight bytes of the header only. *)
Lemma header_write_frame (sb : superblock) (d : disk) (m u : Z) (jh : buffer) :
  pread d (journal_base sb) 8 = Some jh ->
  let d' := pwrite d (journal_base sb) (encode_journal_header m u) in
  dlen d' = dlen d /\
  forall o, o < dlen d -> ~ journal_base sb <= o < journal_base sb + 8 ->
            dat d' o = dat d o.
Proof.
  intros Hjh d'. apply pread_inside in Hjh; [|discriminate]. split.
  - unfold d'. rewrite dlen_pwrite by discriminate.
    rewrite length_encode_journal_header. lia.
  - intros o Hlt Ho. unfold d'. apply dat_pwrite_outside; [|exact Hlt].
    rewrite length_encode_journal_header. lia.
Qed.

(** C2.  Whenever [cmd_install] completes: no turn of its loop that
    starts with the flag clear writes or hands on a set flag, so the
    guarded [write_block] never runs; the run is free of undefined
    behaviour; after "Applied journaled changes" the image is the
    initial one with the journal header rewritten to
    [nbytes_used = 8]; on the other ways out the image is untouched;
    in every case the file keeps its length and every byte outside the
    eight bytes of the journal header keeps its value. *)
Theorem install_rewrites_header_only (fuel : nat) (sb : superblock)
    (d d' : disk) (r : outcome install_report)
    (Hrun : cmd_install fuel sb d = Some (d', r)) :
  (forall pos e,
      fst (install_step sb pos false e) = e /\
      forall pos' flag',
        snd (install_step sb pos false e) = Ret (Continue pos' flag') ->
        flag' = false) /\
  r <> Undef /\
  (forall stop, r = Ret (Applied stop) ->
     d' = pwrite d (journal_base sb) empty_journal_header /\
     header_is sb d' JOURNAL_MAGIC SIZEOF_JOURNAL_HEADER) /\
  (r = Ret JournalEmpty \/ (exists msg, r = Exit msg) -> d' = d) /\
  dlen d' = dlen d /\
  (forall o, o < dlen d ->
             ~ journal_base sb <= o < journal_base sb + 8 ->
             dat d' o = dat d o).
Proof.
  split.
  { intros pos e. destruct (install_step_idle sb pos e) as (H1 & _ & H3).
    split; assumption. }
  unfold cmd_install, read_journal_header, read_at in Hrun.
  change (Z.to_nat SIZEOF_JOURNAL_HEADER) with 8%nat in Hrun.
  fold (journal_base sb) in Hrun.
  destruct (pread d (journal_base sb) 8) as [jh|] eqn:Hjh.
  2: { injection Hrun as <- <-.
       repeat split; try congruence; intros [? | [? ?]]; congruence. }
  destruct (jh_magic jh =? JOURNAL_MAGIC) eqn:Hmagic; cbn [negb] in Hrun.
  2: { injection Hrun as <- <-.
       repeat split; try congruence; intros [? | [? ?]]; congruence. }
  apply Z.eqb_eq in Hmagic.
  destruct (nbytes_used jh =? SIZEOF_JOURNAL_HEADER).
  { injection Hrun as <- <-.
    repeat split; try congruence; try (intros [? | [? ?]]; congruence). }
  destruct (install_loop fuel sb (nbytes_used jh) SIZEOF_JOURNAL_HEADER
              false d) as [[d2 r2]|] eqn:Hloop; [|discriminate].
  apply install_loop_idle in Hloop. destruct Hloop as [-> Hdef].
  destruct r2 as [stop | msg |]; [| |congruence].
  - cbn [bind write_at ret] in Hrun. injection Hrun as <- <-.
    rewrite Hmagic. fold empty_journal_header.
    destruct (header_write_frame sb d JOURNAL_MAGIC SIZEOF_JOURNAL_HEADER
                jh Hjh) as [Hlen Hdat].
    repeat split; try congruence; try assumption;
      try apply header_is_empty_written;
      try (intros [? | [? ?]]; congruence).
  - injection Hrun as <- <-.
    repeat split; try congruence; try (intros [? | [? ?]]; congruence).
Qed.

(** C4, as the code has it.  On a journal whose scan, after [n] turns
    over records of known type, stands before [nbytes_used] on a record
    whose type is neither [REC_DATA] nor [REC_COMMIT], [cmd_install]
    stops scanning there, reports the unknown type, and then rewrites
    the journal header with [nbytes_used = 8] as after a clean scan:
    the result is the image as the scan left it, with that header. *)
Theorem install_unknown_record_resets (sb : superblock) (d dn : disk)
    (jh rh : buffer) (n fuel : nat) (p : Z) (flag : bool)
    (Hjh : pread d (journal_base sb) 8 = Some jh)
    (Hmagic : jh_magic jh = JOURNAL_MAGIC)
    (Hnonempty : nbytes_used jh <> SIZEOF_JOURNAL_HEADER)
    (Hscan : scan_steps n sb (nbytes_used jh) SIZEOF_JOURNAL_HEADER false d
             = Some (p, flag, dn))
    (Hbefore : p < nbytes_used jh)
    (Hrh : pread dn (journal_off sb p) 4 = Some rh)
    (Hdata : get16 rh 0 <> REC_DATA)
    (Hcommit : get16 rh 0 <> REC_COMMIT)
    (Hfuel : (n < fuel)%nat) :
  let d' := pwrite dn (journal_base sb) empty_journal_header in
  cmd_install fuel sb d = Some (d', Ret (Applied (Some (get16 rh 0)))) /\
  header_is sb d' JOURNAL_MAGIC SIZEOF_JOURNAL_HEADER.
Proof.
  intros d'. split; [|apply header_is_empty_written].
  unfold cmd_install.
  rewrite (read_journal_header_eq sb d jh Hjh).
  rewrite Hmagic, Z.eqb_refl. cbn [negb].
  apply Z.eqb_neq in Hnonempty. rewrite Hnonempty.
  replace fuel with (n + S (fuel - n - 1))%nat by lia.
  rewrite (install_loop_scan sb _ n _ _ _ p flag dn _ Hscan).
  rewrite (install_loop_break sb _ p flag dn rh _ Hbefore Hrh Hdata Hcommit).
  reflexivity.
Qed.

(** ** Names *)

Lemma length_slice (buf : buffer) (off : Z) (n : nat) :
  length (slice buf off n) = Nat.min n (length buf - Z.to_nat off).
Proof. unfold slice. now rewrite length_firstn, length_skipn. Qed.

Lemma nth_slice (buf : buffer) (off : Z) (n k : nat) :
  nth k (slice buf off n) Byte.x00 =
    if (k <? n)%nat then nth (Z.to_nat off + k) buf Byte.x00 else Byte.x00.
Proof. unfold slice. now rewrite nth_firstn, nth_skipn. Qed.

Lemma slice_split (buf : buffer) (off : Z) (n1 n2 : nat) :
  0 <= off ->
  slice buf off (n1 + n2) = slice buf off n1 ++ slice buf (off + Z.of_nat n1) n2.
Proof.
  intros Hoff. unfold slice.
  replace (Z.to_nat (off + Z.of_nat n1)) with (n1 + Z.to_nat off)%nat by lia.
  rewrite <- skipn_skipn.
  generalize (skipn (Z.to_nat off) buf) as l. clear.
  induction n1 as [|n1 IH]; intros l; [reflexivity|].
  destruct l as [|a l]; cbn [Nat.add firstn skipn app].
  - now rewrite firstn_nil.
  - f_equal. apply IH.
Qed.

(** A store leaves a slice that it does not meet as it was. *)
Lemma slice_store_apart (buf src b : buffer) (off o : Z) (n : nat) :
  store buf off src = Some b -> 0 <= o ->
  o + Z.of_nat n <= off \/ off + Z.of_nat (length src) <= o ->
  slice b o n = slice buf o n.
Proof.
  intros Hst Ho Hapart.
  apply nth_ext with (d := Byte.x00) (d' := Byte.x00).
  - rewrite !length_slice. now rewrite (length_store _ _ _ _ Hst).
  - intros k Hk. rewrite length_slice in Hk. rewrite !nth_slice.
    destruct (Nat.ltb_spec k n) as [Hlt|]; [|reflexivity].
    rewrite (nth_store _ _ _ _ _ Hst).
    replace ((off <=? Z.of_nat (Z.to_nat o + k))
             && (Z.of_nat (Z.to_nat o + k) <? off + Z.of_nat (length src)))
      with false; [reflexivity|].
    symmetry. apply andb_false_iff.
    destruct Hapart; [left; apply Z.leb_gt | right; apply Z.ltb_ge]; lia.
Qed.

Lemma length_strncpy (src : buffer) (n : nat) : length (strncpy src n) = n.
Proof.
  revert src. induction n as [|n IH]; intros src; [reflexivity|].
  cbn [strncpy]. destruct src as [|c rest].
  - apply repeat_length.
  - destruct (Byte.eqb c Byte.x00); [apply repeat_length|].
    cbn [length]. now rewrite IH.
Qed.

(** [strncpy] copies the string up to [n] bytes and pads with zeros. *)
Lemma strncpy_spec (src : buffer) (n : nat) :
  strncpy src n
  = firstn (Nat.min n (strlen src)) src
      ++ zeros (n - Nat.min n (strlen src)).
Proof.
  revert src. induction n as [|n IH]; intros src; [reflexivity|].
  cbn [strncpy]. destruct src as [|c rest]; [reflexivity|].
  cbn [strlen]. destruct (Byte.eqb c Byte.x00); [reflexivity|].
  rewrite IH. reflexivity.
Qed.

Lemma strlen_c_string (s : buffer) : c_string s -> strlen s = length s.
Proof.
  induction 1 as [|c s Hc _ IH]; [reflexivity|].
  cbn [strlen length]. destruct (Byte.eqb c Byte.x00) eqn:E.
  - apply Byte.byte_dec_bl in E. contradiction.
  - now rewrite IH.
Qed.

Lemma image_block_pread (d : disk) (blk : Z) (b : buffer) :
  pread d (block_off blk) 4096 = Some b -> image_block d blk = b.
Proof.
  intros H. pose proof (pread_inside _ _ _ _ H ltac:(discriminate)) as Hin.
  rewrite pread_defined in H by exact Hin.
  unfold image_block. change (Z.to_nat BLOCK_SIZE) with 4096%nat.
  congruence.
Qed.

(** The name field that [create_build] leaves in the directory block. *)
Lemma create_build_name (sb : superblock) (filename : buffer) (now : stamps)
    (d : disk) (im : create_images) :
  snd (create_build sb filename now d) = Ret im ->
  dirent_name (new_dir_block im) (root_size sb d / SIZEOF_DIRENT)
  = strncpy filename 27 ++ [Byte.x00].
Proof.
  intros H. apply create_build_inv in H.
  destruct H as (inode_bmap & data_bmap & inode_block_buf & dir_block
                 & inode_block & dir1 & dir2 & root1 & H).
  cbv zeta in H.
  destruct H as (R1 & R2 & Hino & S1 & R3 & Hd0 & R4 & Hnum & R5 & S2
                 & S3 & S4 & S5 & S6 & S7).
  unfold dirent_name, root_size. rewrite (image_block_pread _ _ _ R3).
  set (de := get32 inode_block_buf INODE_SIZE_OFF / SIZEOF_DIRENT
             * SIZEOF_DIRENT) in *.
  assert (Hde : 0 <= de).
  { unfold de. pose proof (get32_range inode_block_buf INODE_SIZE_OFF).
    change SIZEOF_DIRENT with 32. Z.to_euclidean_division_equations. lia. }
  change (Z.to_nat NAME_LEN) with (27 + 1)%nat.
  rewrite slice_split by lia. f_equal.
  - rewrite (slice_store_apart _ _ _ _ _ _ S5) by (cbn [length]; lia).
    pose proof (slice_store _ _ _ _ S4) as E.
    rewrite length_strncpy in E. exact E.
  - replace (de + 4 + Z.of_nat 27) with (de + 4 + 27) by lia.
    apply (slice_store _ _ _ _ S5).
Qed.

(** C10.  For every file name (the content of a C string) given to a
    creation that builds its block images: when the name has 28
    characters or more, the name field of the new directory entry holds
    its first 27 characters followed by a zero byte; when it has fewer
    than 28, the field holds the name followed by zero bytes up to the
    28 bytes of the field. *)
Theorem create_stores_truncated_name (sb : superblock) (filename : buffer)
    (now : stamps) (d : disk) (im : create_images)
    (Hname : c_string filename)
    (Hbuild : snd (create_build sb filename now d) = Ret im) :
  let field := dirent_name (new_dir_block im) (root_size sb d / SIZEOF_DIRENT) in
  ((28 <= length filename)%nat -> field = firstn 27 filename ++ [Byte.x00]) /\
  ((length filename < 28)%nat ->
   field = filename ++ zeros (28 - length filename)).
Proof.
  intros field. unfold field.
  rewrite (create_build_name _ _ _ _ _ Hbuild), strncpy_spec,
    (strlen_c_string _ Hname).
  split; intros Hlen.
  - replace (Nat.min 27 (length filename)) with 27%nat by lia.
    rewrite Nat.sub_diag. cbn [zeros repeat]. now rewrite app_nil_r.
  - replace (Nat.min 27 (length filename)) with (length filename) by lia.
    rewrite firstn_all, <- app_assoc. f_equal.
    replace (28 - length filename)%nat with (27 - length filename + 1)%nat
      by lia.
    unfold zeros. now rewrite repeat_app.
Qed.

(** ** A full directory *)

(** Once the root directory fills its block, [create_build] cannot
    return: the store of the new entry falls outside the array. *)
Lemma create_build_full_directory (sb : superblock) (filename : buffer)
    (now : stamps) (d : disk) (im : create_images) :
  BLOCK_SIZE <= root_size sb d ->
  snd (create_build sb filename now d) <> Ret im.
Proof.
  intros Hfull H. apply create_build_inv in H.
  destruct H as (inode_bmap & data_bmap & inode_block_buf & dir_block
                 & inode_block & dir1 & dir2 & root1 & H).
  cbv zeta in H.
  destruct H as (R1 & R2 & Hino & S1 & R3 & Hd0 & R4 & Hnum & R5 & S2
                 & S3 & _).
  unfold root_size in Hfull. rewrite (image_block_pread _ _ _ R3) in Hfull.
  apply pread_length in R4.
  rewrite store_undefined in S3; [discriminate|].
  rewrite R4, length_le_split.
  change BLOCK_SIZE with 4096 in Hfull. change SIZEOF_DIRENT with 32.
  Z.to_euclidean_division_equations. lia.
Qed.

(** ** The tool on the sample images *)

Example find_free_sample :
  bitmap_find_free [Byte.x0b] 8 = 2 /\
  bitmap_set [Byte.x0b] 2 = Some [Byte.x0f] /\
  bitmap_find_free [Byte.x0f] 8 = 4 /\
  bitmap_find_free [Byte.xff] 8 = -1.
Proof. repeat split. Qed.

Example superblock_of_sample :
  snd (read_superblock sample_image) = Ret sample_sb.
Proof. vm_compute. reflexivity. Qed.

Example three_creations_fit :
  snd (create_sample sample_image) = Ret Created /\
  snd (create_sample image_after_1) = Ret Created /\
  snd (create_sample image_after_2) = Ret Created /\
  journal_used sample_sb sample_image = Some 8 /\
  journal_used sample_sb image_after_1 = Some 16428 /\
  journal_used sample_sb image_after_2 = Some 32848 /\
  journal_used sample_sb image_after_3 = Some 49268.
Proof. vm_compute. repeat split. Qed.

(** C1 at a failing input.  The journal of [committed_image] holds one
    data record for the inode bitmap block, with first payload byte
    [0x03], and then a commit record; [cmd_install] completes with
    "Applied journaled changes" and an emptied journal, and the inode
    bitmap block still starts with the byte [0x01] it had before. *)
Lemma install_skips_committed_record :
  journal_used sample_sb committed_image = Some 4116 /\
  pread committed_image (journal_off sample_sb 8) 9
  = Some [Byte.xda; Byte.xd0; Byte.x08; Byte.x10;
          Byte.x11; Byte.x00; Byte.x00; Byte.x00; Byte.x03] /\
  pread committed_image (journal_off sample_sb 4112) 4
  = Some [Byte.xde; Byte.xc0; Byte.x04; Byte.x00] /\
  dat committed_image (block_off INODE_BMAP_IDX) = Byte.x01 /\
  match cmd_install 3 sample_sb committed_image with
  | Some (d', r) =>
      r = Ret (Applied None) /\
      journal_used sample_sb d' = Some 8 /\
      dat d' (block_off INODE_BMAP_IDX) = Byte.x01
  | None => False
  end.
Proof. vm_compute. repeat split. Qed.

(** C3 at a failing input.  On the sample image, creating "foo.txt"
    chooses inode 1 and journals a committed transaction; the install
    that follows empties the journal and reports "Applied journaled
    changes", yet bit 1 of the inode bitmap is still clear, slot 1 of
    the inode table is still zero, the directory entry at index
    [64 / 32] is still empty and the root inode still has size 64. *)
Lemma create_then_install_applies_nothing :
  bitmap_find_free (image_block sample_image INODE_BMAP_IDX) 64 = 1 /\
  root_size sample_sb sample_image = 64 /\
  snd (create_sample sample_image) = Ret Created /\
  journal_used sample_sb image_after_1 = Some (8 + TRANSACTION_SIZE) /\
  match cmd_install 6 sample_sb image_after_1 with
  | Some (d2, r) =>
      r = Ret (Applied None) /\
      journal_used sample_sb d2 = Some 8 /\
      bitmap_test (image_block d2 INODE_BMAP_IDX) 1 = false /\
      slice (image_block d2 INODE_START_IDX) INODE_SIZE 128 = zeros 128 /\
      slice (image_block d2 DATA_START_IDX) (2 * SIZEOF_DIRENT) 32
      = zeros 32 /\
      root_size sample_sb d2 = 64
  | None => False
  end.
Proof. vm_compute. repeat split. Qed.

(** The second and the fourth data record of the creation on the
    sample image both target block 19; the image of the fourth, built
    from the block as first read, has slot 1 still zero. *)
Example root_image_lacks_new_inode :
  inode_block_num (images_of sample_image) = inode_start sample_sb /\
  slice (new_inode_block (images_of sample_image)) INODE_SIZE 4
  = [Byte.x01; Byte.x00; Byte.x01; Byte.x00] /\
  slice (new_root_inode_block (images_of sample_image)) INODE_SIZE 128
  = zeros 128.
Proof. vm_compute. repeat split. Qed.

(** C4 as stated fails.  The journal of [corrupt_image] records 16
    bytes: the header, a commit record and a record of type [0xBAAD].
    [cmd_install] reports the unknown type, and the journal header it
    leaves records 8 bytes, not the 16 it found. *)
Lemma unknown_record_resets_journal :
  journal_used sample_sb corrupt_image = Some 16 /\
  match cmd_install 2 sample_sb corrupt_image with
  | Some (d', r) =>
      r = Ret (Applied (Some 0xBAAD)) /\
      journal_used sample_sb d' = Some 8 /\
      journal_used sample_sb d' <> journal_used sample_sb corrupt_image
  | None => False
  end.
Proof. vm_compute. repeat split. discriminate. Qed.

(** C6 as stated fails.  After three creations on the sample image the
    journal records 49268 bytes, which leaves no room for a fourth
    transaction; the fourth creation reports the full journal, and the
    journal then records 61580 bytes: three data records of the failed
    attempt were appended. *)
Lemma failed_create_leaves_records :
  journal_used sample_sb image_after_3 = Some 49268 /\
  JOURNAL_CAPACITY < 49268 + TRANSACTION_SIZE /\
  snd (create_sample image_after_3) = Ret JournalFull /\
  journal_used sample_sb (fst (create_sample image_after_3)) = Some 61580 /\
  journal_used sample_sb (fst (create_sample image_after_3))
  <> journal_used sample_sb image_after_3.
Proof. vm_compute. repeat split. discriminate. Qed.

(** C8 at a failing input.  On an image whose root directory already
    fills its block, [cmd_create] does not fail: it stores the new
    entry at offset 4096 of the 4096-byte array [new_dir_block], which
    is undefined behaviour. *)
Lemma create_on_full_directory_overflows :
  root_size sample_sb full_directory_image = BLOCK_SIZE /\
  store (image_block full_directory_image DATA_START_IDX)
    (root_size sample_sb full_directory_image / SIZEOF_DIRENT * SIZEOF_DIRENT)
    (le_split 4 1) = None /\
  snd (create_sample full_directory_image) = Undef.
Proof. vm_compute. repeat split. Qed.


(** * Further properties *)

(** ** Block store *)

Lemma block_off_multiple (blk : Z) : block_off blk mod 4096 = 0.
Proof.
  unfold block_off, u32, BLOCK_SIZE.
  change (2 ^ 32) with (1048576 * 4096).
  rewrite Z.mul_mod_distr_r by lia.
  apply Z.mod_mul. lia.
Qed.

Lemma block_off_apart (blk blk' : Z) :
  block_off blk' <> block_off blk ->
  block_off blk' + 4096 <= block_off blk
  \/ block_off blk + 4096 <= block_off blk'.
Proof.
  intros Hne.
  pose proof (block_off_multiple blk) as H1.
  pose proof (block_off_multiple blk') as H2.
  Z.to_euclidean_division_equations. lia.
Qed.

(** X1.  A block written with [write_block] is the block that
    [read_block] returns, and every other readable block reads as
    before. *)
Theorem write_block_read_block (blk : Z) (buf : buffer) (d : disk)
    (Hlen : length buf = 4096%nat) :
  let d' := fst (write_block blk buf d) in
  snd (read_block blk d') = Ret buf /\
  forall blk' b,
    block_off blk' <> block_off blk ->
    snd (read_block blk' d) = Ret b ->
    snd (read_block blk' d') = Ret b.
Proof.
  intros d'. unfold d', write_block, write_at, read_block. cbn [fst].
  change (Z.to_nat BLOCK_SIZE) with 4096%nat. split.
  - apply snd_read_at_ret. rewrite <- Hlen. apply pread_pwrite_same.
  - intros blk' b Hne Hb. apply snd_read_at_ret in Hb.
    apply snd_read_at_ret. apply pread_pwrite_apart; [|exact Hb].
    rewrite Hlen. destruct (block_off_apart blk blk' Hne); lia.
Qed.

(** X2.  Block numbers count modulo [2 ^ 20]: the offset of a block is
    computed on 32 bits. *)
Theorem block_number_wraps (blk k : Z) (buf : buffer) (d : disk) :
  read_block (blk + k * 2 ^ 20) d = read_block blk d /\
  write_block (blk + k * 2 ^ 20) buf d = write_block blk buf d.
Proof.
  assert (H : block_off (blk + k * 2 ^ 20) = block_off blk).
  { unfold block_off, u32, BLOCK_SIZE.
    replace ((blk + k * 2 ^ 20) * 4096) with (blk * 4096 + k * 2 ^ 32) by lia.
    apply Z.mod_add. lia. }
  unfold read_block, write_block. now rewrite H.
Qed.

(** ** Superblock *)

Lemma slice_le_split_head (n : nat) (z : Z) (rest : buffer) :
  slice (le_split n z ++ rest) 0 n = le_split n z.
Proof.
  pose proof (slice_app_left (le_split n z) rest) as H.
  now rewrite length_le_split in H.
Qed.

Lemma slice_skip_le_split (n : nat) (z : Z) (rest : buffer) (off : Z) (m : nat) :
  0 <= off ->
  slice (le_split n z ++ rest) (Z.of_nat n + off) m = slice rest off m.
Proof.
  intros Hoff.
  pose proof (slice_app_right (le_split n z) rest off m Hoff) as H.
  now rewrite length_le_split in H.
Qed.

Lemma get32_le_split_head (z : Z) (rest : buffer) :
  get32 (le_split 4 z ++ rest) 0 = u32 z.
Proof.
  unfold get32. rewrite slice_le_split_head. apply le_combine_split.
Qed.

Lemma get32_skip4 (z : Z) (rest : buffer) (off : Z) :
  0 <= off -> get32 (le_split 4 z ++ rest) (4 + off) = get32 rest off.
Proof.
  intros H. unfold get32. f_equal.
  exact (slice_skip_le_split 4 z rest off 4 H).
Qed.

Lemma decode_encode_superblock (sb : superblock) :
  superblock_wf sb -> decode_superblock (encode_superblock sb) = sb.
Proof.
  intros (H1 & H2 & H3 & H4 & H5 & H6 & H7 & H8 & H9).
  destruct sb as [m bs tb ic jb ib db ist dst]. cbn [magic block_size
    total_blocks inode_count journal_block inode_bitmap data_bitmap
    inode_start data_start] in *.
  unfold decode_superblock, encode_superblock. cbn [magic block_size
    total_blocks inode_count journal_block inode_bitmap data_bitmap
    inode_start data_start].
  f_equal.
  - rewrite get32_le_split_head. now apply u32_small.
  - rewrite (get32_skip4 _ _ 0), get32_le_split_head by lia. now apply u32_small.
  - rewrite (get32_skip4 _ _ 4), (get32_skip4 _ _ 0), get32_le_split_head by lia.
    now apply u32_small.
  - rewrite (get32_skip4 _ _ 8), (get32_skip4 _ _ 4), (get32_skip4 _ _ 0),
      get32_le_split_head by lia. now apply u32_small.
  - rewrite (get32_skip4 _ _ 12), (get32_skip4 _ _ 8), (get32_skip4 _ _ 4),
      (get32_skip4 _ _ 0), get32_le_split_head by lia. now apply u32_small.
  - rewrite (get32_skip4 _ _ 16), (get32_skip4 _ _ 12), (get32_skip4 _ _ 8),
      (get32_skip4 _ _ 4), (get32_skip4 _ _ 0), get32_le_split_head by lia.
    now apply u32_small.
  - rewrite (get32_skip4 _ _ 20), (get32_skip4 _ _ 16), (get32_skip4 _ _ 12),
      (get32_skip4 _ _ 8), (get32_skip4 _ _ 4), (get32_skip4 _ _ 0),
      get32_le_split_head by lia. now apply u32_small.
  - rewrite (get32_skip4 _ _ 24), (get32_skip4 _ _ 20), (get32_skip4 _ _ 16),
      (get32_skip4 _ _ 12), (get32_skip4 _ _ 8), (get32_skip4 _ _ 4),
      (get32_skip4 _ _ 0), get32_le_split_head by lia. now apply u32_small.
  - rewrite (get32_skip4 _ _ 28), (get32_skip4 _ _ 24), (get32_skip4 _ _ 20),
      (get32_skip4 _ _ 16), (get32_skip4 _ _ 12), (get32_skip4 _ _ 8),
      (get32_skip4 _ _ 4), (get32_skip4 _ _ 0), get32_le_split_head by lia.
    now apply u32_small.
Qed.

Lemma length_encode_superblock (sb : superblock) :
  length (encode_superblock sb) = 128%nat.
Proof. reflexivity. Qed.

(** X3.  A superblock with the file-system magic, laid out
    little-endian at the start of an image, is what [read_superblock]
    returns, and reading it does not change the image. *)
Theorem read_superblock_round_trip (sb : superblock) (d : disk)
    (Hwf : superblock_wf sb) (Hmagic : magic sb = FS_MAGIC) :
  let d' := pwrite d 0 (encode_superblock sb) in
  read_superblock d' = (d', Ret sb).
Proof.
  intros d'. unfold read_superblock.
  assert (Hr : read_at 0 (Z.to_nat SIZEOF_SUPERBLOCK) "read" d'
               = (d', Ret (encode_superblock sb))).
  { unfold read_at. change (Z.to_nat SIZEOF_SUPERBLOCK) with 128%nat.
    rewrite <- (length_encode_superblock sb) at 1.
    unfold d'. now rewrite pread_pwrite_same. }
  rewrite (bind_eq _ _ _ _ _ Hr).
  rewrite (decode_encode_superblock sb Hwf), Hmagic, Z.eqb_refl.
  reflexivity.
Qed.

(** ** Journal initialisation *)

Lemma read_block_eq (blk : Z) (d : disk) (b : buffer) :
  pread d (block_off blk) 4096 = Some b -> read_block blk d = (d, Ret b).
Proof.
  intros H. unfold read_block, read_at.
  change (Z.to_nat BLOCK_SIZE) with 4096%nat. now rewrite H.
Qed.

Lemma init_journal_uninitialized (sb : superblock) (d : disk) (jh : buffer) :
  pread d (journal_base sb) 8 = Some jh -> jh_magic jh <> JOURNAL_MAGIC ->
  init_journal_if_needed sb d
  = (pwrite d (journal_base sb) empty_journal_header, Ret tt).
Proof.
  intros Hjh Hm. unfold init_journal_if_needed.
  rewrite (bind_eq _ _ _ _ _ (read_journal_header_eq sb d jh Hjh)).
  apply Z.eqb_neq in Hm. rewrite Hm. reflexivity.
Qed.

(** X4.  On an image that holds the journal header,
    [init_journal_if_needed] leaves an initialised journal, and a
    second call changes nothing; an initialised journal is not touched
    at all, an uninitialised one becomes the empty journal. *)
Theorem init_journal_idempotent (sb : superblock) (d : disk)
    (Hhdr : journal_base sb + 8 <= dlen d) :
  let d1 := fst (init_journal_if_needed sb d) in
  (exists u, header_is sb d1 JOURNAL_MAGIC u) /\
  init_journal_if_needed sb d1 = (d1, Ret tt) /\
  (forall u, header_is sb d JOURNAL_MAGIC u -> d1 = d) /\
  (forall jh, pread d (journal_base sb) 8 = Some jh ->
              jh_magic jh <> JOURNAL_MAGIC ->
              header_is sb d1 JOURNAL_MAGIC SIZEOF_JOURNAL_HEADER).
Proof.
  intros d1. pose proof (pread_defined d (journal_base sb) 8 Hhdr) as Hjh.
  set (jh := bytes_from (dat d) (journal_base sb) 8) in Hjh.
  destruct (Z.eq_dec (jh_magic jh) JOURNAL_MAGIC) as [Hm | Hm].
  - assert (Hh : header_is sb d JOURNAL_MAGIC (nbytes_used jh))
      by (exists jh; repeat split; assumption).
    assert (E : d1 = d)
      by (unfold d1; now rewrite (init_journal_initialized sb d _ Hh)).
    rewrite E. repeat split.
    + eauto.
    + exact (init_journal_initialized sb d _ Hh).
    + intros jh' Hjh' Hm'. congruence.
  - assert (E : d1 = pwrite d (journal_base sb) empty_journal_header)
      by (unfold d1; now rewrite (init_journal_uninitialized sb d jh Hjh Hm)).
    pose proof (header_is_empty_written sb d) as Hh. rewrite <- E in Hh.
    repeat split.
    + eauto.
    + exact (init_journal_initialized sb d1 _ Hh).
    + intros u (jh' & Hjh' & Hm' & _). congruence.
    + intros _ _ _. exact Hh.
Qed.

(** ** Appending *)

Lemma append_step (sb : superblock) (record : buffer) (d : disk) (m u : Z) :
  header_is sb d m u -> 8 <= u ->
  journal_base sb + JOURNAL_CAPACITY < 2 ^ 32 ->
  u + Z.of_nat (length record) <= JOURNAL_CAPACITY ->
  exists d',
    append_to_journal sb record d = (d', Ret 0) /\
    header_is sb d' m (u + Z.of_nat (length record)) /\
    journal_holds sb d' u record /\
    records_kept sb u d d'.
Proof.
  intros (jh & Hjh & <- & <-) Hu Hregion Hfits.
  pose proof (nbytes_used_range jh) as Hr.
  pose proof (jh_magic_range jh) as Hm.
  pose proof (block_off_range (journal_block sb)) as Hb.
  change JOURNAL_CAPACITY with 65536 in *. unfold journal_base in *.
  assert (Hlen : Z.of_nat (length record) + 2 ^ 32 <= 2 ^ 64) by lia.
  assert (Hoff : journal_off sb (nbytes_used jh)
                 = block_off (journal_block sb) + nbytes_used jh)
    by (unfold journal_off; apply u32_small; lia).
  eexists. split; [|split; [|split]].
  - apply append_to_journal_fits with (jh := jh); assumption.
  - exists (encode_journal_header (jh_magic jh)
              (nbytes_used jh + Z.of_nat (length record))).
    split; [apply pread_header_written|].
    rewrite jh_magic_encode, nbytes_used_encode.
    rewrite !u32_small by lia. split; reflexivity.
  - unfold journal_holds, journal_base. rewrite Hoff.
    apply pread_pwrite_apart;
      [rewrite length_encode_journal_header; lia | apply pread_pwrite_same].
  - unfold records_kept, journal_base. intros o n b Hlo Hhi Hread.
    rewrite Hoff.
    apply pread_pwrite_apart; [rewrite length_encode_journal_header; lia|].
    apply pread_pwrite_apart; [lia | exact Hread].
Qed.

(** X5.  A record appended to a journal with room for it is read back
    at the offset [nbytes_used] had, and the records appended before it
    are still there.  This holds of every record; for the empty one
    the write of no bytes leaves the file as it is and only the header
    is rewritten, with the same count. *)
Theorem append_keeps_records (sb : superblock) (record : buffer) (d : disk)
    (m u : Z)
    (Hheader : header_is sb d m u)
    (Hused : 8 <= u)
    (Hregion : journal_base sb + JOURNAL_CAPACITY < 2 ^ 32)
    (Hfits : u + Z.of_nat (length record) <= JOURNAL_CAPACITY) :
  let d' := fst (append_to_journal sb record d) in
  snd (append_to_journal sb record d) = Ret 0 /\
  header_is sb d' m (u + Z.of_nat (length record)) /\
  journal_holds sb d' u record /\
  records_kept sb u d d'.
Proof.
  intros d'. unfold d'.
  destruct (append_step sb record d m u Hheader Hused Hregion Hfits)
    as (d1 & -> & H). split; [reflexivity | exact H].
Qed.

(** ** The transaction of a creation *)

Lemma records_kept_trans (sb : superblock) (u1 u2 : Z) (d1 d2 d3 : disk) :
  u1 <= u2 -> records_kept sb u1 d1 d2 -> records_kept sb u2 d2 d3 ->
  records_kept sb u1 d1 d3.
Proof.
  intros Hu H12 H23 o n b Hlo Hhi Hr.
  apply H23; [exact Hlo | lia | now apply H12].
Qed.

Lemma journal_holds_kept (sb : superblock) (u pos : Z) (rec : buffer)
    (d d' : disk) :
  8 <= pos -> pos + Z.of_nat (length rec) <= u ->
  records_kept sb u d d' -> journal_holds sb d pos rec ->
  journal_holds sb d' pos rec.
Proof.
  intros Hpos Hend Hk Hh. unfold journal_holds in *.
  apply Hk; [lia | lia | exact Hh].
Qed.

Lemma bind_append_step (sb : superblock) (record : buffer) (len : Z)
    (k : Z -> io create_report) (d : disk) (m u : Z) :
  Z.of_nat (length record) = len ->
  header_is sb d m u -> 8 <= u ->
  journal_base sb + JOURNAL_CAPACITY < 2 ^ 32 ->
  u + len <= JOURNAL_CAPACITY ->
  exists d',
    bind (append_to_journal sb record) k d = k 0 d' /\
    header_is sb d' m (u + len) /\
    journal_holds sb d' u record /\
    records_kept sb u d d'.
Proof.
  intros <- Hh Hu Hregion Hfits.
  destruct (append_step sb record d m u Hh Hu Hregion Hfits)
    as (d' & Ha & H).
  exists d'. split; [now apply bind_eq | exact H].
Qed.

(** The five records of [create_log] as the journal holds them. *)
Lemma create_log_records (sb : superblock) (im : create_images) (d : disk)
    (m u : Z) :
  length (new_inode_bmap im) = 4096%nat ->
  length (new_inode_block im) = 4096%nat ->
  length (new_dir_block im) = 4096%nat ->
  length (new_root_inode_block im) = 4096%nat ->
  header_is sb d m u -> 8 <= u ->
  journal_base sb + JOURNAL_CAPACITY < 2 ^ 32 ->
  u + TRANSACTION_SIZE <= JOURNAL_CAPACITY ->
  exists d',
    create_log sb im d = (d', Ret Created) /\
    header_is sb d' m (u + TRANSACTION_SIZE) /\
    journal_holds sb d' u
      (encode_data_record (inode_bitmap sb) (new_inode_bmap im)) /\
    journal_holds sb d' (u + 4104)
      (encode_data_record (inode_block_num im) (new_inode_block im)) /\
    journal_holds sb d' (u + 8208)
      (encode_data_record (root_direct0 im) (new_dir_block im)) /\
    journal_holds sb d' (u + 12312)
      (encode_data_record (inode_start sb) (new_root_inode_block im)) /\
    journal_holds sb d' (u + 16416) encode_commit_record /\
    records_kept sb u d d'.
Proof.
  intros L1 L2 L3 L4 Hh Hu Hregion Hroom.
  change TRANSACTION_SIZE with 16420 in *.
  change JOURNAL_CAPACITY with 65536 in Hroom.
  destruct (create_records_length sb im L1 L2 L3 L4)
    as (E1 & E2 & E3 & E4 & E5).
  set (rec1 := encode_data_record (inode_bitmap sb) (new_inode_bmap im)) in *.
  set (rec2 := encode_data_record (inode_block_num im) (new_inode_block im))
    in *.
  set (rec3 := encode_data_record (root_direct0 im) (new_dir_block im)) in *.
  set (rec4 := encode_data_record (inode_start sb) (new_root_inode_block im))
    in *.
  unfold create_log. fold rec1 rec2 rec3 rec4.
  assert (Hcap : JOURNAL_CAPACITY = 65536) by reflexivity.
  destruct (bind_append_step sb rec1 4104
              (fun r1 => if r1 <? 0 then ret JournalFull else
                 r2 <- append_to_journal sb rec2 ;;
                 if r2 <? 0 then ret JournalFull else
                 r3 <- append_to_journal sb rec3 ;;
                 if r3 <? 0 then ret JournalFull else
                 r4 <- append_to_journal sb rec4 ;;
                 if r4 <? 0 then ret JournalFull else
                 r5 <- append_to_journal sb encode_commit_record ;;
                 if r5 <? 0 then ret JournalFull else ret Created)
              d m u E1 Hh Hu Hregion ltac:(lia))
    as (d1 & -> & Hh1 & J1 & K1).
  change (0 <? 0) with false. cbv iota.
  destruct (bind_append_step sb rec2 4104
              (fun r2 => if r2 <? 0 then ret JournalFull else
                 r3 <- append_to_journal sb rec3 ;;
                 if r3 <? 0 then ret JournalFull else
                 r4 <- append_to_journal sb rec4 ;;
                 if r4 <? 0 then ret JournalFull else
                 r5 <- append_to_journal sb encode_commit_record ;;
                 if r5 <? 0 then ret JournalFull else ret Created)
              d1 m _ E2 Hh1 ltac:(lia) Hregion ltac:(lia))
    as (d2 & -> & Hh2 & J2 & K2).
  change (0 <? 0) with false. cbv iota.
  destruct (bind_append_step sb rec3 4104
              (fun r3 => if r3 <? 0 then ret JournalFull else
                 r4 <- append_to_journal sb rec4 ;;
                 if r4 <? 0 then ret JournalFull else
                 r5 <- append_to_journal sb encode_commit_record ;;
                 if r5 <? 0 then ret JournalFull else ret Created)
              d2 m _ E3 Hh2 ltac:(lia) Hregion ltac:(lia))
    as (d3 & -> & Hh3 & J3 & K3).
  change (0 <? 0) with false. cbv iota.
  destruct (bind_append_step sb rec4 4104
              (fun r4 => if r4 <? 0 then ret JournalFull else
                 r5 <- append_to_journal sb encode_commit_record ;;
                 if r5 <? 0 then ret JournalFull else ret Created)
              d3 m _ E4 Hh3 ltac:(lia) Hregion ltac:(lia))
    as (d4 & -> & Hh4 & J4 & K4).
  change (0 <? 0) with false. cbv iota.
  destruct (bind_append_step sb encode_commit_record 4
              (fun r5 => if r5 <? 0 then ret JournalFull else ret Created)
              d4 m _ E5 Hh4 ltac:(lia) Hregion ltac:(lia))
    as (d5 & -> & Hh5 & J5 & K5).
  change (0 <? 0) with false. cbv iota.
  exists d5. split; [reflexivity|].
  replace (u + 4104 + 4104) with (u + 8208) in * by lia.
  replace (u + 8208 + 4104) with (u + 12312) in * by lia.
  replace (u + 12312 + 4104) with (u + 16416) in * by lia.
  replace (u + 16416 + 4) with (u + 16420) in * by lia.
  split; [exact Hh5|].
  assert (K45 : records_kept sb (u + 12312) d3 d5)
    by (apply records_kept_trans with (u2 := u + 16416) (d2 := d4);
        [lia | exact K4 | exact K5]).
  assert (K35 : records_kept sb (u + 8208) d2 d5)
    by (apply records_kept_trans with (u2 := u + 12312) (d2 := d3);
        [lia | exact K3 | exact K45]).
  assert (K25 : records_kept sb (u + 4104) d1 d5)
    by (apply records_kept_trans with (u2 := u + 8208) (d2 := d2);
        [lia | exact K2 | exact K35]).
  repeat split.
  - apply (journal_holds_kept sb (u + 4104) u rec1 d1 d5); auto; lia.
  - apply (journal_holds_kept sb (u + 8208) (u + 4104) rec2 d2 d5); auto; lia.
  - apply (journal_holds_kept sb (u + 12312) (u + 8208) rec3 d3 d5);
      auto; lia.
  - apply (journal_holds_kept sb (u + 16416) (u + 12312) rec4 d4 d5);
      auto; lia.
  - exact J5.
  - apply records_kept_trans with (u2 := u + 4104) (d2 := d1);
      [lia | exact K1 | exact K25].
Qed.

(** X6.  On an initialised journal with room for a whole transaction,
    a creation that builds its images reports success, adds exactly
    the size of one transaction to [nbytes_used], and leaves in the
    journal, from the old [nbytes_used] on, the four data records in
    the order inode bitmap, inode block, directory block, root inode
    block, followed by the commit record; what the journal held before
    is kept. *)
Theorem create_appends_transaction (sb : superblock) (filename : buffer)
    (now : stamps) (d : disk) (im : create_images) (u : Z)
    (Hheader : header_is sb d JOURNAL_MAGIC u)
    (Hused : 8 <= u)
    (Hregion : journal_base sb + JOURNAL_CAPACITY < 2 ^ 32)
    (Hroom : u + TRANSACTION_SIZE <= JOURNAL_CAPACITY)
    (Hbuild : snd (create_build sb filename now d) = Ret im) :
  let d' := fst (cmd_create sb filename now d) in
  snd (cmd_create sb filename now d) = Ret Created /\
  header_is sb d' JOURNAL_MAGIC (u + TRANSACTION_SIZE) /\
  journal_holds sb d' u
    (encode_data_record (inode_bitmap sb) (new_inode_bmap im)) /\
  journal_holds sb d' (u + 4104)
    (encode_data_record (inode_block_num im) (new_inode_block im)) /\
  journal_holds sb d' (u + 8208)
    (encode_data_record (root_direct0 im) (new_dir_block im)) /\
  journal_holds sb d' (u + 12312)
    (encode_data_record (inode_start sb) (new_root_inode_block im)) /\
  journal_holds sb d' (u + 16416) encode_commit_record /\
  records_kept sb u d d'.
Proof.
  intros d'. unfold d'.
  destruct (create_build_lengths _ _ _ _ _ Hbuild) as (L1 & L2 & L3 & L4).
  destruct (create_log_records sb im d JOURNAL_MAGIC u L1 L2 L3 L4
              Hheader Hused Hregion Hroom) as (d1 & Hlog & H).
  unfold cmd_create.
  rewrite (bind_eq _ _ _ _ _ (init_journal_initialized sb d u Hheader)).
  rewrite (bind_eq _ _ _ _ _ (create_build_eq _ _ _ _ _ Hbuild)).
  rewrite Hlog. split; [reflexivity | exact H].
Qed.

(** X7.  When the first 64 bits of the inode bitmap are all set, a
    creation on an initialised journal dies with "no free inode" and
    leaves the image, journal included, as it was. *)
Theorem create_without_free_inode (sb : superblock) (filename : buffer)
    (now : stamps) (d : disk) (u : Z) (bmap dbmap : buffer)
    (Hheader : header_is sb d JOURNAL_MAGIC u)
    (Hbmap : pread d (block_off (inode_bitmap sb)) 4096 = Some bmap)
    (Hdbmap : pread d (block_off (data_bitmap sb)) 4096 = Some dbmap)
    (Hfull : all_set bmap 0 64) :
  cmd_create sb filename now d = (d, Exit "no free inode").
Proof.
  assert (Hb : create_build sb filename now d = (d, Exit "no free inode")).
  { unfold create_build.
    rewrite (bind_eq _ _ _ _ _ (read_block_eq _ _ _ Hbmap)).
    rewrite (bind_eq _ _ _ _ _ (read_block_eq _ _ _ Hdbmap)).
    cbv zeta.
    assert (Hr : bitmap_find_free bmap 64 = -1).
    { destruct (bitmap_find_free_answer bmap 64)
        as [[Hr _] | (Hrange & Hclear & _)]; [exact Hr|].
      rewrite (Hfull _ Hrange) in Hclear. discriminate. }
    rewrite Hr. reflexivity. }
  unfold cmd_create.
  rewrite (bind_eq _ _ _ _ _ (init_journal_initialized sb d u Hheader)).
  unfold bind. now rewrite Hb.
Qed.

(** ** The journal stays within its capacity *)

Lemma append_bounded (sb : superblock) (record : buffer) (d : disk)
    (m lo : Z) :
  Z.of_nat (length record) + 2 ^ 32 <= 2 ^ 64 ->
  (exists u, header_is sb d m u /\ lo <= u <= JOURNAL_CAPACITY) ->
  exists u, header_is sb (fst (append_to_journal sb record d)) m u
            /\ lo <= u <= JOURNAL_CAPACITY.
Proof.
  intros Hlen (u & Hh & Hu).
  destruct (Z.lt_ge_cases JOURNAL_CAPACITY (u + Z.of_nat (length record)))
    as [Hfull | Hfits].
  - rewrite (append_full_header sb record d m u Hh Hlen Hfull).
    exists u. split; assumption.
  - destruct (append_fits_header sb record d m u Hh Hlen Hfits)
      as (d' & -> & Hh').
    exists (u + Z.of_nat (length record)). split; [exact Hh' | lia].
Qed.

Lemma create_log_bounded (sb : superblock) (im : create_images) (d : disk)
    (m lo : Z) :
  length (new_inode_bmap im) = 4096%nat ->
  length (new_inode_block im) = 4096%nat ->
  length (new_dir_block im) = 4096%nat ->
  length (new_root_inode_block im) = 4096%nat ->
  (exists u, header_is sb d m u /\ lo <= u <= JOURNAL_CAPACITY) ->
  exists u, header_is sb (fst (create_log sb im d)) m u
            /\ lo <= u <= JOURNAL_CAPACITY.
Proof.
  intros L1 L2 L3 L4 H. unfold create_log.
  assert (Hstep : forall record (k : Z -> io create_report),
             Z.of_nat (length record) + 2 ^ 32 <= 2 ^ 64 ->
             (forall r e,
                 (exists u, header_is sb e m u /\ lo <= u <= JOURNAL_CAPACITY) ->
                 exists u, header_is sb (fst (k r e)) m u
                           /\ lo <= u <= JOURNAL_CAPACITY) ->
             forall e,
               (exists u, header_is sb e m u /\ lo <= u <= JOURNAL_CAPACITY) ->
               exists u, header_is sb (fst (bind (append_to_journal sb record) k e))
                           m u /\ lo <= u <= JOURNAL_CAPACITY).
  { intros record k Hlen Hk e He.
    pose proof (append_bounded sb record e m lo Hlen He) as Ha.
    unfold bind.
    destruct (append_to_journal sb record e) as [e1 [r | msg |]];
      cbn [fst] in *; auto. }
  assert (Hret : forall (c : create_report) e,
             (exists u, header_is sb e m u /\ lo <= u <= JOURNAL_CAPACITY) ->
             exists u, header_is sb (fst (ret c e)) m u
                       /\ lo <= u <= JOURNAL_CAPACITY)
    by (intros c e He; exact He).
  revert d H.
  do 5 (apply Hstep;
        [ rewrite ?length_encode_data_record, ?L1, ?L2, ?L3, ?L4,
            ?length_encode_commit_record; lia
        | intros r e He; cbv beta;
          destruct (r <? 0); [exact (Hret _ _ He)|];
          revert e He; clear r ]).
  apply Hret.
Qed.

(** X8.  Whether it succeeds, finds the journal full or dies, a
    creation on an initialised journal whose [nbytes_used] is within
    the capacity leaves an initialised journal whose [nbytes_used] has
    not decreased and is still within the capacity. *)
Theorem create_keeps_journal_bounded (sb : superblock) (filename : buffer)
    (now : stamps) (d : disk) (u : Z)
    (Hheader : header_is sb d JOURNAL_MAGIC u)
    (Hused : u <= JOURNAL_CAPACITY)
    (Hdefined : snd (cmd_create sb filename now d) <> Undef) :
  exists u',
    header_is sb (fst (cmd_create sb filename now d)) JOURNAL_MAGIC u' /\
    u <= u' <= JOURNAL_CAPACITY.
Proof.
  clear Hdefined. unfold cmd_create.
  rewrite (bind_eq _ _ _ _ _ (init_journal_initialized sb d u Hheader)).
  unfold bind.
  pose proof (create_build_readonly sb filename now d) as Hro.
  pose proof (create_build_lengths sb filename now d) as Hlen.
  destruct (create_build sb filename now d) as [d1 [im | msg |]];
    cbn [fst snd] in *; subst d1.
  - destruct (Hlen im eq_refl) as (L1 & L2 & L3 & L4).
    apply create_log_bounded; try assumption.
    exists u. split; [exact Hheader | lia].
  - exists u. split; [exact Hheader | lia].
  - exists u. split; [exact Hheader | lia].
Qed.

(** ** The block images of a creation *)

Lemma store_same_outside (buf src b : buffer) (off : Z) :
  store buf off src = Some b ->
  same_outside b buf off (Z.of_nat (length src)).
Proof.
  intros H. split; [exact (length_store _ _ _ _ H)|].
  intros i Hi. rewrite (nth_store _ _ _ _ _ H).
  replace ((off <=? Z.of_nat i) && (Z.of_nat i <? off + Z.of_nat (length src)))
    with false; [reflexivity|].
  symmetry. apply andb_false_iff.
  destruct (Z.lt_ge_cases (Z.of_nat i) off);
    [left; apply Z.leb_gt | right; apply Z.ltb_ge]; lia.
Qed.

Lemma same_outside_trans (a b c : buffer) (off1 len1 off2 len2 off len : Z) :
  same_outside a b off1 len1 -> same_outside b c off2 len2 ->
  off <= off1 -> off1 + len1 <= off + len ->
  off <= off2 -> off2 + len2 <= off + len ->
  same_outside a c off len.
Proof.
  intros [La Ha] [Lb Hb] H1 H2 H3 H4. split; [congruence|].
  intros i Hi. rewrite Ha by lia. apply Hb. lia.
Qed.

(** X9.  The inode chosen by a creation is the lowest clear bit among
    the first 64 of the inode bitmap, and the bitmap image that the
    creation journals is the bitmap of the image with that one bit
    set. *)
Theorem create_bitmap_image (sb : superblock) (filename : buffer)
    (now : stamps) (d : disk) (im : create_images)
    (Hbuild : snd (create_build sb filename now d) = Ret im) :
  let bmap := image_block d (inode_bitmap sb) in
  let new_ino := bitmap_find_free bmap 64 in
  lowest_clear bmap 0 64 new_ino /\
  length (new_inode_bmap im) = 4096%nat /\
  forall j, 0 <= j ->
    bitmap_test (new_inode_bmap im) j = (j =? new_ino) || bitmap_test bmap j.
Proof.
  intros bmap new_ino.
  pose proof (create_build_lengths _ _ _ _ _ Hbuild) as (L1 & _).
  apply create_build_inv in Hbuild.
  destruct Hbuild as (inode_bmap & data_bmap & inode_block_buf & dir_block
                 & inode_block & dir1 & dir2 & root1 & H).
  cbv zeta in H. destruct H as (R1 & _ & Hino & S1 & _).
  unfold new_ino, bmap. rewrite (image_block_pread _ _ _ R1).
  split; [|split; [exact L1|]].
  - destruct (bitmap_find_free_answer inode_bmap 64) as [[Hr _] | Hl];
      [lia | exact Hl].
  - intros j Hj. now apply bitmap_test_set.
Qed.

Lemma new_inode_fields (ctime mtime : Z) :
  length (encode_new_inode ctime mtime) = 128%nat /\
  get16 (encode_new_inode ctime mtime) 0 = 1 /\
  get16 (encode_new_inode ctime mtime) 2 = 1 /\
  get32 (encode_new_inode ctime mtime) INODE_SIZE_OFF = 0 /\
  get32 (encode_new_inode ctime mtime) INODE_CTIME_OFF = u32 ctime /\
  get32 (encode_new_inode ctime mtime) INODE_MTIME_OFF = u32 mtime.
Proof.
  repeat split.
  - unfold get32.
    change (slice (encode_new_inode ctime mtime) INODE_CTIME_OFF 4)
      with (le_split 4 ctime).
    apply le_combine_split.
  - unfold get32.
    change (slice (encode_new_inode ctime mtime) INODE_MTIME_OFF 4)
      with (le_split 4 mtime).
    apply le_combine_split.
Qed.

(** X10.  The inode-table image that a creation journals is the block
    that holds slot [new_ino], with the 128 bytes of that slot replaced
    by an inode of type 1 (file), one link, size 0 and the two time
    stamps, and every other byte of the block as it is in the image. *)
Theorem create_inode_image (sb : superblock) (filename : buffer)
    (now : stamps) (d : disk) (im : create_images)
    (Hbuild : snd (create_build sb filename now d) = Ret im) :
  let new_ino := bitmap_find_free (image_block d (inode_bitmap sb)) 64 in
  let slot := new_ino mod 32 * INODE_SIZE in
  let inode := slice (new_inode_block im) slot 128 in
  inode_block_num im = u32 (inode_start sb + new_ino / 32) /\
  get16 inode 0 = 1 /\ get16 inode 2 = 1 /\
  get32 inode INODE_SIZE_OFF = 0 /\
  get32 inode INODE_CTIME_OFF = u32 (ctime_now now) /\
  get32 inode INODE_MTIME_OFF = u32 (mtime_now now) /\
  same_outside (new_inode_block im)
    (image_block d (inode_block_num im)) slot 128.
Proof.
  intros new_ino slot inode. unfold inode, slot, new_ino.
  apply create_build_inv in Hbuild.
  destruct Hbuild as (inode_bmap & data_bmap & inode_block_buf & dir_block
                 & inode_block & dir1 & dir2 & root1 & H).
  cbv zeta in H.
  destruct H as (R1 & _ & Hino & _ & _ & _ & _ & Hnum & R5 & S2 & _).
  rewrite (image_block_pread _ _ _ R1), (image_block_pread _ _ _ R5).
  destruct (new_inode_fields (ctime_now now) (mtime_now now))
    as (Hl & F1 & F2 & F3 & F4 & F5).
  assert (Hslot : u32 (bitmap_find_free inode_bmap 64 mod 32 * INODE_SIZE)
                  = bitmap_find_free inode_bmap 64 mod 32 * INODE_SIZE).
  { apply u32_small. change INODE_SIZE with 128.
    pose proof (Z.mod_pos_bound (bitmap_find_free inode_bmap 64) 32). lia. }
  rewrite Hslot in S2.
  pose proof (slice_store _ _ _ _ S2) as Hs. rewrite Hl in Hs. rewrite Hs.
  pose proof (store_same_outside _ _ _ _ S2) as Ho. rewrite Hl in Ho.
  repeat split; assumption || apply Ho.
Qed.

(** X11.  The directory image that a creation journals has, in the entry
    at index [root size / 32], the number of the new inode and a name
    field that ends in a zero byte, whatever the name; the entry lies
    inside the block and every byte outside it is as in the image. *)
Theorem create_directory_image (sb : superblock) (filename : buffer)
    (now : stamps) (d : disk) (im : create_images)
    (Hbuild : snd (create_build sb filename now d) = Ret im) :
  let new_ino := bitmap_find_free (image_block d (inode_bitmap sb)) 64 in
  let entries := root_size sb d / SIZEOF_DIRENT in
  let de := entries * SIZEOF_DIRENT in
  root_direct0 im = get32 (image_block d (inode_start sb)) INODE_DIRECT_OFF /\
  0 <= entries < 128 /\
  get32 (new_dir_block im) de = new_ino /\
  length (dirent_name (new_dir_block im) entries) = 28%nat /\
  nth 27 (dirent_name (new_dir_block im) entries) Byte.xff = Byte.x00 /\
  same_outside (new_dir_block im) (image_block d (root_direct0 im)) de 32.
Proof.
  intros new_ino entries de.
  pose proof (create_build_name _ _ _ _ _ Hbuild) as Hname.
  fold entries in Hname.
  apply create_build_inv in Hbuild.
  destruct Hbuild as (inode_bmap & data_bmap & inode_block_buf & dir_block
                 & inode_block & dir1 & dir2 & root1 & H).
  cbv zeta in H.
  destruct H as (R1 & _ & Hino & _ & R3 & Hd0 & R4 & _ & _ & _ & S3 & S4
                 & S5 & _).
  unfold de, entries, new_ino, root_size in *.
  rewrite (image_block_pread _ _ _ R1), (image_block_pread _ _ _ R3),
    (image_block_pread _ _ _ R4) in *.
  set (ino := bitmap_find_free inode_bmap 64) in *.
  set (e := get32 inode_block_buf INODE_SIZE_OFF / SIZEOF_DIRENT) in *.
  pose proof (get32_range inode_block_buf INODE_SIZE_OFF) as Hsz.
  assert (He : 0 <= e) by (unfold e; apply Z.div_pos; [lia | reflexivity]).
  assert (Hlt : e < 128).
  { pose proof (pread_length _ _ _ _ R4) as L4.
    destruct (Z.lt_ge_cases e 128) as [|Hge]; [assumption|].
    rewrite store_undefined in S3; [discriminate|].
    rewrite L4, length_le_split. change SIZEOF_DIRENT with 32. lia. }
  assert (Hino64 : ino < 64).
  { pose proof (bitmap_find_free_answer inode_bmap 64) as Ha.
    fold ino in Ha. destruct Ha as [[Hr _] | (Hrange & _)]; lia. }
  change SIZEOF_DIRENT with 32 in *.
  split; [exact Hd0|]. split; [lia|]. split; [|split; [|split]].
  - unfold get32.
    rewrite (slice_store_apart _ _ _ _ _ _ S5)
      by (cbn [length]; lia).
    rewrite (slice_store_apart _ _ _ _ _ _ S4)
      by (rewrite ?length_strncpy; lia).
    pose proof (slice_store _ _ _ _ S3) as Hs.
    rewrite length_le_split in Hs. rewrite Hs, le_combine_split.
    apply (u32_small ino). lia.
  - rewrite Hname, length_app, length_strncpy. reflexivity.
  - rewrite Hname, app_nth2 by (rewrite length_strncpy; lia).
    rewrite length_strncpy. reflexivity.
  - pose proof (store_same_outside _ _ _ _ S3) as O3.
    pose proof (store_same_outside _ _ _ _ S4) as O4.
    pose proof (store_same_outside _ _ _ _ S5) as O5.
    rewrite length_le_split in O3. rewrite length_strncpy in O4.
    cbn [length] in O5.
    apply same_outside_trans
      with (b := dir2) (off1 := e * 32 + 4 + 27) (len1 := 1)
           (off2 := e * 32) (len2 := 31); try lia; [exact O5|].
    apply same_outside_trans
      with (b := dir1) (off1 := e * 32 + 4) (len1 := 27)
           (off2 := e * 32) (len2 := 4); try lia; [exact O4 | exact O3].
Qed.

(** X12.  The root-inode image that a creation journals is the first
    inode-table block of the image with the size of the root inode
    increased by 32 (on 32 bits) and its modification time replaced;
    no other byte of the block differs. *)
Theorem create_root_image (sb : superblock) (filename : buffer)
    (now : stamps) (d : disk) (im : create_images)
    (Hbuild : snd (create_build sb filename now d) = Ret im) :
  let old := image_block d (inode_start sb) in
  let new := new_root_inode_block im in
  get32 new INODE_SIZE_OFF = u32 (root_size sb d + SIZEOF_DIRENT) /\
  get32 new INODE_MTIME_OFF = u32 (root_mtime_now now) /\
  get32 new INODE_DIRECT_OFF = get32 old INODE_DIRECT_OFF /\
  length new = length old /\
  forall i, ~ 4 <= Z.of_nat i < 8 -> ~ 44 <= Z.of_nat i < 48 ->
            nth i new Byte.x00 = nth i old Byte.x00.
Proof.
  intros old new. unfold old, new, root_size.
  apply create_build_inv in Hbuild.
  destruct Hbuild as (inode_bmap & data_bmap & inode_block_buf & dir_block
                 & inode_block & dir1 & dir2 & root1 & H).
  cbv zeta in H.
  destruct H as (_ & _ & _ & _ & R3 & _ & _ & _ & _ & _ & _ & _ & _ & S6 & S7).
  rewrite (image_block_pread _ _ _ R3).
  change INODE_SIZE_OFF with 4 in *. change INODE_MTIME_OFF with 44 in *.
  change INODE_DIRECT_OFF with 8.
  pose proof (store_same_outside _ _ _ _ S6) as [L6 O6].
  pose proof (store_same_outside _ _ _ _ S7) as [L7 O7].
  rewrite length_le_split in O6, O7.
  split; [|split; [|split; [|split]]].
  - unfold get32.
    rewrite (slice_store_apart _ _ _ _ _ _ S7)
      by (rewrite ?length_le_split; lia).
    pose proof (slice_store _ _ _ _ S6) as Hs.
    rewrite length_le_split in Hs. rewrite Hs. apply le_combine_split.
  - unfold get32. pose proof (slice_store _ _ _ _ S7) as Hs.
    rewrite length_le_split in Hs. rewrite Hs. apply le_combine_split.
  - unfold get32.
    rewrite (slice_store_apart _ _ _ _ _ _ S7)
      by (rewrite ?length_le_split; lia).
    rewrite (slice_store_apart _ _ _ _ _ _ S6)
      by (rewrite ?length_le_split; lia).
    reflexivity.
  - congruence.
  - intros i H1 H2. rewrite O7 by lia. apply O6. lia.
Qed.

(** ** A creation after a creation *)

Lemma bind_defined_eq {A B} (o : option A) (a : A) (k : A -> io B) (d : disk) :
  o = Some a -> bind (defined o) k d = k a d.
Proof. intros ->. reflexivity. Qed.

(** [create_build] depends on the image through five blocks only. *)
Lemma create_build_transfer (sb : superblock) (filename : buffer)
    (now : stamps) (d d' : disk) (im : create_images) :
  snd (create_build sb filename now d) = Ret im ->
  (forall blk b,
      blk = inode_bitmap sb \/ blk = data_bitmap sb \/ blk = inode_start sb
      \/ blk = root_direct0 im \/ blk = inode_block_num im ->
      pread d (block_off blk) 4096 = Some b ->
      pread d' (block_off blk) 4096 = Some b) ->
  snd (create_build sb filename now d') = Ret im.
Proof.
  intros H Hsame. apply create_build_inv in H.
  destruct H as (inode_bmap & data_bmap & inode_block_buf & dir_block
                 & inode_block & dir1 & dir2 & root1 & H).
  cbv zeta in H.
  destruct H as (R1 & R2 & Hino & S1 & R3 & Hd0 & R4 & Hnum & R5 & S2
                 & S3 & S4 & S5 & S6 & S7).
  apply Hsame in R1, R2, R3, R4, R5; auto 6.
  rewrite Hd0 in R4. rewrite Hnum in R5.
  unfold create_build.
  rewrite (bind_eq _ _ _ _ _ (read_block_eq _ _ _ R1)).
  rewrite (bind_eq _ _ _ _ _ (read_block_eq _ _ _ R2)).
  cbv zeta. apply Z.ltb_ge in Hino. rewrite Hino.
  rewrite (bind_defined_eq _ _ _ _ S1).
  rewrite (bind_eq _ _ _ _ _ (read_block_eq _ _ _ R3)).
  rewrite (bind_eq _ _ _ _ _ (read_block_eq _ _ _ R4)).
  rewrite (bind_eq _ _ _ _ _ (read_block_eq _ _ _ R5)).
  rewrite (bind_defined_eq _ _ _ _ S2).
  rewrite (bind_defined_eq _ _ _ _ S3).
  rewrite (bind_defined_eq _ _ _ _ S4).
  rewrite (bind_defined_eq _ _ _ _ S5).
  rewrite (bind_defined_eq _ _ _ _ S6).
  rewrite (bind_defined_eq _ _ _ _ S7).
  cbn [ret snd]. destruct im. cbn in *. subst. reflexivity.
Qed.

(** X13.  A creation does not see the creations journaled before it:
    run after any other creation, with no install in between, it builds
    exactly the block images it would have built before, hence chooses
    the same inode number and the same directory slot. *)
Theorem create_after_create_builds_same (sb : superblock)
    (filename filename0 : buffer) (now now0 : stamps) (d : disk)
    (im : create_images)
    (Hregion : journal_base sb + JOURNAL_CAPACITY < 2 ^ 32)
    (Hbuild : snd (create_build sb filename now d) = Ret im)
    (Hbitmap : block_apart sb (inode_bitmap sb))
    (Hdata : block_apart sb (data_bitmap sb))
    (Htable : block_apart sb (inode_start sb))
    (Hdir : block_apart sb (root_direct0 im))
    (Hinode : block_apart sb (inode_block_num im)) :
  snd (create_build sb filename now
         (fst (cmd_create sb filename0 now0 d))) = Ret im.
Proof.
  apply create_build_transfer with (d := d); [exact Hbuild|].
  pose proof (journal_only_cmd_create sb filename0 now0 Hregion d) as Hlive.
  intros blk b Hblk Hb.
  apply (live_preserved_pread sb d _ (block_off blk) 4096 b Hlive);
    [|exact Hb].
  unfold block_apart in *. change BLOCK_SIZE with 4096 in *.
  destruct Hblk as [-> | [-> | [-> | [-> | ->]]]]; assumption.
Qed.

(** ** Records, as written and as read *)

Lemma data_record_fields (blk : Z) (data : buffer) :
  get16 (encode_data_record blk data) 0 = REC_DATA /\
  get16 (encode_data_record blk data) 2 = SIZEOF_DATA_RECORD /\
  get32 (encode_data_record blk data) 4 = u32 blk /\
  slice (encode_data_record blk data) 8 (length data) = data.
Proof.
  repeat split.
  - unfold get32.
    change (slice (encode_data_record blk data) 4 4) with
      (slice (le_split 4 blk ++ data) 0 4).
    rewrite slice_le_split_head. apply le_combine_split.
  - change (slice (encode_data_record blk data) 8 (length data)) with
      (slice data 0 (length data)).
    unfold slice. cbn [Z.to_nat skipn]. apply firstn_all.
Qed.

(** ** Install, again *)

Lemma cmd_install_applied (fuel : nat) (sb : superblock) (d d' : disk)
    (stop : option Z) :
  cmd_install fuel sb d = Some (d', Ret (Applied stop)) ->
  d' = pwrite d (journal_base sb) empty_journal_header.
Proof.
  unfold cmd_install, read_journal_header, read_at.
  change (Z.to_nat SIZEOF_JOURNAL_HEADER) with 8%nat.
  fold (journal_base sb).
  destruct (pread d (journal_base sb) 8) as [jh|]; [|discriminate].
  destruct (jh_magic jh =? JOURNAL_MAGIC) eqn:Hmagic; cbn [negb];
    [|discriminate].
  apply Z.eqb_eq in Hmagic.
  destruct (nbytes_used jh =? SIZEOF_JOURNAL_HEADER); [discriminate|].
  destruct (install_loop fuel sb (nbytes_used jh) SIZEOF_JOURNAL_HEADER
              false d) as [[d2 r2]|] eqn:Hloop; [|discriminate].
  apply install_loop_idle in Hloop. destruct Hloop as [-> _].
  destruct r2 as [s | msg |]; [|discriminate|discriminate].
  cbn [bind write_at ret]. intros [= <- _]. now rewrite Hmagic.
Qed.

Lemma cmd_install_empty (fuel : nat) (sb : superblock) (d : disk) :
  header_is sb d JOURNAL_MAGIC SIZEOF_JOURNAL_HEADER ->
  cmd_install fuel sb d = Some (d, Ret JournalEmpty).
Proof.
  intros (jh & Hjh & Hm & Hu). unfold cmd_install.
  rewrite (read_journal_header_eq sb d jh Hjh).
  now rewrite Hm, Hu, !Z.eqb_refl.
Qed.

(** X15.  An install that follows a completed install finds the journal
    empty: it reports that, writes nothing, and needs no fuel. *)
Theorem install_after_install (fuel : nat) (sb : superblock) (d d' : disk)
    (stop : option Z)
    (Hrun : cmd_install fuel sb d = Some (d', Ret (Applied stop))) :
  forall fuel', cmd_install fuel' sb d' = Some (d', Ret JournalEmpty).
Proof.
  intros fuel'. apply cmd_install_applied in Hrun. subst d'.
  apply cmd_install_empty, header_is_empty_written.
Qed.

(** The loop ends when every data or commit record that the scan meets
    has a size. *)
Lemma install_loop_ends (sb : superblock) (used : Z) (d : disk) :
  used <= 2 ^ 32 - 2 ^ 16 ->
  forall n pos,
    (forall m p rh,
        scan_to m sb used pos d = Some p -> p < used ->
        pread d (journal_off sb p) 4 = Some rh ->
        get16 rh 0 = REC_DATA \/ get16 rh 0 = REC_COMMIT ->
        get16 rh 2 <> 0) ->
    8 <= pos -> used - pos < Z.of_nat n -> (0 < n)%nat ->
    exists x, install_loop n sb used pos false d = Some x.
Proof.
  intros Hused n.
  induction n as [|n IH]; intros pos Hsize Hpos Hn Hn0; [lia|].
  cbn [install_loop].
  destruct (pos <? used) eqn:Hlt; [|eauto].
  destruct (install_step_idle sb pos d) as (Hd & _ & Hf).
  destruct (install_step sb pos false d) as [d1 [[pos' flag' | t] | msg |]]
    eqn:Hstep; cbn [fst snd] in *; subst d1; eauto.
  rewrite (Hf pos' flag' eq_refl).
  assert (Hnext : forall m p rh,
             scan_to m sb used pos' d = Some p -> p < used ->
             pread d (journal_off sb p) 4 = Some rh ->
             get16 rh 0 = REC_DATA \/ get16 rh 0 = REC_COMMIT ->
             get16 rh 2 <> 0).
  { intros m p rh Hs. apply (Hsize (S m)).
    cbn [scan_to]. now rewrite Hlt, Hstep. }
  apply Z.ltb_lt in Hlt.
  assert (Hpos' : pos < pos' /\ 8 <= pos').
  { unfold install_step, bind, read_at in Hstep.
    change (Z.to_nat SIZEOF_REC_HEADER) with 4%nat in Hstep.
    destruct (pread d (journal_off sb pos) 4) as [rh|] eqn:Hrh;
      [|discriminate].
    pose proof (Hsize O pos rh eq_refl Hlt Hrh) as Hnz.
    pose proof (get16_range rh 2) as Hr.
    assert (Hsum : u32 (pos + get16 rh 2) = pos + get16 rh 2)
      by (apply u32_small; lia).
    destruct (get16 rh 0 =? REC_DATA) eqn:Hdata.
    - apply Z.eqb_eq in Hdata.
      destruct (pread d (journal_off sb pos) (Z.to_nat SIZEOF_DATA_RECORD));
        [|discriminate].
      cbn [ret] in Hstep. injection Hstep as <- _.
      specialize (Hnz (or_introl Hdata)). lia.
    - destruct (get16 rh 0 =? REC_COMMIT) eqn:Hcommit; [|discriminate].
      apply Z.eqb_eq in Hcommit.
      destruct (pread d (journal_off sb pos) (Z.to_nat SIZEOF_COMMIT_RECORD));
        [|discriminate].
      cbn [ret] in Hstep. injection Hstep as <- _.
      specialize (Hnz (or_intror Hcommit)). lia. }
  apply IH; [exact Hnext | lia | lia | lia].
Qed.

(** X16.  On a journal whose [nbytes_used] is within the capacity,
    [cmd_install] completes when no record header that the scan meets
    on its way from offset 8, one size field after the other, is a
    data or commit header of size zero; bytes that only lie inside a
    payload are not looked at.  [nbytes_used + 1] turns of the loop are
    enough. *)
Theorem install_terminates (sb : superblock) (d : disk) (jh : buffer)
    (Hjh : pread d (journal_base sb) 8 = Some jh)
    (Hused : nbytes_used jh <= JOURNAL_CAPACITY)
    (Hsize : forall n pos rh,
        scan_to n sb (nbytes_used jh) SIZEOF_JOURNAL_HEADER d = Some pos ->
        pos < nbytes_used jh ->
        pread d (journal_off sb pos) 4 = Some rh ->
        get16 rh 0 = REC_DATA \/ get16 rh 0 = REC_COMMIT ->
        get16 rh 2 <> 0) :
  exists x, cmd_install (S (Z.to_nat (nbytes_used jh))) sb d = Some x.
Proof.
  unfold cmd_install. rewrite (read_journal_header_eq sb d jh Hjh).
  destruct (negb (jh_magic jh =? JOURNAL_MAGIC)); [eauto|].
  destruct (nbytes_used jh =? SIZEOF_JOURNAL_HEADER); [eauto|].
  pose proof (nbytes_used_range jh) as Hr.
  change JOURNAL_CAPACITY with 65536 in Hused.
  destruct (install_loop_ends sb (nbytes_used jh) d ltac:(lia)
              (S (Z.to_nat (nbytes_used jh))) SIZEOF_JOURNAL_HEADER Hsize)
    as ([d2 r2] & ->).
  - change SIZEOF_JOURNAL_HEADER with 8. lia.
  - change SIZEOF_JOURNAL_HEADER with 8. lia.
  - lia.
  - destruct r2; eauto.
Qed.

(** A loop with less fuel than the scan has turns does not end. *)
Lemma install_loop_short (sb : superblock) (used : Z) (n : nat) :
  forall pos flag d s k,
    scan_steps n sb used pos flag d = Some s -> (k <= n)%nat ->
    install_loop k sb used pos flag d = None.
Proof.
  induction n as [|n IH]; intros pos flag d s k H Hk.
  - replace k with 0%nat by lia. reflexivity.
  - destruct k as [|k]; [reflexivity|].
    cbn [scan_steps] in H. cbn [install_loop].
    destruct (pos <? used); [|discriminate].
    destruct (install_step sb pos flag d) as [d1 [[pos1 flag1 | t] | msg |]];
      try discriminate.
    apply (IH _ _ _ s); [exact H | lia].
Qed.

(** X17.  When the scan reaches, before [nbytes_used], a commit record
    whose size field is zero, [cmd_install] never completes: the loop
    stays on that record, whatever the fuel. *)
Theorem install_hangs_on_empty_commit (sb : superblock) (d dn : disk)
    (jh rh : buffer) (n : nat) (p : Z) (flag : bool)
    (Hjh : pread d (journal_base sb) 8 = Some jh)
    (Hmagic : jh_magic jh = JOURNAL_MAGIC)
    (Hnonempty : nbytes_used jh <> SIZEOF_JOURNAL_HEADER)
    (Hscan : scan_steps n sb (nbytes_used jh) SIZEOF_JOURNAL_HEADER false d
             = Some (p, flag, dn))
    (Hrange : 0 <= p < 2 ^ 32)
    (Hbefore : p < nbytes_used jh)
    (Hrh : pread dn (journal_off sb p) 4 = Some rh)
    (Htype : get16 rh 0 = REC_COMMIT)
    (Hsize : get16 rh 2 = 0) :
  forall fuel, cmd_install fuel sb d = None.
Proof.
  intros fuel. unfold cmd_install.
  rewrite (read_journal_header_eq sb d jh Hjh).
  rewrite Hmagic, Z.eqb_refl. cbn [negb].
  apply Z.eqb_neq in Hnonempty. rewrite Hnonempty.
  destruct (Nat.le_gt_cases fuel n) as [Hle | Hgt].
  - now rewrite (install_loop_short sb _ n _ _ _ _ fuel Hscan Hle).
  - replace fuel with (n + (fuel - n))%nat by lia.
    rewrite (install_loop_scan sb _ n _ _ _ p flag dn _ Hscan).
    now rewrite (install_loop_spins sb _ p dn rh Hrange Hbefore Hrh
                   Htype Hsize).
Qed.

(** ** Install after a creation *)

Lemma firstn_bytes_from (f : Z -> byte) (m n : nat) :
  forall off, (m <= n)%nat ->
    firstn m (bytes_from f off n) = bytes_from f off m.
Proof.
  revert n. induction m as [|m IH]; intros n off Hmn; [reflexivity|].
  destruct n as [|n]; [lia|]. cbn [bytes_from firstn]. f_equal.
  apply IH. lia.
Qed.

Lemma pread_prefix (d : disk) (off : Z) (n m : nat) (b : buffer) :
  pread d off n = Some b -> (m <= n)%nat ->
  pread d off m = Some (firstn m b).
Proof.
  intros H Hmn. destruct n as [|n].
  { replace m with O by lia. reflexivity. }
  pose proof (pread_inside _ _ _ _ H ltac:(discriminate)) as Hin.
  rewrite pread_defined in H by exact Hin.
  assert (E : b = bytes_from (dat d) off (S n)) by congruence.
  rewrite pread_defined by lia. now rewrite E, firstn_bytes_from.
Qed.

Lemma install_step_data (sb : superblock) (pos blk : Z) (data : buffer)
    (d : disk) :
  pread d (journal_off sb pos) 4104 = Some (encode_data_record blk data) ->
  install_step sb pos false d
  = (d, Ret (Continue (u32 (pos + SIZEOF_DATA_RECORD)) false)).
Proof.
  intros H. pose proof (pread_prefix _ _ _ 4 _ H ltac:(lia)) as H4.
  change (firstn 4 (encode_data_record blk data))
    with (le_split 2 REC_DATA ++ le_split 2 SIZEOF_DATA_RECORD) in H4.
  unfold install_step, bind, read_at.
  change (Z.to_nat SIZEOF_REC_HEADER) with 4%nat.
  change (Z.to_nat SIZEOF_DATA_RECORD) with 4104%nat.
  rewrite H4.
  change (get16 (le_split 2 REC_DATA ++ le_split 2 SIZEOF_DATA_RECORD) 0)
    with REC_DATA.
  change (get16 (le_split 2 REC_DATA ++ le_split 2 SIZEOF_DATA_RECORD) 2)
    with SIZEOF_DATA_RECORD.
  rewrite Z.eqb_refl, H. reflexivity.
Qed.

Lemma install_step_commit (sb : superblock) (pos : Z) (flag : bool)
    (d : disk) :
  pread d (journal_off sb pos) 4 = Some encode_commit_record ->
  install_step sb pos flag d
  = (d, Ret (Continue (u32 (pos + SIZEOF_COMMIT_RECORD)) false)).
Proof.
  intros H. unfold install_step, bind, read_at.
  change (Z.to_nat SIZEOF_REC_HEADER) with 4%nat.
  change (Z.to_nat SIZEOF_COMMIT_RECORD) with 4%nat.
  rewrite H.
  change (get16 encode_commit_record 0) with REC_COMMIT.
  change (get16 encode_commit_record 2) with SIZEOF_COMMIT_RECORD.
  change (REC_COMMIT =? REC_DATA) with false.
  rewrite Z.eqb_refl, H. reflexivity.
Qed.

Lemma install_loop_turn (fuel : nat) (sb : superblock) (used pos pos' : Z)
    (flag flag' : bool) (d : disk) :
  pos < used ->
  install_step sb pos flag d = (d, Ret (Continue pos' flag')) ->
  install_loop (S fuel) sb used pos flag d
  = install_loop fuel sb used pos' flag' d.
Proof.
  intros Hlt Hstep. cbn [install_loop].
  apply Z.ltb_lt in Hlt. now rewrite Hlt, Hstep.
Qed.

(** X14.  The record format round-trips between [cmd_create] and the
    loop of [cmd_install].  On a journal that holds, at the position of
    the scan, a data record as [cmd_create] encodes it for block [blk]
    with a payload of 4096 bytes, one turn of the loop takes the data
    branch, goes on 4104 bytes further with the flag unchanged, and,
    when the flag is set, writes exactly that payload to block [blk]
    (on 32 bits); it writes nothing when the flag is clear.  On the
    commit record as [cmd_create] encodes it, the turn takes the commit
    branch, writes nothing and goes on 4 bytes further with the flag
    clear. *)
Theorem record_round_trip (sb : superblock) (pos blk : Z) (data : buffer)
    (flag : bool) (d : disk)
    (Hlen : length data = 4096%nat)
    (Hregion : journal_base sb + JOURNAL_CAPACITY < 2 ^ 32)
    (Hpos : 0 <= pos) :
  (pos + SIZEOF_DATA_RECORD <= JOURNAL_CAPACITY ->
   journal_holds sb d pos (encode_data_record blk data) ->
   install_step sb pos flag d
   = (if flag then fst (write_block (u32 blk) data d) else d,
      Ret (Continue (pos + SIZEOF_DATA_RECORD) flag)))
  /\ (pos + SIZEOF_COMMIT_RECORD <= JOURNAL_CAPACITY ->
      journal_holds sb d pos encode_commit_record ->
      install_step sb pos flag d
      = (d, Ret (Continue (pos + SIZEOF_COMMIT_RECORD) false))).
Proof.
  pose proof (block_off_range (journal_block sb)) as Hb.
  unfold journal_base in Hregion.
  change JOURNAL_CAPACITY with 65536 in *.
  assert (Hoff : pos <= 65536 ->
                 journal_off sb pos = journal_base sb + pos)
    by (intros Hle; unfold journal_off, journal_base; apply u32_small; lia).
  split.
  - change SIZEOF_DATA_RECORD with 4104. intros Hend Hrec.
    unfold journal_holds in Hrec.
    rewrite length_encode_data_record, Hlen in Hrec.
    change (8 + 4096)%nat with 4104%nat in Hrec.
    rewrite <- Hoff in Hrec by lia.
    pose proof (pread_prefix _ _ _ 4 _ Hrec ltac:(lia)) as H4.
    change (firstn 4 (encode_data_record blk data))
      with (le_split 2 REC_DATA ++ le_split 2 SIZEOF_DATA_RECORD) in H4.
    destruct (data_record_fields blk data) as (_ & _ & Fblk & Fdata).
    rewrite Hlen in Fdata.
    unfold install_step, bind, read_at.
    change (Z.to_nat SIZEOF_REC_HEADER) with 4%nat.
    change (Z.to_nat SIZEOF_DATA_RECORD) with 4104%nat.
    rewrite H4.
    change (get16 (le_split 2 REC_DATA ++ le_split 2 SIZEOF_DATA_RECORD) 0)
      with REC_DATA.
    change (get16 (le_split 2 REC_DATA ++ le_split 2 SIZEOF_DATA_RECORD) 2)
      with 4104.
    rewrite Z.eqb_refl, Hrec.
    change (Z.to_nat BLOCK_SIZE) with 4096%nat.
    rewrite Fblk, Fdata. rewrite (u32_small (pos + 4104)) by lia.
    now destruct flag.
  - change SIZEOF_COMMIT_RECORD with 4. intros Hend Hrec.
    unfold journal_holds in Hrec.
    change (length encode_commit_record) with 4%nat in Hrec.
    rewrite <- Hoff in Hrec by lia.
    rewrite (install_step_commit sb pos flag d Hrec).
    change SIZEOF_COMMIT_RECORD with 4. now rewrite u32_small by lia.
Qed.

(** X18.  On an image with an empty initialised journal, a creation that
    builds its images can be installed: the scan reads back the four
    data records and the commit record that the creation appended,
    ends at [nbytes_used], and the install returns after "Applied
    journaled changes" with the journal empty again; six turns of the
    loop are enough. *)
Theorem create_then_install_completes (sb : superblock) (filename : buffer)
    (now : stamps) (d : disk) (im : create_images) (fuel : nat)
    (Hheader : header_is sb d JOURNAL_MAGIC SIZEOF_JOURNAL_HEADER)
    (Hregion : journal_base sb + JOURNAL_CAPACITY < 2 ^ 32)
    (Hbuild : snd (create_build sb filename now d) = Ret im)
    (Hfuel : (6 <= fuel)%nat) :
  let d1 := fst (cmd_create sb filename now d) in
  let d2 := pwrite d1 (journal_base sb) empty_journal_header in
  snd (cmd_create sb filename now d) = Ret Created /\
  cmd_install fuel sb d1 = Some (d2, Ret (Applied None)) /\
  header_is sb d2 JOURNAL_MAGIC SIZEOF_JOURNAL_HEADER.
Proof.
  intros d1 d2.
  destruct (create_build_lengths _ _ _ _ _ Hbuild) as (L1 & L2 & L3 & L4).
  change SIZEOF_JOURNAL_HEADER with 8 in Hheader.
  destruct (create_log_records sb im d JOURNAL_MAGIC 8 L1 L2 L3 L4
              Hheader ltac:(lia) Hregion ltac:(vm_compute; discriminate))
    as (e & Hlog & Hh & J1 & J2 & J3 & J4 & J5 & _).
  assert (Hc : cmd_create sb filename now d = (e, Ret Created)).
  { unfold cmd_create.
    rewrite (bind_eq _ _ _ _ _ (init_journal_initialized sb d 8 Hheader)).
    rewrite (bind_eq _ _ _ _ _ (create_build_eq _ _ _ _ _ Hbuild)).
    exact Hlog. }
  unfold d2, d1. rewrite Hc. cbn [fst snd].
  split; [reflexivity|]. split; [|apply header_is_empty_written].
  unfold journal_holds in J1, J2, J3, J4, J5.
  rewrite length_encode_data_record, L1 in J1.
  rewrite length_encode_data_record, L2 in J2.
  rewrite length_encode_data_record, L3 in J3.
  rewrite length_encode_data_record, L4 in J4.
  rewrite length_encode_commit_record in J5.
  change (8 + 4096)%nat with 4104%nat in J1, J2, J3, J4.
  pose proof (block_off_range (journal_block sb)) as Hb.
  change JOURNAL_CAPACITY with 65536 in Hregion.
  assert (Hoff : forall pos, 0 <= pos <= 65536 ->
                   journal_base sb + pos = journal_off sb pos).
  { intros pos Hpos. unfold journal_off, journal_base in *.
    symmetry. apply u32_small. lia. }
  rewrite Hoff in J1, J2, J3, J4, J5 by lia.
  apply install_step_data in J1, J2, J3, J4.
  apply (install_step_commit sb _ false) in J5.
  change (u32 (8 + SIZEOF_DATA_RECORD)) with 4112 in J1.
  change (8 + 4104) with 4112 in J2.
  change (u32 (4112 + SIZEOF_DATA_RECORD)) with 8216 in J2.
  change (8 + 8208) with 8216 in J3.
  change (u32 (8216 + SIZEOF_DATA_RECORD)) with 12320 in J3.
  change (8 + 12312) with 12320 in J4.
  change (u32 (12320 + SIZEOF_DATA_RECORD)) with 16424 in J4.
  change (8 + 16416) with 16424 in J5.
  change (u32 (16424 + SIZEOF_COMMIT_RECORD)) with 16428 in J5.
  destruct Hh as (jh & Hjh & Hm & Hu).
  change (8 + TRANSACTION_SIZE) with 16428 in Hu.
  replace fuel with (6 + (fuel - 6))%nat by lia.
  apply cmd_install_more_fuel.
  unfold cmd_install. rewrite (read_journal_header_eq sb e jh Hjh).
  rewrite Hm, Hu. cbn [negb Z.eqb JOURNAL_MAGIC Pos.eqb SIZEOF_JOURNAL_HEADER].
  rewrite (install_loop_turn _ sb 16428 8 _ _ _ e ltac:(lia) J1).
  rewrite (install_loop_turn _ sb 16428 4112 _ _ _ e ltac:(lia) J2).
  rewrite (install_loop_turn _ sb 16428 8216 _ _ _ e ltac:(lia) J3).
  rewrite (install_loop_turn _ sb 16428 12320 _ _ _ e ltac:(lia) J4).
  rewrite (install_loop_turn _ sb 16428 16424 _ _ _ e ltac:(lia) J5).
  cbn [install_loop]. rewrite Z.ltb_irrefl.
  reflexivity.
Qed.

Lemma readonly_read_superblock : readonly read_superblock.
Proof. unfold read_superblock. cbv zeta. readonly_steps. Qed.

Lemma read_superblock_eq (d : disk) (sb : superblock) :
  snd (read_superblock d) = Ret sb -> read_superblock d = (d, Ret sb).
Proof.
  intros H. rewrite (surjective_pairing (read_superblock d)).
  now rewrite H, readonly_read_superblock.
Qed.

(** X19.  [main] ends with status 0 after every creation that returns,
    the one that found the journal full included. *)
Theorem main_create_exit_status (fuel : nat) (now : stamps)
    (argv : list buffer) (d : disk) (sb : superblock) (r : create_report)
    (Hargc : (4 <= length argv)%nat)
    (Hcmd : strcmp_eq (arg argv 2) CMD_CREATE = true)
    (Hsb : snd (read_superblock d) = Ret sb)
    (Hrun : snd (cmd_create sb (arg argv 3) now d) = Ret r) :
  main fuel now argv (Some d)
  = Some (Some (fst (cmd_create sb (arg argv 3) now d)), Ret 0).
Proof.
  unfold main.
  destruct (Nat.ltb_spec (length argv) 3) as [|_]; [lia|].
  rewrite (read_superblock_eq d sb Hsb), Hcmd.
  destruct (Nat.ltb_spec (length argv) 4) as [|_]; [lia|].
  destruct (cmd_create sb (arg argv 3) now d) as [d2 o].
  cbn [fst snd] in *. now rewrite Hrun.
Qed.



(** ** The allocator reads its capacity only *)

Lemma find_free_from_ext (a b : buffer) (n : nat) :
  forall i,
    (forall j, i <= j < i + Z.of_nat n -> bitmap_test a j = bitmap_test b j) ->
    find_free_from a n i = find_free_from b n i.
Proof.
  induction n as [|n IH]; intros i H; [reflexivity|].
  cbn [find_free_from]. rewrite (H i) by lia.
  destruct (bitmap_test b i); cbn [negb]; [|reflexivity].
  apply IH. intros j Hj. apply H. lia.
Qed.

(** X21.  [bitmap_find_free] consults the bits below the capacity only:
    two bitmaps that agree on them get the same answer. *)
Theorem find_free_reads_capacity_only (a b : buffer) (max : Z)
    (Hsame : forall j, 0 <= j < max -> bitmap_test a j = bitmap_test b j) :
  bitmap_find_free a max = bitmap_find_free b max.
Proof.
  unfold bitmap_find_free. apply find_free_from_ext.
  intros j Hj. apply Hsame. lia.
Qed.

(** ** Creations in a row *)

Lemma store_bounds (buf src b : buffer) (off : Z) :
  store buf off src = Some b ->
  0 <= off /\ off + Z.of_nat (length src) <= Z.of_nat (length buf).
Proof.
  unfold store.
  destruct (0 <=? off) eqn:H0; [|discriminate].
  destruct (off + Z.of_nat (length src) <=? Z.of_nat (length buf)) eqn:H1;
    [|discriminate].
  intros _. apply Z.leb_le in H0, H1. now split.
Qed.

Lemma store_again (buf src src' b : buffer) (off : Z) :
  store buf off src = Some b -> length src' = length src ->
  exists b', store buf off src' = Some b'.
Proof.
  intros H Hl. apply store_bounds in H. apply store_defined; lia.
Qed.

(** Whether and where [create_build] builds does not depend on the
    name nor on the time. *)
Lemma create_build_any_name (sb : superblock) (filename filename' : buffer)
    (now now' : stamps) (d : disk) (im : create_images) :
  snd (create_build sb filename now d) = Ret im ->
  exists im',
    snd (create_build sb filename' now' d) = Ret im' /\
    root_direct0 im' = root_direct0 im /\
    inode_block_num im' = inode_block_num im.
Proof.
  intros H. apply create_build_inv in H.
  destruct H as (inode_bmap & data_bmap & inode_block_buf & dir_block
                 & inode_block & dir1 & dir2 & root1 & H).
  cbv zeta in H.
  destruct H as (R1 & R2 & Hino & S1 & R3 & Hd0 & R4 & Hnum & R5 & S2
                 & S3 & S4 & S5 & S6 & S7).
  rewrite Hd0 in R4. rewrite Hnum in R5.
  destruct (store_again _ _ (encode_new_inode (ctime_now now') (mtime_now now'))
              _ _ S2 eq_refl) as (nib' & S2').
  destruct (store_again _ _ (strncpy filename' 27) _ _ S4) as (dir2' & S4');
    [now rewrite !length_strncpy|].
  destruct (store_defined dir2' [Byte.x00]
              (get32 inode_block_buf INODE_SIZE_OFF
               / SIZEOF_DIRENT * SIZEOF_DIRENT + 4 + 27)) as (ndb' & S5').
  { apply store_bounds in S5. lia. }
  { apply store_bounds in S5. apply length_store in S4, S4'.
    cbn [length] in *. lia. }
  destruct (store_again _ _ (le_split 4 (root_mtime_now now')) _ _ S7)
    as (nrb' & S7'); [now rewrite !length_le_split|].
  eexists. split; [|split].
  - unfold create_build.
    rewrite (bind_eq _ _ _ _ _ (read_block_eq _ _ _ R1)).
    rewrite (bind_eq _ _ _ _ _ (read_block_eq _ _ _ R2)).
    cbv zeta. apply Z.ltb_ge in Hino. rewrite Hino.
    rewrite (bind_defined_eq _ _ _ _ S1).
    rewrite (bind_eq _ _ _ _ _ (read_block_eq _ _ _ R3)).
    rewrite (bind_eq _ _ _ _ _ (read_block_eq _ _ _ R4)).
    rewrite (bind_eq _ _ _ _ _ (read_block_eq _ _ _ R5)).
    rewrite (bind_defined_eq _ _ _ _ S2').
    rewrite (bind_defined_eq _ _ _ _ S3).
    rewrite (bind_defined_eq _ _ _ _ S4').
    rewrite (bind_defined_eq _ _ _ _ S5').
    rewrite (bind_defined_eq _ _ _ _ S6).
    rewrite (bind_defined_eq _ _ _ _ S7').
    reflexivity.
  - cbn [root_direct0]. now rewrite Hd0.
  - cbn [inode_block_num]. now rewrite Hnum.
Qed.

Lemma buildable_of_build (sb : superblock) (filename : buffer) (now : stamps)
    (d : disk) (im : create_images) :
  snd (create_build sb filename now d) = Ret im ->
  block_apart sb (root_direct0 im) -> block_apart sb (inode_block_num im) ->
  buildable sb d.
Proof.
  intros H Hd Hi filename' now'.
  destruct (create_build_any_name sb filename filename' now now' d im H)
    as (im' & H' & E1 & E2).
  exists im'. rewrite E1, E2. repeat split; assumption.
Qed.

Lemma buildable_live (sb : superblock) (d d' : disk) :
  block_apart sb (inode_bitmap sb) -> block_apart sb (data_bitmap sb) ->
  block_apart sb (inode_start sb) ->
  live_preserved sb d d' -> buildable sb d -> buildable sb d'.
Proof.
  intros Hb Hdb Ht Hlive Hbuild filename now.
  destruct (Hbuild filename now) as (im & H & Hd & Hi).
  exists im. split; [|split; assumption].
  apply create_build_transfer with (d := d); [exact H|].
  intros blk b Hblk Hr.
  apply (live_preserved_pread sb d d' (block_off blk) 4096 b Hlive);
    [|exact Hr].
  unfold block_apart in *. change BLOCK_SIZE with 4096 in *.
  destruct Hblk as [-> | [-> | [-> | [-> | ->]]]]; assumption.
Qed.

(** One creation on a buildable image with an initialised journal. *)
Lemma create_turn (sb : superblock) (filename : buffer) (now : stamps)
    (d : disk) (u : Z) :
  journal_base sb + JOURNAL_CAPACITY < 2 ^ 32 ->
  block_apart sb (inode_bitmap sb) -> block_apart sb (data_bitmap sb) ->
  block_apart sb (inode_start sb) ->
  buildable sb d -> header_is sb d JOURNAL_MAGIC u ->
  let d' := fst (cmd_create sb filename now d) in
  buildable sb d' /\
  (u + TRANSACTION_SIZE <= JOURNAL_CAPACITY ->
   snd (cmd_create sb filename now d) = Ret Created /\
   header_is sb d' JOURNAL_MAGIC (u + TRANSACTION_SIZE)) /\
  (u <= JOURNAL_CAPACITY -> JOURNAL_CAPACITY < u + TRANSACTION_SIZE ->
   snd (cmd_create sb filename now d) = Ret JournalFull /\
   header_is sb d' JOURNAL_MAGIC
     (u + SIZEOF_DATA_RECORD * ((JOURNAL_CAPACITY - u) / SIZEOF_DATA_RECORD))).
Proof.
  intros Hregion Hb Hdb Ht Hbuild Hh d'. split; [|split].
  - apply (buildable_live sb d d'); try assumption.
    apply (journal_only_cmd_create sb filename now Hregion d).
  - intros Hroom. destruct (Hbuild filename now) as (im & H & _).
    now apply (create_on_roomy_journal sb filename now d im u).
  - intros Hu Hroom. destruct (Hbuild filename now) as (im & H & _).
    destruct (create_build_lengths _ _ _ _ _ H) as (L1 & L2 & L3 & L4).
    destruct (create_log_full sb im L1 L2 L3 L4 d JOURNAL_MAGIC u
                Hh Hu Hroom) as (e & Hlog & Hh').
    unfold d', cmd_create.
    rewrite (bind_eq _ _ _ _ _ (init_journal_initialized sb d u Hh)).
    rewrite (bind_eq _ _ _ _ _ (create_build_eq _ _ _ _ _ H)).
    rewrite Hlog. split; [reflexivity | exact Hh'].
Qed.

(** X22.  An empty journal takes exactly three creations: on an image
    where a creation can build its images and the blocks it reads lie
    outside the journal region, the first three creations, with any
    names, report success and bring [nbytes_used] to 16428, 32848 and
    49268; a fourth reports the full journal and leaves 61580. *)
Theorem three_creations_fill_journal (sb : superblock) (d : disk)
    (filename : buffer) (now : stamps) (im : create_images)
    (f1 f2 f3 f4 : buffer) (n1 n2 n3 n4 : stamps)
    (Hheader : header_is sb d JOURNAL_MAGIC SIZEOF_JOURNAL_HEADER)
    (Hregion : journal_base sb + JOURNAL_CAPACITY < 2 ^ 32)
    (Hbuild : snd (create_build sb filename now d) = Ret im)
    (Hbitmap : block_apart sb (inode_bitmap sb))
    (Hdata : block_apart sb (data_bitmap sb))
    (Htable : block_apart sb (inode_start sb))
    (Hdir : block_apart sb (root_direct0 im))
    (Hinode : block_apart sb (inode_block_num im)) :
  let d1 := fst (cmd_create sb f1 n1 d) in
  let d2 := fst (cmd_create sb f2 n2 d1) in
  let d3 := fst (cmd_create sb f3 n3 d2) in
  let d4 := fst (cmd_create sb f4 n4 d3) in
  snd (cmd_create sb f1 n1 d) = Ret Created /\
  header_is sb d1 JOURNAL_MAGIC 16428 /\
  snd (cmd_create sb f2 n2 d1) = Ret Created /\
  header_is sb d2 JOURNAL_MAGIC 32848 /\
  snd (cmd_create sb f3 n3 d2) = Ret Created /\
  header_is sb d3 JOURNAL_MAGIC 49268 /\
  snd (cmd_create sb f4 n4 d3) = Ret JournalFull /\
  header_is sb d4 JOURNAL_MAGIC 61580.
Proof.
  intros d1 d2 d3 d4.
  pose proof (buildable_of_build sb filename now d im Hbuild Hdir Hinode)
    as B0.
  destruct (create_turn sb f1 n1 d 8 Hregion Hbitmap Hdata Htable B0 Hheader)
    as (B1 & T1 & _).
  destruct T1 as [C1 H1]; [vm_compute; discriminate|].
  fold d1 in B1, H1. change (8 + TRANSACTION_SIZE) with 16428 in H1.
  destruct (create_turn sb f2 n2 d1 16428 Hregion Hbitmap Hdata Htable B1 H1)
    as (B2 & T2 & _).
  destruct T2 as [C2 H2]; [vm_compute; discriminate|].
  fold d2 in B2, H2. change (16428 + TRANSACTION_SIZE) with 32848 in H2.
  destruct (create_turn sb f3 n3 d2 32848 Hregion Hbitmap Hdata Htable B2 H2)
    as (B3 & T3 & _).
  destruct T3 as [C3 H3]; [vm_compute; discriminate|].
  fold d3 in B3, H3. change (32848 + TRANSACTION_SIZE) with 49268 in H3.
  destruct (create_turn sb f4 n4 d3 49268 Hregion Hbitmap Hdata Htable B3 H3)
    as (_ & _ & T4).
  destruct T4 as [C4 H4]; [vm_compute; discriminate | reflexivity |].
  fold d4 in H4.
  change (49268 + SIZEOF_DATA_RECORD
                  * ((JOURNAL_CAPACITY - 49268) / SIZEOF_DATA_RECORD))
    with 61580 in H4.
  repeat split; assumption.
Qed.

(** X23.  The first creation on an image whose journal was never
    initialised initialises it and appends its transaction at offset
    8: the journal then records 16428 bytes and starts with the data
    record of the inode bitmap. *)
Theorem create_on_fresh_journal (sb : superblock) (filename : buffer)
    (now : stamps) (d : disk) (jh : buffer) (im : create_images)
    (Hjh : pread d (journal_base sb) 8 = Some jh)
    (Hfresh : jh_magic jh <> JOURNAL_MAGIC)
    (Hregion : journal_base sb + JOURNAL_CAPACITY < 2 ^ 32)
    (Hbuild : snd (create_build sb filename now d) = Ret im)
    (Hbitmap : block_apart sb (inode_bitmap sb))
    (Hdata : block_apart sb (data_bitmap sb))
    (Htable : block_apart sb (inode_start sb))
    (Hdir : block_apart sb (root_direct0 im))
    (Hinode : block_apart sb (inode_block_num im)) :
  let d' := fst (cmd_create sb filename now d) in
  snd (cmd_create sb filename now d) = Ret Created /\
  header_is sb d' JOURNAL_MAGIC (8 + TRANSACTION_SIZE) /\
  journal_holds sb d' 8
    (encode_data_record (inode_bitmap sb) (new_inode_bmap im)) /\
  journal_holds sb d' (8 + 16416) encode_commit_record.
Proof.
  intros d'.
  set (d0 := pwrite d (journal_base sb) empty_journal_header).
  pose proof (init_journal_uninitialized sb d jh Hjh Hfresh) as Hinit.
  fold d0 in Hinit.
  assert (Hlive : live_preserved sb d d0).
  { pose proof (journal_only_init sb d) as H. now rewrite Hinit in H. }
  assert (Hb0 : snd (create_build sb filename now d0) = Ret im).
  { apply create_build_transfer with (d := d); [exact Hbuild|].
    intros blk b Hblk Hr.
    apply (live_preserved_pread sb d d0 (block_off blk) 4096 b Hlive);
      [|exact Hr].
    unfold block_apart in *. change BLOCK_SIZE with 4096 in *.
    destruct Hblk as [-> | [-> | [-> | [-> | ->]]]]; assumption. }
  destruct (create_build_lengths _ _ _ _ _ Hb0) as (L1 & L2 & L3 & L4).
  destruct (create_log_records sb im d0 JOURNAL_MAGIC 8 L1 L2 L3 L4
              (header_is_empty_written sb d) ltac:(lia) Hregion
              ltac:(vm_compute; discriminate))
    as (e & Hlog & Hh & J1 & _ & _ & _ & J5 & _).
  unfold d', cmd_create.
  rewrite (bind_eq _ _ _ _ _ Hinit).
  rewrite (bind_eq _ _ _ _ _ (create_build_eq _ _ _ _ _ Hb0)).
  rewrite Hlog. cbn [fst snd]. repeat split; assumption.
Qed.
(** ** A creation on a journal without room *)

Lemma tail_kept_refl (sb : superblock) (u : Z) (d : disk) : tail_kept sb u d d.
Proof. split; [apply Z.le_refl | reflexivity]. Qed.

Lemma tail_kept_trans (sb : superblock) (u1 u2 : Z) (d1 d2 d3 : disk) :
  u1 <= u2 -> tail_kept sb u1 d1 d2 -> tail_kept sb u2 d2 d3 ->
  tail_kept sb u2 d1 d3.
Proof.
  intros Hu [L12 H12] [L23 H23]. split; [lia|].
  intros o Ho Hlt. rewrite H23 by lia. apply H12; lia.
Qed.

Lemma records_kept_refl (sb : superblock) (u : Z) (d : disk) :
  records_kept sb u d d.
Proof. intros o n b _ _ H. exact H. Qed.

(** Two reads side by side are one read. *)
Lemma bytes_from_app (f : Z -> byte) (n m : nat) :
  forall off,
    bytes_from f off (n + m)
    = bytes_from f off n ++ bytes_from f (off + Z.of_nat n) m.
Proof.
  induction n as [|n IH]; intros off.
  - cbn [bytes_from Nat.add app]. now rewrite Z.add_0_r.
  - cbn [bytes_from Nat.add app]. f_equal. rewrite IH. do 2 f_equal. lia.
Qed.

Lemma pread_app (d : disk) (off : Z) (a b : buffer) :
  pread d off (length a) = Some a ->
  pread d (off + Z.of_nat (length a)) (length b) = Some b ->
  pread d off (length (a ++ b)) = Some (a ++ b).
Proof.
  intros Ha Hb.
  destruct a as [|x a]; [now rewrite Z.add_0_r in Hb|].
  destruct b as [|y b]; [now rewrite app_nil_r|].
  pose proof (pread_inside _ _ _ _ Ha ltac:(discriminate)) as Ia.
  pose proof (pread_inside _ _ _ _ Hb ltac:(discriminate)) as Ib.
  rewrite pread_defined in Ha by exact Ia.
  rewrite pread_defined in Hb by exact Ib.
  rewrite length_app.
  rewrite pread_defined by lia.
  rewrite bytes_from_app.
  apply (f_equal (fun o => match o with Some v => v | None => [] end)) in Ha.
  apply (f_equal (fun o => match o with Some v => v | None => [] end)) in Hb.
  cbv beta iota in Ha, Hb. now rewrite Ha, Hb.
Qed.

Lemma journal_holds_app (sb : superblock) (d : disk) (pos : Z)
    (a b : buffer) :
  journal_holds sb d pos a ->
  journal_holds sb d (pos + Z.of_nat (length a)) b ->
  journal_holds sb d pos (a ++ b).
Proof.
  unfold journal_holds. intros Ha Hb. apply pread_app; [exact Ha|].
  now rewrite <- Z.add_assoc.
Qed.

(** One append with room: besides what [append_step] says, nothing at
    or after the end of the new record is written. *)
Lemma append_tail (sb : superblock) (record : buffer) (d : disk) (m u : Z) :
  header_is sb d m u -> 8 <= u ->
  journal_base sb + JOURNAL_CAPACITY < 2 ^ 32 ->
  u + Z.of_nat (length record) <= JOURNAL_CAPACITY ->
  tail_kept sb (u + Z.of_nat (length record)) d
    (fst (append_to_journal sb record d)).
Proof.
  intros (jh & Hjh & <- & <-) Hu Hregion Hfits.
  pose proof (nbytes_used_range jh) as Hr.
  pose proof (block_off_range (journal_block sb)) as Hb.
  change JOURNAL_CAPACITY with 65536 in *. unfold journal_base in *.
  assert (Hlen : Z.of_nat (length record) + 2 ^ 32 <= 2 ^ 64) by lia.
  rewrite (append_to_journal_fits sb record jh d Hjh Hlen Hfits).
  cbn [fst].
  assert (Hoff : journal_off sb (nbytes_used jh)
                 = block_off (journal_block sb) + nbytes_used jh)
    by (unfold journal_off; apply u32_small; lia).
  rewrite Hoff.
  set (d1 := pwrite d (block_off (journal_block sb) + nbytes_used jh) record).
  pose proof (dlen_pwrite_le d
                (block_off (journal_block sb) + nbytes_used jh) record) as L1.
  fold d1 in L1.
  split.
  - etransitivity; [exact L1 | apply dlen_pwrite_le].
  - intros o Ho Hlt. unfold journal_base in Ho.
    rewrite dat_pwrite_outside;
      [| rewrite length_encode_journal_header; lia | lia].
    unfold d1. apply dat_pwrite_outside; [lia | exact Hlt].
Qed.

(** One append of [create_log] after the records [pre] of the same
    creation: either the record does not fit and nothing changes, or it
    is appended behind [pre]. *)
Lemma create_log_turn (sb : superblock) (record pre : buffer) (len v : Z)
    (k : Z -> io create_report) (d0 d : disk) (m u : Z) :
  Z.of_nat (length record) = len -> 0 <= len <= 4104 ->
  v = u + Z.of_nat (length pre) ->
  8 <= u -> journal_base sb + JOURNAL_CAPACITY < 2 ^ 32 ->
  header_is sb d m v ->
  journal_holds sb d u pre ->
  records_kept sb u d0 d ->
  tail_kept sb v d0 d ->
  (JOURNAL_CAPACITY < v + len /\
   bind (append_to_journal sb record) k d = k (-1) d)
  \/ (v + len <= JOURNAL_CAPACITY /\
      exists d',
        bind (append_to_journal sb record) k d = k 0 d' /\
        header_is sb d' m (v + len) /\
        journal_holds sb d' u (pre ++ record) /\
        records_kept sb u d0 d' /\
        tail_kept sb (v + len) d0 d').
Proof.
  intros Hrec Hlen Hv Hu Hregion Hh Hpre Hkept Htail.
  assert (Hp : u <= v) by lia.
  destruct (Z.lt_ge_cases JOURNAL_CAPACITY (v + len)) as [Hfull | Hfits].
  - left. split; [exact Hfull|]. apply bind_eq.
    apply append_full_header with (m := m) (u := v);
      [exact Hh | lia | lia].
  - right. split; [exact Hfits|].
    assert (Hfits' : v + Z.of_nat (length record) <= JOURNAL_CAPACITY)
      by lia.
    pose proof (append_tail sb record d m v Hh ltac:(lia) Hregion
                  Hfits') as Ht.
    destruct (append_step sb record d m v Hh ltac:(lia) Hregion Hfits')
      as (d' & Ha & Hh' & Hrec' & Hk').
    rewrite Ha in Ht. cbn [fst] in Ht. rewrite Hrec in Hh', Ht.
    exists d'. split; [now apply bind_eq|].
    split; [exact Hh'|]. split; [|split].
    + apply journal_holds_app; [|now rewrite <- Hv].
      unfold journal_holds in *. apply Hk'; [lia | lia | exact Hpre].
    + apply records_kept_trans with (u2 := v) (d2 := d);
        [lia | exact Hkept | exact Hk'].
    + apply tail_kept_trans with (u1 := v) (d2 := d);
        [lia | exact Htail | exact Ht].
Qed.

(** [create_log] on a journal without room for the whole transaction:
    the data records that fit are appended in order, and nothing
    else. *)
Lemma create_log_short (sb : superblock) (im : create_images) (d : disk)
    (m u : Z) :
  length (new_inode_bmap im) = 4096%nat ->
  length (new_inode_block im) = 4096%nat ->
  length (new_dir_block im) = 4096%nat ->
  length (new_root_inode_block im) = 4096%nat ->
  header_is sb d m u -> 8 <= u ->
  journal_base sb + JOURNAL_CAPACITY < 2 ^ 32 ->
  u <= JOURNAL_CAPACITY -> JOURNAL_CAPACITY < u + TRANSACTION_SIZE ->
  exists d' k,
    Z.of_nat k = (JOURNAL_CAPACITY - u) / SIZEOF_DATA_RECORD /\
    create_log sb im d = (d', Ret JournalFull) /\
    header_is sb d' m (u + SIZEOF_DATA_RECORD * Z.of_nat k) /\
    journal_holds sb d' u (concat (firstn k (data_records sb im))) /\
    records_kept sb u d d' /\
    tail_kept sb (u + SIZEOF_DATA_RECORD * Z.of_nat k) d d'.
Proof.
  intros L1 L2 L3 L4 Hh Hu Hregion Hle Hroom.
  change TRANSACTION_SIZE with 16420 in Hroom.
  change SIZEOF_DATA_RECORD with 4104.
  assert (Hcap : JOURNAL_CAPACITY = 65536) by reflexivity.
  destruct (create_records_length sb im L1 L2 L3 L4)
    as (E1 & E2 & E3 & E4 & E5).
  unfold data_records, create_log.
  set (r1 := encode_data_record (inode_bitmap sb) (new_inode_bmap im)) in *.
  set (r2 := encode_data_record (inode_block_num im) (new_inode_block im))
    in *.
  set (r3 := encode_data_record (root_direct0 im) (new_dir_block im)) in *.
  set (r4 := encode_data_record (inode_start sb) (new_root_inode_block im))
    in *.
  assert (J0 : journal_holds sb d u []) by reflexivity.
  match goal with
  | |- context [bind (append_to_journal sb r1) ?k d] =>
      destruct (create_log_turn sb r1 [] 4104 u k d d m u E1 ltac:(lia)
                  ltac:(cbn [length]; lia) Hu Hregion Hh J0
                  (records_kept_refl sb u d) (tail_kept_refl sb u d))
        as [[Hf ->] | (Hf1 & d1 & -> & Hh1 & J1 & K1 & T1)]
  end.
  { exists d, 0%nat. split.
    - rewrite Hcap in *. Z.to_euclidean_division_equations; lia.
    - replace (u + 4104 * Z.of_nat 0) with u by lia.
      split; [reflexivity|]. split; [exact Hh|]. split; [exact J0|].
      split; [apply records_kept_refl | apply tail_kept_refl]. }
  change (0 <? 0) with false. cbv beta iota.
  match goal with
  | |- context [bind (append_to_journal sb r2) ?k d1] =>
      destruct (create_log_turn sb r2 ([] ++ r1) 4104 (u + 4104) k d d1 m u
                  E2 ltac:(lia) ltac:(cbn [app]; lia) Hu Hregion Hh1 J1 K1 T1)
        as [[Hf ->] | (Hf2 & d2 & -> & Hh2 & J2 & K2 & T2)]
  end.
  { exists d1, 1%nat. split.
    - rewrite Hcap in *. Z.to_euclidean_division_equations; lia.
    - replace (u + 4104 * Z.of_nat 1) with (u + 4104) by lia.
      cbn [firstn concat]. rewrite app_nil_r.
      split; [reflexivity|]. split; [exact Hh1|]. split; [exact J1|].
      split; [exact K1 | exact T1]. }
  change (0 <? 0) with false. cbv beta iota.
  match goal with
  | |- context [bind (append_to_journal sb r3) ?k d2] =>
      destruct (create_log_turn sb r3 (([] ++ r1) ++ r2) 4104
                  (u + 4104 + 4104) k d d2 m u
                  E3 ltac:(lia) ltac:(cbn [app]; rewrite length_app; lia)
                  Hu Hregion Hh2 J2 K2 T2)
        as [[Hf ->] | (Hf3 & d3 & -> & Hh3 & J3 & K3 & T3)]
  end.
  { exists d2, 2%nat. split.
    - rewrite Hcap in *. Z.to_euclidean_division_equations; lia.
    - replace (u + 4104 * Z.of_nat 2) with (u + 4104 + 4104) by lia.
      cbn [firstn concat]. rewrite app_nil_r.
      split; [reflexivity|]. split; [exact Hh2|]. split; [exact J2|].
      split; [exact K2 | exact T2]. }
  change (0 <? 0) with false. cbv beta iota.
  match goal with
  | |- context [bind (append_to_journal sb r4) ?k d3] =>
      destruct (create_log_turn sb r4 ((([] ++ r1) ++ r2) ++ r3) 4104
                  (u + 4104 + 4104 + 4104) k d d3 m u
                  E4 ltac:(lia) ltac:(cbn [app]; rewrite !length_app; lia)
                  Hu Hregion Hh3 J3 K3 T3)
        as [[Hf ->] | (Hf4 & d4 & -> & Hh4 & J4 & K4 & T4)]
  end.
  { exists d3, 3%nat. split.
    - rewrite Hcap in *. Z.to_euclidean_division_equations; lia.
    - replace (u + 4104 * Z.of_nat 3) with (u + 4104 + 4104 + 4104) by lia.
      cbn [firstn concat]. rewrite app_nil_r.
      cbn [app] in J3. rewrite <- app_assoc in J3.
      split; [reflexivity|]. split; [exact Hh3|]. split; [exact J3|].
      split; [exact K3 | exact T3]. }
  change (0 <? 0) with false. cbv beta iota.
  match goal with
  | |- context [bind (append_to_journal sb encode_commit_record) ?k d4] =>
      destruct (create_log_turn sb encode_commit_record
                  (((([] ++ r1) ++ r2) ++ r3) ++ r4) 4
                  (u + 4104 + 4104 + 4104 + 4104) k d d4 m u
                  E5 ltac:(lia) ltac:(cbn [app]; rewrite !length_app; lia)
                  Hu Hregion Hh4 J4 K4 T4)
        as [[Hf ->] | (Hf5 & _)]
  end.
  { exists d4, 4%nat. split.
    - rewrite Hcap in *. Z.to_euclidean_division_equations; lia.
    - replace (u + 4104 * Z.of_nat 4)
        with (u + 4104 + 4104 + 4104 + 4104) by lia.
      cbn [firstn concat]. rewrite app_nil_r.
      cbn [app] in J4. rewrite <- !app_assoc in J4.
      split; [reflexivity|]. split; [exact Hh4|]. split; [exact J4|].
      split; [exact K4 | exact T4]. }
  rewrite Hcap in Hf5. lia.
Qed.

(** C6, as the code has it.  On an image whose journal is initialised
    with [nbytes_used = u], [8 <= u], within the capacity but without
    room for a whole transaction of four data records and a commit, and
    on which the four block images can be built, [cmd_create] returns
    after the "journal full" report.  The data records of the failed
    attempt that still fitted stay appended: with [k] the number of
    data records that fit, [(65536 - u) / 4104], [nbytes_used] ends at
    [u + 4104 * k], and the journal holds from offset [u] up to the new
    [nbytes_used] exactly the first [k] data records of the creation in
    the order of their appends.  The records that were there before
    are kept, and nothing is written at or after the new
    [nbytes_used]: no commit record follows the data records. *)
Theorem create_on_full_journal (sb : superblock) (filename : buffer)
    (now : stamps) (d : disk) (im : create_images) (u : Z)
    (Hheader : header_is sb d JOURNAL_MAGIC u)
    (Hbuild : snd (create_build sb filename now d) = Ret im)
    (Hlow : 8 <= u)
    (Hregion : journal_base sb + JOURNAL_CAPACITY < 2 ^ 32)
    (Hused : u <= JOURNAL_CAPACITY)
    (Hroom : JOURNAL_CAPACITY < u + TRANSACTION_SIZE) :
  let d' := fst (cmd_create sb filename now d) in
  let k := Z.to_nat ((JOURNAL_CAPACITY - u) / SIZEOF_DATA_RECORD) in
  let u' := u + SIZEOF_DATA_RECORD * Z.of_nat k in
  snd (cmd_create sb filename now d) = Ret JournalFull /\
  header_is sb d' JOURNAL_MAGIC u' /\
  (k <= 4)%nat /\
  journal_holds sb d' u (concat (firstn k (data_records sb im))) /\
  records_kept sb u d d' /\
  tail_kept sb u' d d'.
Proof.
  intros d' k u'.
  destruct (create_build_lengths _ _ _ _ _ Hbuild) as (L1 & L2 & L3 & L4).
  destruct (create_log_short sb im d JOURNAL_MAGIC u L1 L2 L3 L4
              Hheader Hlow Hregion Hused Hroom)
    as (d1 & k1 & Hk & Hlog & Hh' & Hrec & Hkept & Htail).
  assert (Ek : k = k1) by (unfold k; rewrite <- Hk; apply Nat2Z.id).
  assert (Hk4 : (k <= 4)%nat).
  { rewrite Ek. change JOURNAL_CAPACITY with 65536 in *.
    change SIZEOF_DATA_RECORD with 4104 in *.
    change TRANSACTION_SIZE with 16420 in *.
    apply Nat2Z.inj_le. rewrite Hk.
    Z.to_euclidean_division_equations; lia. }
  unfold u', d'. rewrite Ek in *. unfold cmd_create.
  rewrite (bind_eq _ _ _ _ _ (init_journal_initialized sb d u Hheader)).
  rewrite (bind_eq _ _ _ _ _ (create_build_eq _ _ _ _ _ Hbuild)).
  rewrite Hlog. cbn [fst snd].
  split; [reflexivity|]. split; [exact Hh'|]. split; [exact Hk4|].
  split; [exact Hrec|]. split; [exact Hkept | exact Htail].
Qed.


(** ** The theorems at the sample images *)

(** The allocator theorem on the two-byte bitmap [0x0b 0xff], whose
    bits 0, 1, 3 and 8 to 15 are 1: the first answer is 2, the answer
    after marking 2 is 4. *)
Lemma find_free_lowest_then_next_witness :
  16 <= 8 * Z.of_nat (length [Byte.x0b; Byte.xff]) /\
  bitmap_find_free [Byte.x0b; Byte.xff] 16 = 2 /\
  bitmap_set [Byte.x0b; Byte.xff] 2 = Some [Byte.x0f; Byte.xff] /\
  bitmap_find_free [Byte.x0f; Byte.xff] 16 = 4 /\
  (let r := bitmap_find_free [Byte.x0b; Byte.xff] 16 in
   lowest_free [Byte.x0b; Byte.xff] 0 16 r /\
   (0 <= r ->
    exists bmap',
      bitmap_set [Byte.x0b; Byte.xff] r = Some bmap' /\
      length bmap' = length [Byte.x0b; Byte.xff] /\
      (forall j, 0 <= j ->
         bit_at bmap' j = (j =? r) || bit_at [Byte.x0b; Byte.xff] j) /\
      lowest_free [Byte.x0b; Byte.xff] (r + 1) 16
        (bitmap_find_free bmap' 16))).
Proof.
  assert (Hcap : 16 <= 8 * Z.of_nat (length [Byte.x0b; Byte.xff]))
    by (cbn; lia).
  split; [exact Hcap|].
  split; [reflexivity|]. split; [reflexivity|]. split; [reflexivity|].
  exact (find_free_lowest_then_next [Byte.x0b; Byte.xff] 16 Hcap).
Defined.

(** One append of a commit record to the empty journal of the sample
    image. *)
Lemma append_to_journal_spec_witness :
  pread sample_image (block_off (journal_block sample_sb)) 8
  = Some empty_journal_header /\
  append_to_journal sample_sb encode_commit_record sample_image
  = (pwrite
       (pwrite sample_image (block_off JOURNAL_BLOCK_IDX + 8)
          encode_commit_record)
       (block_off JOURNAL_BLOCK_IDX)
       (encode_journal_header JOURNAL_MAGIC 12),
     Ret 0).
Proof.
  assert (H : pread sample_image (block_off (journal_block sample_sb)) 8
              = Some empty_journal_header) by (vm_compute; reflexivity).
  split; [exact H|].
  assert (Hregion : block_off (journal_block sample_sb) + JOURNAL_CAPACITY
                    < 2 ^ 32) by (vm_compute; reflexivity).
  assert (Hlen : Z.of_nat (length encode_commit_record) + 2 ^ 32 <= 2 ^ 64)
    by (vm_compute; discriminate).
  assert (Hfits : nbytes_used empty_journal_header
                  + Z.of_nat (length encode_commit_record)
                  <= JOURNAL_CAPACITY) by (vm_compute; discriminate).
  exact (proj1 (proj2 (append_to_journal_spec sample_sb encode_commit_record
                         empty_journal_header sample_image H Hregion Hlen)
                  Hfits)).
Defined.

(** An append of the empty record writes no record byte: an image that
    ends with its journal header keeps its length although
    [nbytes_used] points beyond it, and the header keeps its count. *)
Example append_of_nothing :
  dlen header_only_image = 4104 /\
  snd (append_to_journal sample_sb [] header_only_image) = Ret 0 /\
  dlen (fst (append_to_journal sample_sb [] header_only_image)) = 4104 /\
  journal_used sample_sb (fst (append_to_journal sample_sb [] header_only_image))
  = Some 100.
Proof. vm_compute. repeat split. Qed.

(** The install of a committed transaction. *)
Lemma install_rewrites_header_only_witness :
  match cmd_install 3 sample_sb committed_image with
  | Some (d', r) =>
      r <> Undef /\
      dlen d' = dlen committed_image /\
      forall o, o < dlen committed_image ->
                ~ journal_base sample_sb <= o < journal_base sample_sb + 8 ->
                dat d' o = dat committed_image o
  | None => False
  end.
Proof.
  destruct (cmd_install 3 sample_sb committed_image) as [[d' r]|] eqn:E.
  - destruct (install_rewrites_header_only 3 sample_sb committed_image d' r E)
      as (_ & H1 & _ & _ & H2 & H3).
    repeat split; assumption.
  - assert (X : match cmd_install 3 sample_sb committed_image with
                | Some _ => true
                | None => false
                end = true) by (vm_compute; reflexivity).
    rewrite E in X. discriminate X.
Defined.

(** The install of the journal with the record of unknown type. *)
Lemma install_unknown_record_resets_witness :
  cmd_install 2 sample_sb corrupt_image
  = Some (pwrite corrupt_image (journal_base sample_sb) empty_journal_header,
          Ret (Applied (Some (get16 unknown_record 0)))).
Proof.
  assert (Hjh : pread corrupt_image (journal_base sample_sb) 8
                = Some (encode_journal_header JOURNAL_MAGIC 16))
    by (vm_compute; reflexivity).
  assert (Hscan : scan_to 1 sample_sb
                    (nbytes_used (encode_journal_header JOURNAL_MAGIC 16))
                    SIZEOF_JOURNAL_HEADER corrupt_image = Some 12)
    by (vm_compute; reflexivity).
  assert (Hrh : pread corrupt_image (journal_off sample_sb 12) 4
                = Some unknown_record)
    by (vm_compute; reflexivity).
  apply scan_steps_clear in Hscan.
  refine (proj1 (install_unknown_record_resets sample_sb corrupt_image
                   corrupt_image (encode_journal_header JOURNAL_MAGIC 16)
                   unknown_record 1 2 12 false
                   Hjh _ _ Hscan _ Hrh _ _ _));
    first [vm_compute; reflexivity | vm_compute; discriminate | lia].
Defined.

(** A creation on the sample image. *)
Lemma create_preserves_live_region_witness :
  snd (cmd_create sample_sb sample_name sample_now sample_image) <> Undef /\
  forall o, o < dlen sample_image -> ~ in_journal sample_sb o ->
            dat (fst (cmd_create sample_sb sample_name sample_now
                        sample_image)) o
            = dat sample_image o.
Proof.
  assert (H : snd (cmd_create sample_sb sample_name sample_now sample_image)
              <> Undef)
    by (vm_compute; discriminate).
  split; [exact H|].
  assert (Hregion : journal_base sample_sb + JOURNAL_CAPACITY < 2 ^ 32)
    by (vm_compute; reflexivity).
  exact (proj1 (create_preserves_live_region sample_sb sample_name sample_now
                  sample_image Hregion H)).
Defined.

(** The fourth creation on the sample image: three data records fit,
    the fourth does not. *)
Lemma create_on_full_journal_witness :
  Z.to_nat ((JOURNAL_CAPACITY - 49268) / SIZEOF_DATA_RECORD) = 3%nat /\
  (let d' := fst (cmd_create sample_sb sample_name sample_now image_after_3) in
   let k := Z.to_nat ((JOURNAL_CAPACITY - 49268) / SIZEOF_DATA_RECORD) in
   let u' := 49268 + SIZEOF_DATA_RECORD * Z.of_nat k in
   snd (cmd_create sample_sb sample_name sample_now image_after_3)
   = Ret JournalFull /\
   header_is sample_sb d' JOURNAL_MAGIC u' /\
   (k <= 4)%nat /\
   journal_holds sample_sb d' 49268
     (concat (firstn k (data_records sample_sb (images_of image_after_3)))) /\
   records_kept sample_sb 49268 image_after_3 d' /\
   tail_kept sample_sb u' image_after_3 d').
Proof.
  split; [reflexivity|].
  assert (Hh : header_is sample_sb image_after_3 JOURNAL_MAGIC 49268).
  { exists (encode_journal_header JOURNAL_MAGIC 49268).
    split; [vm_compute; reflexivity | split; reflexivity]. }
  assert (Hb : snd (create_build sample_sb sample_name sample_now
                      image_after_3)
               = Ret (images_of image_after_3)) by (vm_compute; reflexivity).
  assert (Hlow : 8 <= 49268) by lia.
  assert (Hregion : journal_base sample_sb + JOURNAL_CAPACITY < 2 ^ 32)
    by (vm_compute; reflexivity).
  assert (Hused : 49268 <= JOURNAL_CAPACITY) by (vm_compute; discriminate).
  assert (Hroom : JOURNAL_CAPACITY < 49268 + TRANSACTION_SIZE)
    by (vm_compute; reflexivity).
  exact (create_on_full_journal sample_sb sample_name sample_now
           image_after_3 (images_of image_after_3) 49268 Hh Hb Hlow Hregion
           Hused Hroom).
Defined.

(** The name "foo.txt" in the directory block built on the sample
    image. *)
Lemma create_stores_truncated_name_witness :
  c_string sample_name /\
  dirent_name (new_dir_block (images_of sample_image))
    (root_size sample_sb sample_image / SIZEOF_DIRENT)
  = sample_name ++ zeros 21.
Proof.
  assert (Hs : c_string sample_name) by (repeat constructor; discriminate).
  split; [exact Hs|].
  assert (Hb : snd (create_build sample_sb sample_name sample_now sample_image)
               = Ret (images_of sample_image)) by (vm_compute; reflexivity).
  assert (Hshort : (length sample_name < 28)%nat) by (cbn; lia).
  exact (proj2 (create_stores_truncated_name sample_sb sample_name sample_now
                  sample_image (images_of sample_image) Hs Hb) Hshort).
Defined.

(** ** The further properties at the sample images *)

Lemma write_block_read_block_witness :
  snd (read_block INODE_BMAP_IDX
         (fst (write_block INODE_BMAP_IDX (zeros 4096) sample_image)))
  = Ret (zeros 4096).
Proof.
  assert (H : length (zeros 4096) = 4096%nat) by (vm_compute; reflexivity).
  exact (proj1 (write_block_read_block INODE_BMAP_IDX (zeros 4096)
                  sample_image H)).
Defined.

Lemma read_superblock_round_trip_witness :
  read_superblock (pwrite (blank 4096) 0 (encode_superblock sample_sb))
  = (pwrite (blank 4096) 0 (encode_superblock sample_sb), Ret sample_sb).
Proof.
  assert (Hwf : superblock_wf sample_sb)
    by (vm_compute; repeat split; discriminate).
  assert (Hm : magic sample_sb = FS_MAGIC) by reflexivity.
  exact (read_superblock_round_trip sample_sb (blank 4096) Hwf Hm).
Defined.

Lemma init_journal_idempotent_witness :
  init_journal_if_needed sample_sb
    (fst (init_journal_if_needed sample_sb fresh_journal_image))
  = (fst (init_journal_if_needed sample_sb fresh_journal_image), Ret tt).
Proof.
  assert (H : journal_base sample_sb + 8 <= dlen fresh_journal_image)
    by (vm_compute; discriminate).
  exact (proj1 (proj2 (init_journal_idempotent sample_sb fresh_journal_image
                         H))).
Defined.

Lemma sample_header_empty :
  header_is sample_sb sample_image JOURNAL_MAGIC 8.
Proof.
  exists empty_journal_header.
  split; [vm_compute; reflexivity | split; reflexivity].
Qed.

Lemma sample_region : journal_base sample_sb + JOURNAL_CAPACITY < 2 ^ 32.
Proof. vm_compute. reflexivity. Qed.

Lemma sample_build :
  snd (create_build sample_sb sample_name sample_now sample_image)
  = Ret (images_of sample_image).
Proof. vm_compute. reflexivity. Qed.

Lemma append_keeps_records_witness :
  journal_holds sample_sb
    (fst (append_to_journal sample_sb encode_commit_record sample_image))
    8 encode_commit_record.
Proof.
  assert (Hu : 8 <= 8) by lia.
  assert (Hfits : 8 + Z.of_nat (length encode_commit_record)
                  <= JOURNAL_CAPACITY) by (vm_compute; discriminate).
  exact (proj1 (proj2 (proj2 (append_keeps_records sample_sb
                                encode_commit_record sample_image
                                JOURNAL_MAGIC 8 sample_header_empty Hu
                                sample_region Hfits)))).
Defined.

Lemma create_appends_transaction_witness :
  snd (cmd_create sample_sb sample_name sample_now sample_image) = Ret Created.
Proof.
  assert (Hu : 8 <= 8) by lia.
  assert (Hroom : 8 + TRANSACTION_SIZE <= JOURNAL_CAPACITY)
    by (vm_compute; discriminate).
  exact (proj1 (create_appends_transaction sample_sb sample_name sample_now
                  sample_image (images_of sample_image) 8
                  sample_header_empty Hu sample_region Hroom sample_build)).
Defined.

Lemma all_set_check (bmap : buffer) (n : nat) :
  forallb (fun i => bitmap_test bmap (Z.of_nat i)) (seq 0 n) = true ->
  all_set bmap 0 (Z.of_nat n).
Proof.
  intros H j Hj. rewrite forallb_forall in H.
  specialize (H (Z.to_nat j)). rewrite Z2Nat.id in H by lia.
  apply H. apply in_seq. lia.
Qed.

Lemma create_without_free_inode_witness :
  cmd_create sample_sb sample_name sample_now inodes_full_image
  = (inodes_full_image, Exit "no free inode").
Proof.
  assert (Hh : header_is sample_sb inodes_full_image JOURNAL_MAGIC 8).
  { exists empty_journal_header.
    split; [vm_compute; reflexivity | split; reflexivity]. }
  assert (Hb : pread inodes_full_image (block_off (inode_bitmap sample_sb))
                 4096
               = Some (image_block inodes_full_image INODE_BMAP_IDX))
    by (vm_compute; reflexivity).
  assert (Hd : pread inodes_full_image (block_off (data_bitmap sample_sb))
                 4096
               = Some (image_block inodes_full_image DATA_BMAP_IDX))
    by (vm_compute; reflexivity).
  assert (Hfull : all_set (image_block inodes_full_image INODE_BMAP_IDX) 0 64)
    by (apply (all_set_check _ 64); vm_compute; reflexivity).
  exact (create_without_free_inode sample_sb sample_name sample_now
           inodes_full_image 8 _ _ Hh Hb Hd Hfull).
Defined.

Lemma create_keeps_journal_bounded_witness :
  exists u',
    header_is sample_sb
      (fst (cmd_create sample_sb sample_name sample_now image_after_3))
      JOURNAL_MAGIC u' /\
    49268 <= u' <= JOURNAL_CAPACITY.
Proof.
  assert (Hh : header_is sample_sb image_after_3 JOURNAL_MAGIC 49268).
  { exists (encode_journal_header JOURNAL_MAGIC 49268).
    split; [vm_compute; reflexivity | split; reflexivity]. }
  assert (Hu : 49268 <= JOURNAL_CAPACITY) by (vm_compute; discriminate).
  assert (Hd : snd (cmd_create sample_sb sample_name sample_now image_after_3)
               <> Undef) by (vm_compute; discriminate).
  exact (create_keeps_journal_bounded sample_sb sample_name sample_now
           image_after_3 49268 Hh Hu Hd).
Defined.

Lemma create_bitmap_image_witness :
  lowest_clear (image_block sample_image (inode_bitmap sample_sb)) 0 64
    (bitmap_find_free (image_block sample_image (inode_bitmap sample_sb)) 64).
Proof.
  exact (proj1 (create_bitmap_image sample_sb sample_name sample_now
                  sample_image (images_of sample_image) sample_build)).
Defined.

Lemma create_inode_image_witness :
  inode_block_num (images_of sample_image)
  = u32 (inode_start sample_sb
         + bitmap_find_free
             (image_block sample_image (inode_bitmap sample_sb)) 64 / 32).
Proof.
  exact (proj1 (create_inode_image sample_sb sample_name sample_now
                  sample_image (images_of sample_image) sample_build)).
Defined.

Lemma create_directory_image_witness :
  root_direct0 (images_of sample_image)
  = get32 (image_block sample_image (inode_start sample_sb)) INODE_DIRECT_OFF.
Proof.
  exact (proj1 (create_directory_image sample_sb sample_name sample_now
                  sample_image (images_of sample_image) sample_build)).
Defined.

Lemma create_root_image_witness :
  get32 (new_root_inode_block (images_of sample_image)) INODE_SIZE_OFF
  = u32 (root_size sample_sb sample_image + SIZEOF_DIRENT).
Proof.
  exact (proj1 (create_root_image sample_sb sample_name sample_now
                  sample_image (images_of sample_image) sample_build)).
Defined.

Lemma sample_blocks_apart :
  block_apart sample_sb (inode_bitmap sample_sb) /\
  block_apart sample_sb (data_bitmap sample_sb) /\
  block_apart sample_sb (inode_start sample_sb) /\
  block_apart sample_sb (root_direct0 (images_of sample_image)) /\
  block_apart sample_sb (inode_block_num (images_of sample_image)).
Proof. repeat split; right; vm_compute; discriminate. Qed.

Lemma create_after_create_builds_same_witness :
  snd (create_build sample_sb sample_name sample_now
         (fst (cmd_create sample_sb sample_name sample_now sample_image)))
  = Ret (images_of sample_image).
Proof.
  destruct sample_blocks_apart as (A1 & A2 & A3 & A4 & A5).
  exact (create_after_create_builds_same sample_sb sample_name sample_name
           sample_now sample_now sample_image (images_of sample_image)
           sample_region sample_build A1 A2 A3 A4 A5).
Defined.

Lemma install_after_install_witness :
  match cmd_install 3 sample_sb committed_image with
  | Some (d', Ret (Applied _)) =>
      forall fuel', cmd_install fuel' sample_sb d' = Some (d', Ret JournalEmpty)
  | _ => False
  end.
Proof.
  assert (X : match cmd_install 3 sample_sb committed_image with
              | Some (_, Ret (Applied _)) => true
              | _ => false
              end = true) by (vm_compute; reflexivity).
  destruct (cmd_install 3 sample_sb committed_image)
    as [[d' [[|stop] | msg |]]|] eqn:E; try discriminate X.
  exact (install_after_install 3 sample_sb committed_image d' stop E).
Defined.

(** Inside the payload of its third data record, where the directory
    entry of the new file lies, the journal of [record_like_image] has
    the bytes of a data record header of size zero; the scan never
    stands there. *)
Example record_like_payload :
  pread record_like_image (journal_off sample_sb 8292) 4
  = Some (le_split 2 REC_DATA ++ le_split 2 0).
Proof. vm_compute. reflexivity. Qed.

Lemma install_terminates_witness :
  exists x,
    cmd_install
      (S (Z.to_nat (nbytes_used (encode_journal_header JOURNAL_MAGIC 16428))))
      sample_sb record_like_image
    = Some x.
Proof.
  assert (Hjh : pread record_like_image (journal_base sample_sb) 8
                = Some (encode_journal_header JOURNAL_MAGIC 16428))
    by (vm_compute; reflexivity).
  assert (Hused : nbytes_used (encode_journal_header JOURNAL_MAGIC 16428)
                  <= JOURNAL_CAPACITY) by (vm_compute; discriminate).
  refine (install_terminates sample_sb record_like_image
            (encode_journal_header JOURNAL_MAGIC 16428) Hjh Hused _).
  intros n pos rh Hs Hlt Hr Ht.
  change (nbytes_used (encode_journal_header JOURNAL_MAGIC 16428))
    with 16428 in Hs, Hlt.
  destruct n as [|[|[|[|[|[|n]]]]]];
    vm_compute in Hs; try discriminate Hs;
    injection Hs as <-; try (exfalso; lia);
    vm_compute in Hr; injection Hr as <-; vm_compute; discriminate.
Defined.

Lemma install_hangs_on_empty_commit_witness :
  cmd_install 1000 sample_sb empty_commit_image = None.
Proof.
  assert (Hjh : pread empty_commit_image (journal_base sample_sb) 8
                = Some (encode_journal_header JOURNAL_MAGIC 12))
    by (vm_compute; reflexivity).
  assert (Hrh : pread empty_commit_image (journal_off sample_sb 8) 4
                = Some empty_commit_record) by (vm_compute; reflexivity).
  refine (install_hangs_on_empty_commit sample_sb empty_commit_image
            empty_commit_image (encode_journal_header JOURNAL_MAGIC 12)
            empty_commit_record 0 8 false Hjh _ _ eq_refl _ _ Hrh _ _ 1000);
    first [vm_compute; reflexivity | vm_compute; discriminate
          | vm_compute; split; [discriminate | reflexivity]].
Defined.

Lemma record_round_trip_witness :
  install_step sample_sb 8 true
    (fst (cmd_create sample_sb sample_name sample_now sample_image))
  = (if true
     then fst (write_block (u32 (inode_bitmap sample_sb))
                 (new_inode_bmap (images_of sample_image))
                 (fst (cmd_create sample_sb sample_name sample_now
                         sample_image)))
     else fst (cmd_create sample_sb sample_name sample_now sample_image),
     Ret (Continue (8 + SIZEOF_DATA_RECORD) true)).
Proof.
  assert (Hlen : length (new_inode_bmap (images_of sample_image)) = 4096%nat)
    by (vm_compute; reflexivity).
  assert (Hpos : 0 <= 8) by lia.
  assert (Hend : 8 + SIZEOF_DATA_RECORD <= JOURNAL_CAPACITY)
    by (vm_compute; discriminate).
  assert (Hrec : journal_holds sample_sb
                   (fst (cmd_create sample_sb sample_name sample_now
                           sample_image))
                   8
                   (encode_data_record (inode_bitmap sample_sb)
                      (new_inode_bmap (images_of sample_image))))
    by (vm_compute; reflexivity).
  exact (proj1 (record_round_trip sample_sb 8 (inode_bitmap sample_sb)
                  (new_inode_bmap (images_of sample_image)) true
                  (fst (cmd_create sample_sb sample_name sample_now
                          sample_image))
                  Hlen sample_region Hpos) Hend Hrec).
Defined.

Lemma create_then_install_completes_witness :
  cmd_install 6 sample_sb
    (fst (cmd_create sample_sb sample_name sample_now sample_image))
  = Some (pwrite
            (fst (cmd_create sample_sb sample_name sample_now sample_image))
            (journal_base sample_sb) empty_journal_header,
          Ret (Applied None)).
Proof.
  assert (Hf : (6 <= 6)%nat) by lia.
  exact (proj1 (proj2 (create_then_install_completes sample_sb sample_name
                         sample_now sample_image (images_of sample_image) 6
                         sample_header_empty sample_region sample_build Hf))).
Defined.

Lemma main_create_exit_status_witness :
  main 0 sample_now sample_argv (Some image_after_3)
  = Some (Some (fst (cmd_create sample_sb (arg sample_argv 3) sample_now
                       image_after_3)), Ret 0).
Proof.
  assert (Hargc : (4 <= length sample_argv)%nat) by (cbn; lia).
  assert (Hcmd : strcmp_eq (arg sample_argv 2) CMD_CREATE = true)
    by reflexivity.
  assert (Hsb : snd (read_superblock image_after_3) = Ret sample_sb)
    by (vm_compute; reflexivity).
  assert (Hrun : snd (cmd_create sample_sb (arg sample_argv 3) sample_now
                        image_after_3) = Ret JournalFull)
    by (vm_compute; reflexivity).
  exact (main_create_exit_status 0 sample_now sample_argv image_after_3
           sample_sb JournalFull Hargc Hcmd Hsb Hrun).
Defined.


Lemma find_free_reads_capacity_only_witness :
  bitmap_find_free [Byte.xff; Byte.x00] 8
  = bitmap_find_free [Byte.xff; Byte.xff] 8.
Proof.
  refine (find_free_reads_capacity_only [Byte.xff; Byte.x00]
            [Byte.xff; Byte.xff] 8 _).
  intros j Hj.
  assert (Hc : j = 0 \/ j = 1 \/ j = 2 \/ j = 3 \/ j = 4 \/ j = 5 \/ j = 6
               \/ j = 7) by lia.
  destruct Hc as [-> | [-> | [-> | [-> | [-> | [-> | [-> | ->]]]]]]];
    reflexivity.
Defined.

Lemma three_creations_fill_journal_witness :
  snd (cmd_create sample_sb sample_name sample_now sample_image)
  = Ret Created.
Proof.
  destruct sample_blocks_apart as (A1 & A2 & A3 & A4 & A5).
  exact (proj1 (three_creations_fill_journal sample_sb sample_image
                  sample_name sample_now (images_of sample_image)
                  sample_name sample_name sample_name sample_name
                  sample_now sample_now sample_now sample_now
                  sample_header_empty sample_region sample_build
                  A1 A2 A3 A4 A5)).
Defined.

Lemma create_on_fresh_journal_witness :
  snd (cmd_create sample_sb sample_name sample_now fresh_journal_image)
  = Ret Created.
Proof.
  assert (Hjh : pread fresh_journal_image (journal_base sample_sb) 8
                = Some (zeros 8)) by (vm_compute; reflexivity).
  assert (Hfresh : jh_magic (zeros 8) <> JOURNAL_MAGIC)
    by (vm_compute; discriminate).
  assert (Hb : snd (create_build sample_sb sample_name sample_now
                      fresh_journal_image)
               = Ret (images_of fresh_journal_image))
    by (vm_compute; reflexivity).
  assert (A : block_apart sample_sb (inode_bitmap sample_sb) /\
              block_apart sample_sb (data_bitmap sample_sb) /\
              block_apart sample_sb (inode_start sample_sb) /\
              block_apart sample_sb
                (root_direct0 (images_of fresh_journal_image)) /\
              block_apart sample_sb
                (inode_block_num (images_of fresh_journal_image)))
    by (repeat split; right; vm_compute; discriminate).
  destruct A as (A1 & A2 & A3 & A4 & A5).
  exact (proj1 (create_on_fresh_journal sample_sb sample_name sample_now
                  fresh_journal_image (zeros 8)
                  (images_of fresh_journal_image)
                  Hjh Hfresh sample_region Hb A1 A2 A3 A4 A5)).
Defined.
